(** * models.py: the persistence layer of the job board

    A shallow embedding of [models.py] and of the part of SQLite that its
    statements exercise.

    - A database file is a finite map from table names to tables; a table
      carries its declared columns, its CHECK constraints, its rows in scan
      order and the AUTOINCREMENT counter kept in [sqlite_sequence].
    - A row is a rowid together with a map from column names to values; the
      [INTEGER PRIMARY KEY] column is an alias of the rowid, as in SQLite.
    - A connection has the committed file and, once a data-changing
      statement ran, the working copy of the open transaction.  Leaving an
      accessor by an exception drops the connection, which rolls the
      transaction back.
    - The clock and the random source are ambient inputs of a call: what
      [datetime.utcnow()] returns, which is also the instant SQLite puts
      for CURRENT_TIMESTAMP, and what [secrets.token_hex] draws.

    Scope of the model.  Identifiers are compared exactly (the module spells
    every table and column in lower case).  Values are stored as they are
    bound: an accessor's arguments carry the storage class of the column they
    go to, so type affinity never converts them.  BLOB values, which no
    accessor stores, are left out, and integers are not bounded to 64 bits.
    The floating-point arithmetic of AVG is, like the text forms of
    timestamps, a parameter of the accessors that depend on it. *)

From Stdlib Require Import ZArith QArith Qround Ascii String List Bool Lia Permutation.
From stdpp Require Import gmap strings list fin_maps.

Open Scope string_scope.
Open Scope Z_scope.

(** ** Values *)

(** SQLite storage classes, which are also the Python values [sqlite3] maps
    them to: [None], [int], [float] (a finite double, as the rational it
    denotes) and [str]. *)
Inductive value : Type :=
| VNull
| VInt (z : Z)
| VReal (q : Q)
| VText (s : string).

(** The order SQLite sorts by: NULL first, then numbers by numeric value,
    then text by its bytes. *)
Definition value_compare (a b : value) : comparison :=
  match a, b with
  | VNull, VNull => Eq
  | VNull, _ => Lt
  | _, VNull => Gt
  | VInt x, VInt y => (x ?= y)%Z
  | VInt x, VReal y => (inject_Z x ?= y)%Q
  | VReal x, VInt y => (x ?= inject_Z y)%Q
  | VReal x, VReal y => (x ?= y)%Q
  | VInt _, VText _ => Lt
  | VReal _, VText _ => Lt
  | VText _, VInt _ => Gt
  | VText _, VReal _ => Gt
  | VText s, VText t => String.compare s t
  end.

(** Python truthiness of a fetched value ([if x:]). *)
Definition truthy (v : value) : bool :=
  match v with
  | VNull => false
  | VInt z => negb (z =? 0)%Z
  | VReal q => negb (Qeq_bool q 0)
  | VText s => negb (s =? "")%string
  end.

(** ** Schema *)

Inductive default_clause : Type :=
| DfltNone
| DfltLit (sql : string) (v : value)   (* the literal as written, and its value *)
| DfltCurrentTimestamp.

Record column : Type := Column {
  c_name : string;
  c_type : string;
  c_notnull : bool;
  c_unique : bool;
  c_pk : bool;            (* INTEGER PRIMARY KEY AUTOINCREMENT *)
  c_default : default_clause
}.

Inductive cmp_op : Type := OpEq | OpLe | OpGe.

(** Boolean expressions of WHERE clauses and CHECK constraints: a column
    compared with a literal or a bound parameter, AND, OR. *)
Inductive cond : Type :=
| CTrue
| CCmp (col : string) (op : cmp_op) (v : value)
| CAnd (a b : cond)
| COr (a b : cond).

Record row : Type := Row {
  rowid : Z;
  fields : gmap string value
}.

Record table : Type := Table {
  t_cols : list column;
  t_checks : list cond;
  t_fks : list (string * string);   (* declared, never enforced *)
  t_rows : list row;
  t_seq : Z
}.

Abbreviation db := (gmap string table).

(** ** Exceptions *)

Inductive exn : Type :=
| OperationalError (msg : string)
| IntegrityError (msg : string)
| OverflowError
| ValueError
| TypeError
| KeyError (key : string).

Abbreviation result A := (exn + A)%type.

(** ** Reading rows *)

Definition find_col (cols : list column) (n : string) : option column :=
  find (fun c => (c_name c =? n)%string) cols.

Definition has_col (cols : list column) (n : string) : bool :=
  match find_col cols n with
  | Some _ => true
  | None => false
  end.

Definition static_default (c : column) : value :=
  match c_default c with
  | DfltLit _ v => v
  | _ => VNull
  end.

(** A column a row has no entry for was added by ALTER TABLE after the row
    was written and reads as its default. *)
Definition read_col (cols : list column) (r : row) (n : string) : value :=
  match find_col cols n with
  | Some c => if c_pk c then VInt (rowid r)
              else default (static_default c) (fields r !! n)
  | None => VNull
  end.

Definition cmp_holds (op : cmp_op) (c : comparison) : bool :=
  match op, c with
  | OpEq, Eq => true
  | OpLe, (Lt | Eq) => true
  | OpGe, (Gt | Eq) => true
  | _, _ => false
  end.

(** Three-valued comparison: NULL on either side gives NULL ([None]). *)
Definition sql_cmp (op : cmp_op) (a b : value) : option bool :=
  match a, b with
  | VNull, _ => None
  | _, VNull => None
  | _, _ => Some (cmp_holds op (value_compare a b))
  end.

Definition and3 (a b : option bool) : option bool :=
  match a, b with
  | Some false, _ => Some false
  | _, Some false => Some false
  | Some true, Some true => Some true
  | _, _ => None
  end.

Definition or3 (a b : option bool) : option bool :=
  match a, b with
  | Some true, _ => Some true
  | _, Some true => Some true
  | Some false, Some false => Some false
  | _, _ => None
  end.

Fixpoint eval_cond (cols : list column) (r : row) (c : cond) : option bool :=
  match c with
  | CTrue => Some true
  | CCmp col op v => sql_cmp op (read_col cols r col) v
  | CAnd a b => and3 (eval_cond cols r a) (eval_cond cols r b)
  | COr a b => or3 (eval_cond cols r a) (eval_cond cols r b)
  end.

(** WHERE keeps a row only when the condition is true. *)
Definition matches (cols : list column) (c : cond) (r : row) : bool :=
  match eval_cond cols r c with
  | Some true => true
  | _ => false
  end.

(** CHECK rejects a row only when the condition is false. *)
Definition check_ok (cols : list column) (r : row) (c : cond) : bool :=
  match eval_cond cols r c with
  | Some false => false
  | _ => true
  end.

Fixpoint cond_cols (c : cond) : list string :=
  match c with
  | CTrue => []
  | CCmp col _ _ => [col]
  | CAnd a b => cond_cols a ++ cond_cols b
  | COr a b => cond_cols a ++ cond_cols b
  end.

Definition cols_exist (cols : list column) (ns : list string) : bool :=
  forallb (has_col cols) ns.

(** ** Time

    An instant is the number of microseconds since 0001-01-01T00:00:00, the
    first value of Python's naive [datetime]; [dt_max] is
    9999-12-31T23:59:59.999999.  The text forms are the library's business:
    [isoformat] and [fromisoformat] of [datetime], and the text SQLite
    substitutes for CURRENT_TIMESTAMP, are the operations of a codec the
    accessors are parametrised by. *)

Inductive parsed : Type :=
| Naive (t : Z)
| Aware (t : Z) (utcoffset : Z)
| Invalid.                          (* fromisoformat raises ValueError *)

Class TimeCodec : Type := {
  isoformat : Z -> string;
  fromisoformat : string -> parsed;
  current_timestamp : Z -> string
}.

Definition dt_max : Z := 3652059 * 86400 * 1000000 - 1.

(** [dt + timedelta(seconds=n)] *)
Definition add_seconds (dt n : Z) : result Z :=
  let r := dt + n * 1000000 in
  if (0 <=? r) && (r <=? dt_max) then inr r else inl OverflowError.

(** ** Statements *)

Inductive stmt : Type :=
| CreateTableIfNotExists (name : string) (cols : list column)
    (checks : list cond) (fks : list (string * string))
| AlterTableAddColumn (name : string) (col : column)
| PragmaTableInfo (name : string)
| InsertInto (name : string) (cols : list string) (vals : list value)
| SelectFrom (cols : list string) (name : string) (where_ : cond)
    (order_by_desc : option string) (limit : option value)
| UpdateSet (name : string) (sets : list (string * value)) (where_ : cond)
| DeleteFrom (name : string) (where_ : cond).

(** What Python sees of an executed statement. *)
Record cursor : Type := Cursor {
  description : list string;
  fetched : list (list value);
  lastrowid : Z;
  rowcount : Z
}.

#[global] Instance result_ret : MRet (sum exn) := fun A x => inr x.
#[global] Instance result_bind : MBind (sum exn) :=
  fun A B f m => match m with inl e => inl e | inr x => f x end.

Definition lookup_table (d : db) (n : string) : result table :=
  match d !! n with
  | Some t => inr t
  | None => inl (OperationalError ("no such table: " ++ n))
  end.

Definition require (b : bool) (e : exn) : result unit :=
  if b then inr tt else inl e.

Definition not_null (v : value) : bool :=
  match v with VNull => false | _ => true end.

Definition sql_eqb (a b : value) : bool :=
  match sql_cmp OpEq a b with Some true => true | _ => false end.

Definition max_rowid (rows : list row) : Z :=
  foldr (fun r m => Z.max (rowid r) m) 0 rows.

(** AUTOINCREMENT: one more than the largest rowid the table ever had. *)
Definition next_rowid (t : table) : Z :=
  Z.max (max_rowid (t_rows t)) (t_seq t) + 1.

Definition render_default (c : column) : value :=
  match c_default c with
  | DfltNone => VNull
  | DfltLit sql _ => VText sql
  | DfltCurrentTimestamp => VText "CURRENT_TIMESTAMP"
  end.

Definition bool_value (b : bool) : value := VInt (if b then 1 else 0).

Fixpoint table_info (cid : Z) (cols : list column) : list (list value) :=
  match cols with
  | [] => []
  | c :: cs =>
      [VInt cid; VText (c_name c); VText (c_type c); bool_value (c_notnull c);
       render_default c; bool_value (c_pk c)] :: table_info (cid + 1) cs
  end.

(** ORDER BY col DESC as a stable insertion sort: rows with equal keys stay
    in scan order. *)
Fixpoint insert_desc (key : row -> value) (r : row) (l : list row) : list row :=
  match l with
  | [] => [r]
  | x :: xs =>
      match value_compare (key x) (key r) with
      | Gt => x :: insert_desc key r xs
      | _ => r :: x :: xs
      end
  end.

Definition sort_desc (key : row -> value) (l : list row) : list row :=
  foldr (insert_desc key) [] l.

(** LIMIT n: a negative n is no limit; a value that is not an integer is a
    datatype mismatch. *)
Definition apply_limit (limit : option value) (l : list row) : result (list row) :=
  match limit with
  | None => inr l
  | Some (VInt n) => inr (if n <? 0 then l else firstn (Z.to_nat n) l)
  | Some (VReal q) =>
      if Qeq_bool q (inject_Z (Qfloor q))
      then inr (if Qfloor q <? 0 then l else firstn (Z.to_nat (Qfloor q)) l)
      else inl (IntegrityError "datatype mismatch")
  | Some _ => inl (IntegrityError "datatype mismatch")
  end.

(** ** Executing a statement on a database *)

Section Engine.
Context `{TimeCodec}.

(** The value an INSERT stores in column [c]: the one given for it, else the
    column's default. *)
Definition supplied (now : Z) (given : gmap string value) (c : column) : value :=
  match given !! c_name c with
  | Some v => v
  | None =>
      match c_default c with
      | DfltNone => VNull
      | DfltLit _ v => v
      | DfltCurrentTimestamp => VText (current_timestamp now)
      end
  end.

Definition plain_cols (cols : list column) : list column :=
  List.filter (fun c => negb (c_pk c)) cols.

Definition pk_given (cols : list column) (given : gmap string value) : option value :=
  match find c_pk cols with
  | Some c => given !! c_name c
  | None => None
  end.

Definition unique_ok (cols : list column) (rows : list row) (c : column) (v : value) : bool :=
  negb (c_unique c)
  || forallb (fun r => negb (sql_eqb (read_col cols r (c_name c)) v)) rows.

Definition sql_insert (now : Z) (t : table) (names : list string) (vals : list value)
  : result (table * Z) :=
  _ ← require (Nat.eqb (length names) (length vals))
        (OperationalError "values do not match the column list");
  _ ← require (cols_exist (t_cols t) names)
        (OperationalError "table has no such column");
  let given : gmap string value := list_to_map (zip names vals) in
  id ← match pk_given (t_cols t) given with
       | None | Some VNull => inr (next_rowid t)
       | Some (VInt z) =>
           if existsb (fun r => rowid r =? z) (t_rows t)
           then inl (IntegrityError "UNIQUE constraint failed")
           else inr z
       | Some _ => inl (IntegrityError "datatype mismatch")
       end;
  let plain := plain_cols (t_cols t) in
  let r := Row id (list_to_map (map (fun c => (c_name c, supplied now given c)) plain)) in
  _ ← require (forallb (fun c => negb (c_notnull c) || not_null (supplied now given c)) plain)
        (IntegrityError "NOT NULL constraint failed");
  _ ← require (forallb (check_ok (t_cols t) r) (t_checks t))
        (IntegrityError "CHECK constraint failed");
  _ ← require (forallb (fun c => unique_ok (t_cols t) (t_rows t) c (supplied now given c)) plain)
        (IntegrityError "UNIQUE constraint failed");
  inr (Table (t_cols t) (t_checks t) (t_fks t) (t_rows t ++ [r]) (Z.max (t_seq t) id), id).

Definition set_col (cols : list column) (r : row) (nv : string * value) : row :=
  match find_col cols nv.1 with
  | Some c =>
      if c_pk c
      then match nv.2 with VInt z => Row z (fields r) | _ => r end
      else Row (rowid r) (<[nv.1 := nv.2]> (fields r))
  | None => r
  end.

Definition assign (cols : list column) (sets : list (string * value)) (r : row) : row :=
  fold_left (set_col cols) sets r.

(** The constraints an UPDATE checks are those of the columns it assigns. *)
Definition set_ok (cols : list column) (rows' : list row) (nv : string * value) : bool :=
  match find_col cols nv.1 with
  | Some c =>
      if c_pk c
      then match nv.2 with
           | VInt z => Nat.leb (length (List.filter (fun r => rowid r =? z) rows')) 1
           | _ => false
           end
      else (negb (c_notnull c) || not_null nv.2)
           && (negb (c_unique c) || negb (not_null nv.2)
               || Nat.leb (length (List.filter
                             (fun r => sql_eqb (read_col cols r nv.1) nv.2) rows')) 1)
  | None => true
  end.

Definition check_touched (sets : list (string * value)) (ck : cond) : bool :=
  existsb (fun n => existsb (fun nv => (nv.1 =? n)%string) sets) (cond_cols ck).

Definition sql_update (t : table) (sets : list (string * value)) (w : cond)
  : result (table * Z) :=
  _ ← require (cols_exist (t_cols t) (map fst sets ++ cond_cols w))
        (OperationalError "no such column");
  let hit := matches (t_cols t) w in
  let changed := List.filter hit (t_rows t) in
  match changed with
  | [] => inr (t, 0)
  | _ :: _ =>
      let rows' := map (fun r => if hit r then assign (t_cols t) sets r else r) (t_rows t) in
      _ ← require (forallb (set_ok (t_cols t) rows') sets)
            (IntegrityError "constraint failed");
      _ ← require (forallb (fun r => forallb (fun ck =>
                      negb (check_touched sets ck)
                      || check_ok (t_cols t) (assign (t_cols t) sets r) ck) (t_checks t)) changed)
            (IntegrityError "CHECK constraint failed");
      inr (Table (t_cols t) (t_checks t) (t_fks t) rows' (t_seq t),
           Z.of_nat (length changed))
  end.

Definition sql_delete (t : table) (w : cond) : result (table * Z) :=
  _ ← require (cols_exist (t_cols t) (cond_cols w))
        (OperationalError "no such column");
  let hit := matches (t_cols t) w in
  inr (Table (t_cols t) (t_checks t) (t_fks t)
         (List.filter (fun r => negb (hit r)) (t_rows t)) (t_seq t),
       Z.of_nat (length (List.filter hit (t_rows t)))).

Definition order_cols (o : option string) : list string :=
  match o with Some c => [c] | None => [] end.

Definition sql_select (t : table) (names : list string) (w : cond)
    (order : option string) (limit : option value) : result cursor :=
  _ ← require (cols_exist (t_cols t) (names ++ cond_cols w ++ order_cols order))
        (OperationalError "no such column");
  let hits := List.filter (matches (t_cols t) w) (t_rows t) in
  let sorted := match order with
                | Some o => sort_desc (fun r => read_col (t_cols t) r o) hits
                | None => hits
                end in
  rows ← apply_limit limit sorted;
  inr (Cursor names (map (fun r => map (read_col (t_cols t) r) names) rows) 0 (-1)).

(** ALTER TABLE ADD COLUMN: the column is appended to the declaration and
    the stored rows are not rewritten. *)
Definition sql_add_column (t : table) (c : column) : result table :=
  _ ← require (negb (has_col (t_cols t) (c_name c)))
        (OperationalError "duplicate column name");
  _ ← require (negb (c_pk c || c_unique c))
        (OperationalError "Cannot add a PRIMARY KEY or UNIQUE column");
  _ ← require (match c_default c with DfltCurrentTimestamp => false | _ => true end)
        (OperationalError "Cannot add a column with non-constant default");
  _ ← require (negb (c_notnull c) || not_null (static_default c))
        (OperationalError "Cannot add a NOT NULL column with default value NULL");
  inr (Table (t_cols t ++ [c]) (t_checks t) (t_fks t) (t_rows t) (t_seq t)).

Definition pragma_description : list string :=
  ["cid"; "name"; "type"; "notnull"; "dflt_value"; "pk"].

Definition no_rows : cursor := Cursor [] [] 0 (-1).

Definition exec_stmt (now : Z) (s : stmt) (d : db) : result (db * cursor) :=
  match s with
  | CreateTableIfNotExists n cols checks fks =>
      inr (match d !! n with
           | Some _ => d
           | None => <[n := Table cols checks fks [] 0]> d
           end, no_rows)
  | AlterTableAddColumn n c =>
      t ← lookup_table d n;
      t' ← sql_add_column t c;
      inr (<[n := t']> d, no_rows)
  | PragmaTableInfo n =>
      inr (d, Cursor pragma_description
                (match d !! n with Some t => table_info 0 (t_cols t) | None => [] end)
                0 (-1))
  | InsertInto n names vals =>
      t ← lookup_table d n;
      r ← sql_insert now t names vals;
      inr (<[n := r.1]> d, Cursor [] [] r.2 1)
  | SelectFrom names n w order limit =>
      t ← lookup_table d n;
      cur ← sql_select t names w order limit;
      inr (d, cur)
  | UpdateSet n sets w =>
      t ← lookup_table d n;
      r ← sql_update t sets w;
      inr (<[n := r.1]> d, Cursor [] [] 0 r.2)
  | DeleteFrom n w =>
      t ← lookup_table d n;
      r ← sql_delete t w;
      inr (<[n := r.1]> d, Cursor [] [] 0 r.2)
  end.

End Engine.

(** ** Connections

    What an accessor cannot see in its arguments is ambient: the clock and
    the operating system's random source. *)

Record ambient : Type := Ambient {
  clock : Z;               (* what datetime.utcnow() returns *)
  urandom : string         (* what secrets.token_hex(24) returns *)
}.

Record conn : Type := Conn {
  disk : db;               (* the committed file *)
  txn : option db          (* the working copy of the open transaction *)
}.

(** Computations that read the ambient values, use a connection and may
    raise; the connection's state survives a raise, for the handler of a
    [try] that continues with it. *)
Definition M (A : Type) : Type := ambient -> conn -> conn * result A.

#[global] Instance M_ret : MRet M := fun A x _ c => (c, inr x).
#[global] Instance M_bind : MBind M :=
  fun A B f m a c =>
    match m a c with
    | (c', inl e) => (c', inl e)
    | (c', inr x) => f x a c'
    end.

Definition raise {A : Type} (e : exn) : M A := fun _ c => (c, inl e).

Definition lift {A : Type} (r : result A) : M A := fun _ c => (c, r).

(** [try: body except e: handler e] *)
Definition try_except {A : Type} (body : M A) (handler : exn -> M A) : M A :=
  fun a c =>
    match body a c with
    | (c', inl e) => handler e a c'
    | r => r
    end.

Fixpoint mapM {A B : Type} (f : A -> M B) (l : list A) : M (list B) :=
  match l with
  | [] => mret []
  | x :: xs => y ← f x; ys ← mapM f xs; mret (y :: ys)
  end.

(** [for x in l: body x] *)
Fixpoint for_each {A : Type} (l : list A) (body : A -> M unit) : M unit :=
  match l with
  | [] => mret tt
  | x :: xs => _ ← body x; for_each xs body
  end.

Definition utcnow : M Z := fun a c => (c, inr (clock a)).
Definition token_hex : M string := fun a c => (c, inr (urandom a)).

Definition working (c : conn) : db :=
  match txn c with
  | Some d => d
  | None => disk c
  end.

Inductive stmt_kind : Type := Query | DML | DDL.

Definition kind_of (s : stmt) : stmt_kind :=
  match s with
  | CreateTableIfNotExists _ _ _ _ | AlterTableAddColumn _ _ => DDL
  | InsertInto _ _ _ | UpdateSet _ _ _ | DeleteFrom _ _ => DML
  | PragmaTableInfo _ | SelectFrom _ _ _ _ _ => Query
  end.

Section Accessors.
Context `{TimeCodec}.

(** [cur.execute(sql, params)].  A statement that fails changes nothing.  A
    data-changing statement opens the transaction if none is open; a schema
    statement outside a transaction is durable at once. *)
Definition execute (s : stmt) : M cursor :=
  fun a c =>
    match exec_stmt (clock a) s (working c) with
    | inl e => (c, inl e)
    | inr (d', cur) =>
        (match kind_of s with
         | Query => c
         | DML => Conn (disk c) (Some d')
         | DDL => match txn c with
                  | None => Conn d' None
                  | Some _ => Conn (disk c) (Some d')
                  end
         end, inr cur)
    end.

Definition commit : M unit := fun _ c => (Conn (working c) None, inr tt).

(** Closing rolls back what was not committed. *)
Definition close : M unit := fun _ c => (Conn (disk c) None, inr tt).

Definition _row_factory (cur : cursor) (r : list value) : gmap string value :=
  fold_left (fun d cv => <[cv.1 := cv.2]> d) (zip (description cur) r) ∅.

(** [sqlite3.connect(db_path)] with the row factory installed: a new
    connection on the file, no transaction open. *)
Definition get_connection : M unit := fun _ c => (Conn (disk c) None, inr tt).

Definition fetchall (cur : cursor) : list (gmap string value) :=
  map (_row_factory cur) (fetched cur).

Definition fetchone (cur : cursor) : option (gmap string value) :=
  head (fetchall cur).

(** [d[k]] *)
Definition getitem (d : gmap string value) (k : string) : M value :=
  match d !! k with
  | Some v => mret v
  | None => raise (KeyError k)
  end.

(** A whole accessor call on the file [d]: what is on disk afterwards, and
    what the call returned or raised. *)
Definition run {A : Type} (m : M A) (a : ambient) (d : db) : db * result A :=
  let r := m a (Conn d None) in (disk r.1, r.2).

(** Python [==] on fetched values. *)
Definition py_eqb (a b : value) : bool :=
  match a, b with
  | VNull, VNull => true
  | VNull, _ | _, VNull => false
  | _, _ => match value_compare a b with Eq => true | _ => false end
  end.

Definition _columns_for_table (table : string) : M (list value) :=
  cur ← execute (PragmaTableInfo table);
  mapM (fun r => getitem r "name") (fetchall cur).

(** *** Schema manager *)

Definition col (name type : string) : column :=
  Column name type false false false DfltNone.

Definition id_col : column := Column "id" "INTEGER" false false true DfltNone.

Definition created_at_col : column :=
  Column "created_at" "DATETIME" false false false DfltCurrentTimestamp.

Definition not_null_col (name type : string) : column :=
  Column name type true false false DfltNone.

Definition users_cols : list column :=
  [ id_col;
    Column "email" "TEXT" true true false DfltNone;
    not_null_col "password_hash" "TEXT";
    Column "role" "TEXT" true false false (DfltLit "'candidate'" (VText "candidate"));
    Column "is_banned" "INTEGER" true false false (DfltLit "0" (VInt 0));
    col "banned_until" "TEXT";
    created_at_col ].

Definition jobs_cols : list column :=
  [ id_col;
    not_null_col "employer_id" "INTEGER";
    not_null_col "title" "TEXT";
    not_null_col "description" "TEXT";
    col "location_text" "TEXT";
    col "lat" "REAL";
    col "lng" "REAL";
    col "salary" "TEXT";
    col "tags" "TEXT";
    created_at_col ].

Definition applications_cols : list column :=
  [ id_col;
    not_null_col "job_id" "INTEGER";
    not_null_col "user_id" "INTEGER";
    col "cover_letter" "TEXT";
    col "resume_text" "TEXT";
    created_at_col ].

Definition ratings_cols : list column :=
  [ id_col;
    not_null_col "target_type" "TEXT";
    not_null_col "target_id" "INTEGER";
    not_null_col "rater_id" "INTEGER";
    not_null_col "rating" "INTEGER";
    col "comment" "TEXT";
    created_at_col ].

(** CHECK (rating >= 1 AND rating <= 5) *)
Definition ratings_checks : list cond :=
  [ CAnd (CCmp "rating" OpGe (VInt 1)) (CCmp "rating" OpLe (VInt 5)) ].

Definition tokens_cols : list column :=
  [ id_col;
    Column "token" "TEXT" true true false DfltNone;
    not_null_col "email" "TEXT";
    not_null_col "purpose" "TEXT";
    col "expires_at" "DATETIME";
    created_at_col ].

(** The declaration inside [create_token], where [expires_at] is
    TEXT NOT NULL. *)
Definition tokens_cols_inline : list column :=
  [ id_col;
    Column "token" "TEXT" true true false DfltNone;
    not_null_col "email" "TEXT";
    not_null_col "purpose" "TEXT";
    not_null_col "expires_at" "TEXT";
    created_at_col ].

Definition _ensure_table (create_sql : stmt) : M unit :=
  _ ← execute create_sql;
  commit.

(** [column_def] is the parsed column definition; its first word, which the
    source takes with [split()[0]], is the column's name. *)
Definition _add_column_if_missing (table : string) (column_def : column) : M bool :=
  let col_name := c_name column_def in
  existing ← _columns_for_table table;
  if negb (existsb (py_eqb (VText col_name)) existing) then
    _ ← execute (AlterTableAddColumn table column_def);
    _ ← commit;
    mret true
  else mret false.

(** The directory of the file is the file system's business and is not
    modelled; the message printed in the handler is not either. *)
Definition init_db : M unit :=
  _ ← get_connection;
  _ ← _ensure_table (CreateTableIfNotExists "users" users_cols [] []);
  _ ← _ensure_table (CreateTableIfNotExists "jobs" jobs_cols []
                       [("employer_id", "users")]);
  _ ← _ensure_table (CreateTableIfNotExists "applications" applications_cols []
                       [("job_id", "jobs"); ("user_id", "users")]);
  _ ← _ensure_table (CreateTableIfNotExists "ratings" ratings_cols ratings_checks
                       [("rater_id", "users")]);
  _ ← _ensure_table (CreateTableIfNotExists "tokens" tokens_cols [] []);
  _ ← try_except
        (_ ← _add_column_if_missing "applications" (col "cover_letter_path" "TEXT");
         _ ← _add_column_if_missing "applications" (col "resume_path" "TEXT");
         mret tt)
        (fun e => match e with
                  | OperationalError _ => mret tt
                  | _ => raise e
                  end);
  close.

(** *** Users *)

Definition opt_text (o : option string) : value :=
  match o with Some s => VText s | None => VNull end.

Definition user_fields : list string :=
  ["id"; "email"; "role"; "is_banned"; "banned_until"; "created_at";
   "username"; "first_name"; "last_name"; "verified"].

Definition get_user_by_id (id : Z) : M (option (gmap string value)) :=
  _ ← get_connection;
  cur ← execute (SelectFrom user_fields "users" (CCmp "id" OpEq (VInt id)) None None);
  let row := fetchone cur in
  _ ← close;
  mret row.

Definition create_user (email password_hash role : string)
    (username first_name last_name : option string) (verified : Z)
  : M (option (gmap string value)) :=
  _ ← get_connection;
  now ← utcnow;
  cur ← execute (InsertInto "users"
           ["email"; "password_hash"; "role"; "username"; "first_name";
            "last_name"; "verified"; "created_at"]
           [VText email; VText password_hash; VText role; opt_text username;
            opt_text first_name; opt_text last_name; VInt verified;
            VText (isoformat now)]);
  _ ← commit;
  let user_id := lastrowid cur in
  _ ← close;
  get_user_by_id user_id.

Definition get_user_by_email (email : string) : M (option (gmap string value)) :=
  _ ← get_connection;
  cur ← execute (SelectFrom
           ["id"; "email"; "password_hash"; "role"; "is_banned"; "banned_until";
            "created_at"; "username"; "first_name"; "last_name"; "verified"]
           "users" (CCmp "email" OpEq (VText email)) None None);
  let row := fetchone cur in
  _ ← close;
  mret row.

Definition set_user_verified (email : string) : M bool :=
  _ ← get_connection;
  cur ← execute (UpdateSet "users" [("verified", VInt 1)]
                   (CCmp "email" OpEq (VText email)));
  _ ← commit;
  let updated := rowcount cur in
  _ ← close;
  mret (0 <? updated).

Definition update_user_password (email password_hash : string) : M bool :=
  _ ← get_connection;
  cur ← execute (UpdateSet "users" [("password_hash", VText password_hash)]
                   (CCmp "email" OpEq (VText email)));
  _ ← commit;
  let updated := rowcount cur in
  _ ← close;
  mret (0 <? updated).

Definition set_user_ban (user_id : Z) (banned_until_iso : option string) : M bool :=
  _ ← get_connection;
  _ ← (if truthy (opt_text banned_until_iso) then
         execute (UpdateSet "users"
                    [("is_banned", VInt 1); ("banned_until", opt_text banned_until_iso)]
                    (CCmp "id" OpEq (VInt user_id)))
       else
         execute (UpdateSet "users" [("is_banned", VInt 1); ("banned_until", VNull)]
                    (CCmp "id" OpEq (VInt user_id))));
  _ ← commit;
  _ ← close;
  mret true.

Definition unset_user_ban (user_id : Z) : M bool :=
  _ ← get_connection;
  _ ← execute (UpdateSet "users" [("is_banned", VInt 0); ("banned_until", VNull)]
                 (CCmp "id" OpEq (VInt user_id)));
  _ ← commit;
  _ ← close;
  mret true.

Definition delete_user (user_id : Z) : M bool :=
  _ ← get_connection;
  _ ← execute (DeleteFrom "applications" (CCmp "user_id" OpEq (VInt user_id)));
  _ ← execute (DeleteFrom "ratings"
                 (COr (CCmp "rater_id" OpEq (VInt user_id))
                      (CAnd (CCmp "target_type" OpEq (VText "user"))
                            (CCmp "target_id" OpEq (VInt user_id)))));
  cur ← execute (SelectFrom ["id"] "jobs" (CCmp "employer_id" OpEq (VInt user_id))
                   None None);
  job_ids ← mapM (fun r => getitem r "id") (fetchall cur);
  _ ← for_each job_ids (fun jid =>
         _ ← execute (DeleteFrom "applications" (CCmp "job_id" OpEq jid));
         _ ← execute (DeleteFrom "ratings"
                        (CAnd (CCmp "target_type" OpEq (VText "job"))
                              (CCmp "target_id" OpEq jid)));
         mret tt);
  _ ← execute (DeleteFrom "jobs" (CCmp "employer_id" OpEq (VInt user_id)));
  _ ← execute (DeleteFrom "users" (CCmp "id" OpEq (VInt user_id)));
  _ ← commit;
  _ ← close;
  mret true.

(** *** Tokens *)

Definition create_token (email purpose : string) (expires_seconds : Z) : M string :=
  _ ← get_connection;
  token ← token_hex;
  now ← utcnow;
  expires ← lift (add_seconds now expires_seconds);
  let expires_at := isoformat expires in
  _ ← execute (CreateTableIfNotExists "tokens" tokens_cols_inline [] []);
  _ ← execute (InsertInto "tokens" ["token"; "email"; "purpose"; "expires_at"]
                 [VText token; VText email; VText purpose; VText expires_at]);
  _ ← commit;
  _ ← close;
  mret token.

(** [datetime.fromisoformat(x)]: a TypeError for what is not a string, a
    ValueError for a string that is not a timestamp. *)
Definition py_fromisoformat (x : value) : M parsed :=
  match x with
  | VText s =>
      match fromisoformat s with
      | Invalid => raise ValueError
      | p => mret p
      end
  | _ => raise TypeError
  end.

(** [exp_dt < now] for a naive [now]: comparing it with an aware datetime is
    a TypeError. *)
Definition dt_lt (exp_dt : parsed) (now : Z) : M bool :=
  match exp_dt with
  | Naive t => mret (t <? now)
  | Aware _ _ => raise TypeError
  | Invalid => raise ValueError
  end.

Definition token_where (token purpose : string) : cond :=
  CAnd (CCmp "token" OpEq (VText token)) (CCmp "purpose" OpEq (VText purpose)).

(** The result is the Python value returned: [VNull] is [None].  The body of
    the [try] yields [Some v] where the source returns [v] from inside it. *)
Definition consume_token (token purpose : string) : M value :=
  _ ← get_connection;
  cur ← execute (SelectFrom ["email"; "expires_at"] "tokens"
                   (token_where token purpose) None None);
  match fetchone cur with
  | None =>
      _ ← close;
      mret VNull
  | Some row =>
      email ← getitem row "email";
      let expires_at := default VNull (row !! "expires_at") in
      returned ← try_except
        (if truthy expires_at then
           exp_dt ← py_fromisoformat expires_at;
           now ← utcnow;
           expired ← dt_lt exp_dt now;
           if (expired : bool) then
             _ ← execute (DeleteFrom "tokens" (CCmp "token" OpEq (VText token)));
             _ ← commit;
             _ ← close;
             mret (Some VNull)
           else mret None
         else mret None)
        (fun _ =>
           _ ← execute (DeleteFrom "tokens" (CCmp "token" OpEq (VText token)));
           _ ← commit;
           _ ← close;
           mret (Some VNull));
      match returned with
      | Some v => mret v
      | None =>
          _ ← execute (DeleteFrom "tokens" (CCmp "token" OpEq (VText token)));
          _ ← commit;
          _ ← close;
          mret email
      end
  end.

Definition get_token_info (token purpose : string) : M (option (gmap string value)) :=
  _ ← get_connection;
  cur ← execute (SelectFrom ["token"; "email"; "purpose"; "expires_at"; "created_at"]
                   "tokens" (token_where token purpose) None None);
  let row := fetchone cur in
  _ ← close;
  match row with
  | None => mret None
  | Some r =>
      let expires_at := default VNull (r !! "expires_at") in
      returned ← try_except
        (if truthy expires_at then
           exp_dt ← py_fromisoformat expires_at;
           now ← utcnow;
           expired ← dt_lt exp_dt now;
           if (expired : bool) then mret (Some None) else mret None
         else mret None)
        (fun _ => mret (Some None));
      match returned with
      | Some v => mret v
      | None => mret row
      end
  end.

Definition purge_expired_tokens : M unit :=
  _ ← get_connection;
  t ← utcnow;
  let now := isoformat t in
  _ ← execute (DeleteFrom "tokens" (CCmp "expires_at" OpLe (VText now)));
  _ ← commit;
  close.

(** *** Jobs *)

Definition job_fields : list string :=
  ["id"; "employer_id"; "title"; "description"; "location_text"; "lat"; "lng";
   "salary"; "tags"; "created_at"].

Definition opt_real (o : option Q) : value :=
  match o with Some q => VReal q | None => VNull end.

Definition get_job_by_id (job_id : Z) : M (option (gmap string value)) :=
  _ ← get_connection;
  cur ← execute (SelectFrom job_fields "jobs" (CCmp "id" OpEq (VInt job_id)) None None);
  let row := fetchone cur in
  _ ← close;
  mret row.

Definition create_job (employer_id : Z) (title description : string)
    (location_text : option string) (lat lng : option Q) (salary : string)
    (tags : option string) : M (option (gmap string value)) :=
  _ ← get_connection;
  now ← utcnow;
  cur ← execute (InsertInto "jobs"
           ["employer_id"; "title"; "description"; "location_text"; "lat"; "lng";
            "salary"; "tags"; "created_at"]
           [VInt employer_id; VText title; VText description; opt_text location_text;
            opt_real lat; opt_real lng; VText salary; opt_text tags;
            VText (isoformat now)]);
  _ ← commit;
  let job_id := lastrowid cur in
  _ ← close;
  get_job_by_id job_id.

(** [if x is not None: fields.append(name + " = ?"); params.append(x)]: the
    two lists of the source grow together and are kept here as one list of
    pairs. *)
Definition append_field {A : Type} (name : string) (inj : A -> value) (x : option A)
    (fields : list (string * value)) : list (string * value) :=
  match x with
  | Some v => fields ++ [(name, inj v)]
  | None => fields
  end.

Definition update_job (job_id : Z) (title description location_text : option string)
    (lat lng : option Q) (salary tags : option string)
  : M (option (gmap string value)) :=
  _ ← get_connection;
  let fields := [] in
  let fields := append_field "title" VText title fields in
  let fields := append_field "description" VText description fields in
  let fields := append_field "location_text" VText location_text fields in
  let fields := append_field "lat" VReal lat fields in
  let fields := append_field "lng" VReal lng fields in
  let fields := append_field "salary" VText salary fields in
  let fields := append_field "tags" VText tags fields in
  match fields with
  | [] =>
      _ ← close;
      get_job_by_id job_id
  | _ :: _ =>
      _ ← execute (UpdateSet "jobs" fields (CCmp "id" OpEq (VInt job_id)));
      _ ← commit;
      _ ← close;
      get_job_by_id job_id
  end.

Definition delete_job (job_id : Z) : M bool :=
  _ ← get_connection;
  _ ← execute (DeleteFrom "applications" (CCmp "job_id" OpEq (VInt job_id)));
  _ ← execute (DeleteFrom "ratings"
                 (CAnd (CCmp "target_type" OpEq (VText "job"))
                       (CCmp "target_id" OpEq (VInt job_id))));
  _ ← execute (DeleteFrom "jobs" (CCmp "id" OpEq (VInt job_id)));
  _ ← commit;
  _ ← close;
  mret true.

Definition opt_int (o : option Z) : value :=
  match o with Some z => VInt z | None => VNull end.

Definition get_jobs (limit : option Z) : M (list (gmap string value)) :=
  _ ← get_connection;
  cur ← (if truthy (opt_int limit) then
           execute (SelectFrom job_fields "jobs" CTrue (Some "created_at")
                      (Some (opt_int limit)))
         else
           execute (SelectFrom job_fields "jobs" CTrue (Some "created_at") None));
  let rows := fetchall cur in
  _ ← close;
  mret rows.

(** *** Applications *)

Definition create_application (job_id user_id : Z) (cover_letter resume_text : string)
    (cover_letter_path resume_path : option string) : M (gmap string value) :=
  _ ← get_connection;
  now ← utcnow;
  cur ← execute (InsertInto "applications"
           ["job_id"; "user_id"; "cover_letter"; "resume_text"; "cover_letter_path";
            "resume_path"; "created_at"]
           [VInt job_id; VInt user_id; VText cover_letter; VText resume_text;
            opt_text cover_letter_path; opt_text resume_path; VText (isoformat now)]);
  _ ← commit;
  let app_id := lastrowid cur in
  _ ← close;
  mret (<["resume_path" := opt_text resume_path]>
        (<["cover_letter_path" := opt_text cover_letter_path]>
        (<["user_id" := VInt user_id]>
        (<["job_id" := VInt job_id]>
        (<["id" := VInt app_id]> ∅))))).

(** *** Ratings *)

Definition create_rating (target_type : string) (target_id rater_id rating : Z)
    (comment : string) : M (gmap string value) :=
  _ ← get_connection;
  now ← utcnow;
  cur ← execute (InsertInto "ratings"
           ["target_type"; "target_id"; "rater_id"; "rating"; "comment"; "created_at"]
           [VText target_type; VInt target_id; VInt rater_id; VInt rating;
            VText comment; VText (isoformat now)]);
  _ ← commit;
  let rid := lastrowid cur in
  _ ← close;
  mret (<["rating" := VInt rating]>
        (<["rater_id" := VInt rater_id]>
        (<["target_id" := VInt target_id]>
        (<["target_type" := VText target_type]>
        (<["id" := VInt rid]> ∅))))).

End Accessors.

(** ** A reference codec

    The layouts [datetime.isoformat] writes for a naive datetime,
    [YYYY-MM-DDTHH:MM:SS] with [.ffffff] appended when the microsecond is not
    zero, read back by a parser of exactly these layouts (any character may
    separate date and time); CURRENT_TIMESTAMP in SQLite's
    [YYYY-MM-DD HH:MM:SS].  The calendar follows [_ord2ymd] and [_ymd2ord] of
    the [datetime] module. *)

Module RefCodec.

Definition us_per_day : Z := 86400 * 1000000.

Definition is_leap (y : Z) : bool :=
  (y mod 4 =? 0) && (negb (y mod 100 =? 0) || (y mod 400 =? 0)).

Definition days_before_month (leap : bool) (m : Z) : Z :=
  nth (Z.to_nat m) [0; 0; 31; 59; 90; 120; 151; 181; 212; 243; 273; 304; 334] 0
  + (if (2 <? m) && leap then 1 else 0).

Definition days_in_month (leap : bool) (m : Z) : Z :=
  nth (Z.to_nat m) [0; 31; 28; 31; 30; 31; 30; 31; 31; 30; 31; 30; 31] 0
  + (if (m =? 2) && leap then 1 else 0).

Definition days_before_year (y : Z) : Z :=
  let p := y - 1 in p * 365 + p / 4 - p / 100 + p / 400.

(** Day number, counted from 0 at 0001-01-01, to year, month, day. *)
Definition ord2ymd (n0 : Z) : Z * Z * Z :=
  let n400 := n0 / 146097 in
  let n := n0 mod 146097 in
  let n100 := n / 36524 in
  let n := n mod 36524 in
  let n4 := n / 1461 in
  let n := n mod 1461 in
  let n1 := n / 365 in
  let n := n mod 365 in
  let year := n400 * 400 + 1 + n100 * 100 + n4 * 4 + n1 in
  if (n1 =? 4) || (n100 =? 4) then (year - 1, 12, 31)
  else
    let leap := (n1 =? 3) && (negb (n4 =? 24) || (n100 =? 3)) in
    let month := (n + 50) / 32 in
    let preceding := days_before_month leap month in
    if n <? preceding
    then (year, month - 1, n - (preceding - days_in_month leap (month - 1)) + 1)
    else (year, month, n - preceding + 1).

Definition ymd2ord (y m d : Z) : Z :=
  days_before_year y + days_before_month (is_leap y) m + d - 1.

Definition digit (d : Z) : ascii := ascii_of_nat (48 + Z.to_nat d).

Fixpoint digits (width : nat) (n : Z) (acc : string) : string :=
  match width with
  | O => acc
  | S w => digits w (n / 10) (String (digit (n mod 10)) acc)
  end.

Definition date_text (t : Z) : string :=
  let '(y, m, d) := ord2ymd (t / us_per_day) in
  digits 4 y ("-" ++ digits 2 m ("-" ++ digits 2 d ""))%string.

Definition time_text (t : Z) : string :=
  let s := (t mod us_per_day) / 1000000 in
  digits 2 (s / 3600) (":" ++ digits 2 (s / 60 mod 60) (":" ++ digits 2 (s mod 60) ""))%string.

Definition ref_isoformat (t : Z) : string :=
  let us := t mod 1000000 in
  let fraction := if us =? 0 then "" else ("." ++ digits 6 us "")%string in
  (date_text t ++ "T" ++ time_text t ++ fraction)%string.

Definition ref_current_timestamp (t : Z) : string :=
  (date_text t ++ " " ++ time_text t)%string.

Definition digit_val (c : ascii) : option Z :=
  let n := Z.of_nat (nat_of_ascii c) in
  if (48 <=? n) && (n <=? 57) then Some (n - 48) else None.

Fixpoint number (l : list ascii) (acc : Z) : option Z :=
  match l with
  | [] => Some acc
  | c :: cs =>
      match digit_val c with
      | Some d => number cs (acc * 10 + d)
      | None => None
      end
  end.

Definition field (l : list ascii) (start len : nat) : option Z :=
  number (firstn len (skipn start l)) 0.

Definition char_is (l : list ascii) (i : nat) (c : ascii) : bool :=
  match nth_error l i with
  | Some x => Ascii.eqb x c
  | None => false
  end.

Definition ref_parse (l : list ascii) : option Z :=
  y ← field l 0 4;
  m ← field l 5 2;
  d ← field l 8 2;
  hh ← field l 11 2;
  mi ← field l 14 2;
  ss ← field l 17 2;
  us ← (if Nat.eqb (length l) 26 then field l 20 6 else Some 0);
  if (Nat.eqb (length l) 19 || (Nat.eqb (length l) 26 && char_is l 19 "."))
     && char_is l 4 "-" && char_is l 7 "-" && char_is l 13 ":" && char_is l 16 ":"
     && (1 <=? y) && (y <=? 9999) && (1 <=? m) && (m <=? 12)
     && (1 <=? d) && (d <=? days_in_month (is_leap y) m)
     && (hh <? 24) && (mi <? 60) && (ss <? 60)
  then Some (ymd2ord y m d * us_per_day + ((hh * 60 + mi) * 60 + ss) * 1000000 + us)
  else None.

Definition ref_fromisoformat (s : string) : parsed :=
  match ref_parse (list_ascii_of_string s) with
  | Some t => Naive t
  | None => Invalid
  end.

#[export] Instance codec : TimeCodec := {|
  isoformat := ref_isoformat;
  fromisoformat := ref_fromisoformat;
  current_timestamp := ref_current_timestamp
|}.

End RefCodec.

(** ** The effect of a statement on a table *)

(** DELETE FROM t WHERE w *)
Definition delete_where (t : table) (w : cond) : table :=
  Table (t_cols t) (t_checks t) (t_fks t)
    (List.filter (fun r => negb (matches (t_cols t) w r)) (t_rows t)) (t_seq t).

(** UPDATE t SET sets WHERE w *)
Definition update_where `{TimeCodec} (t : table) (sets : list (string * value)) (w : cond)
  : table :=
  Table (t_cols t) (t_checks t) (t_fks t)
    (map (fun r => if matches (t_cols t) w r then assign (t_cols t) sets r else r)
       (t_rows t))
    (t_seq t).

(** An assignment to a column that is neither the key nor UNIQUE, and that
    is not NULL where the column is NOT NULL, violates nothing. *)
Definition set_plain (cols : list column) (nv : string * value) : bool :=
  match find_col cols nv.1 with
  | Some c => negb (c_pk c) && negb (c_unique c) && (negb (c_notnull c) || not_null nv.2)
  | None => true
  end.

(** The rows a SELECT without LIMIT visits, in order. *)
Definition visited (t : table) (w : cond) (order : option string) : list row :=
  let hits := List.filter (matches (t_cols t) w) (t_rows t) in
  match order with
  | Some o => sort_desc (fun r => read_col (t_cols t) r o) hits
  | None => hits
  end.

(** The dictionary the row factory builds for row [r] under a SELECT of the
    columns [names]. *)
Definition as_dict `{TimeCodec} (cols : list column) (names : list string) (r : row)
  : gmap string value :=
  _row_factory (Cursor names [] 0 0) (map (read_col cols r) names).

(** ** What a cascade removes *)

(** The table without the rows [p] holds of. *)
Definition remove_rows (t : table) (p : row -> bool) : table :=
  Table (t_cols t) (t_checks t) (t_fks t)
    (List.filter (fun r => negb (p r)) (t_rows t)) (t_seq t).

Definition col_is (t : table) (c : string) (v : value) (r : row) : bool :=
  sql_eqb (read_col (t_cols t) r c) v.

(** The ids of the jobs whose employer is [uid]. *)
Definition jobs_of (tj : table) (uid : Z) : list value :=
  map (fun r => read_col (t_cols tj) r "id")
    (List.filter (col_is tj "employer_id" (VInt uid)) (t_rows tj)).

(** An application refers to the user, or to one of the jobs [jids]. *)
Definition application_refers (ta : table) (uid : Z) (jids : list value) (r : row) : bool :=
  col_is ta "user_id" (VInt uid) r
  || existsb (fun jid => col_is ta "job_id" jid r) jids.

(** A rating is authored by the user, targets the user, or targets one of
    the jobs [jids]. *)
Definition rating_refers (tr : table) (uid : Z) (jids : list value) (r : row) : bool :=
  col_is tr "rater_id" (VInt uid) r
  || (col_is tr "target_type" (VText "user") r && col_is tr "target_id" (VInt uid) r)
  || existsb (fun jid => col_is tr "target_type" (VText "job") r
                         && col_is tr "target_id" jid r) jids.

(** The body of the loop of [delete_user]. *)
Definition cascade_body `{TimeCodec} (jid : value) : M unit :=
  _ ← execute (DeleteFrom "applications" (CCmp "job_id" OpEq jid));
  _ ← execute (DeleteFrom "ratings"
                 (CAnd (CCmp "target_type" OpEq (VText "job"))
                       (CCmp "target_id" OpEq jid)));
  mret tt.

(** ** The profile columns of users *)

(** Modelled from the spec: the declarations of the columns [username],
    [first_name], [last_name] and [verified] of users, which the accessors
    read and write and [init_db] does not create. *)
Definition profile_cols : list column :=
  [ col "username" "TEXT"; col "first_name" "TEXT"; col "last_name" "TEXT";
    Column "verified" "INTEGER" false false false (DfltLit "0" (VInt 0)) ].

(** ** A sample database

    An employer (user 1) with two jobs, a candidate (user 2) who applied to
    both and rated both and the employer, and a third job of somebody else
    with its own application and rating. *)

Module Sample.

Definition user_row (id : Z) (email role username : string) : row :=
  Row id (list_to_map
    [ ("email", VText email); ("password_hash", VText "pbkdf2:sha256:1f0e");
      ("role", VText role); ("is_banned", VInt 0); ("banned_until", VNull);
      ("created_at", VText "2026-10-01T08:00:00"); ("username", VText username);
      ("first_name", VNull); ("last_name", VNull); ("verified", VInt 0) ]).

Definition users : table :=
  Table (users_cols ++ profile_cols) [] []
    [ user_row 1 "boss@example.com" "employer" "boss";
      user_row 2 "cand@example.com" "candidate" "cand" ] 2.

Definition job_row (id employer : Z) (title : string) : row :=
  Row id (list_to_map
    [ ("employer_id", VInt employer); ("title", VText title);
      ("description", VText "Full time"); ("location_text", VText "Leeds");
      ("lat", VReal (535 # 10)); ("lng", VReal (-15 # 10)); ("salary", VText "40k");
      ("tags", VNull); ("created_at", VText "2026-10-02T09:00:00") ]).

Definition jobs : table :=
  Table jobs_cols [] [("employer_id", "users")]
    [ job_row 1 1 "Baker"; job_row 2 1 "Barista"; job_row 3 7 "Driver" ] 3.

Definition application_row (id job user : Z) : row :=
  Row id (list_to_map
    [ ("job_id", VInt job); ("user_id", VInt user); ("cover_letter", VText "Dear");
      ("resume_text", VText "CV"); ("created_at", VText "2026-10-03T10:00:00");
      ("cover_letter_path", VNull); ("resume_path", VNull) ]).

Definition applications : table :=
  Table (applications_cols
         ++ [col "cover_letter_path" "TEXT"; col "resume_path" "TEXT"])
    [] [("job_id", "jobs"); ("user_id", "users")]
    [ application_row 1 1 2; application_row 2 2 2; application_row 3 3 2 ] 3.

Definition rating_row (id : Z) (target_type : string) (target rater stars : Z) : row :=
  Row id (list_to_map
    [ ("target_type", VText target_type); ("target_id", VInt target);
      ("rater_id", VInt rater); ("rating", VInt stars); ("comment", VText "");
      ("created_at", VText "2026-10-04T11:00:00") ]).

Definition ratings : table :=
  Table ratings_cols ratings_checks [("rater_id", "users")]
    [ rating_row 1 "job" 1 2 4; rating_row 2 "job" 2 2 5; rating_row 3 "user" 1 2 3;
      rating_row 4 "job" 3 2 2 ] 4.

Definition tokens : table := Table tokens_cols [] [] [] 0.

Definition data : db :=
  list_to_map
    [ ("users", users); ("jobs", jobs); ("applications", applications);
      ("ratings", ratings); ("tokens", tokens) ].

(** A draw of [secrets.token_hex(24)]. *)
Definition draw : string := "9f2c4e6a8b0d1f3a5c7e9b1d3f5a7c9e0b2d4f6a8c0e1a3b".

(** 2026-11-04T09:30:00, and half an hour later. *)
Definition noon : ambient := Ambient 63929381400000000 draw.

Definition later : ambient :=
  Ambient 63929383200000000 "c41d7a0e93b2586f1d0a7c4e9b3f62a8d5e1f07b4c9a2e6d".

Definition token_row (id : Z) (token purpose expires_at : string) : row :=
  Row id (list_to_map
    [ ("token", VText token); ("email", VText "cand@example.com");
      ("purpose", VText purpose); ("expires_at", VText expires_at);
      ("created_at", VText "2026-11-04 09:00:00") ]).

(** Two rows no accessor of this module wrote: an empty expiry, and an
    expiry that is not a date. *)
Definition blank_token : row := token_row 1 "0a1b" "reset" "".

Definition garbled_token : row := token_row 2 "2c3d" "verify" "next tuesday".

Definition stale_tokens : table :=
  Table tokens_cols [] [] [blank_token; garbled_token] 2.

Definition stale : db := <["tokens" := stale_tokens]> data.

End Sample.

(** ** Rows an INSERT writes *)

(** The table with one more row. *)
Definition add_row (t : table) (r : row) : table :=
  Table (t_cols t) (t_checks t) (t_fks t) (t_rows t ++ [r]) (Z.max (t_seq t) (rowid r)).

(** The fields [create_rating] stores. *)
Definition rating_fields `{TimeCodec} (now : Z) (target_type : string)
    (target_id rater_id rating : Z) (comment : string) : gmap string value :=
  list_to_map
    [ ("target_type", VText target_type); ("target_id", VInt target_id);
      ("rater_id", VInt rater_id); ("rating", VInt rating); ("comment", VText comment);
      ("created_at", VText (isoformat now)) ].

(** ** What initialisation does to a database *)

(** CREATE TABLE IF NOT EXISTS *)
Definition ensure (n : string) (t : table) (d : db) : db :=
  match d !! n with
  | Some _ => d
  | None => <[n := t]> d
  end.

(** ALTER TABLE n ADD COLUMN c, unless the table has the column *)
Definition with_column (n : string) (c : column) (d : db) : db :=
  match d !! n with
  | Some t =>
      if has_col (t_cols t) (c_name c) then d
      else <[n := Table (t_cols t ++ [c]) (t_checks t) (t_fks t) (t_rows t) (t_seq t)]> d
  | None => d
  end.

Definition new_table (cols : list column) (checks : list cond) (fks : list (string * string))
  : table := Table cols checks fks [] 0.

(** The database [init_db] leaves. *)
Definition init_db_result `{TimeCodec} (d : db) : db :=
  with_column "applications" (col "resume_path" "TEXT")
    (with_column "applications" (col "cover_letter_path" "TEXT")
       (ensure "tokens" (new_table tokens_cols [] [])
          (ensure "ratings" (new_table ratings_cols ratings_checks [("rater_id", "users")])
             (ensure "applications"
                (new_table applications_cols [] [("job_id", "jobs"); ("user_id", "users")])
                (ensure "jobs" (new_table jobs_cols [] [("employer_id", "users")])
                   (ensure "users" (new_table users_cols [] []) d)))))).

(** ** Sparse updates *)

(** The value [update_job] is given for the column [name]: the argument of
    that name when it is not [None]. *)
Definition job_arg (title description location_text : option string) (lat lng : option Q)
    (salary tags : option string) (name : string) : option value :=
  if (name =? "title")%string then VText <$> title
  else if (name =? "description")%string then VText <$> description
  else if (name =? "location_text")%string then VText <$> location_text
  else if (name =? "lat")%string then VReal <$> lat
  else if (name =? "lng")%string then VReal <$> lng
  else if (name =? "salary")%string then VText <$> salary
  else if (name =? "tags")%string then VText <$> tags
  else None.

(** [r'] is [r] with the columns [arg] gives a value rewritten to it and
    every other column as it was. *)
Definition patched (arg : string -> option value) (r r' : row) : Prop :=
  rowid r' = rowid r
  /\ forall name, fields r' !! name
                  = match arg name with
                    | Some v => Some v
                    | None => fields r !! name
                    end.

(** The assignments [update_job] builds from its arguments. *)
Definition update_job_fields (title description location_text : option string)
    (lat lng : option Q) (salary tags : option string) : list (string * value) :=
  append_field "tags" VText tags
    (append_field "salary" VText salary
       (append_field "lng" VReal lng
          (append_field "lat" VReal lat
             (append_field "location_text" VText location_text
                (append_field "description" VText description
                   (append_field "title" VText title [])))))).

(** The last value a list of assignments gives a column. *)
Fixpoint last_set (name : string) (sets : list (string * value)) : option value :=
  match sets with
  | [] => None
  | nv :: rest =>
      match last_set name rest with
      | Some v => Some v
      | None => if (nv.1 =? name)%string then Some nv.2 else None
      end
  end.

Definition plain_name (cols : list column) (n : string) : bool :=
  match find_col cols n with
  | Some c => negb (c_pk c)
  | None => false
  end.

(** ** Tokens: what the accessors decide on *)

(** Whether a stored expiry lets a token through at the instant [now]: a
    falsy value is no expiry at all; a string is read as a timestamp and must
    be a naive one that is not in the past; anything else does not. *)
Definition still_valid `{TimeCodec} (now : Z) (expires_at : value) : bool :=
  if truthy expires_at then
    match expires_at with
    | VText s =>
        match fromisoformat s with
        | Naive t => negb (t <? now)
        | _ => false
        end
    | _ => false
    end
  else true.

(** The two declarations of the tokens table, of [init_db] and of
    [create_token]. *)
Definition token_schema (cols : list column) : Prop :=
  cols = tokens_cols \/ cols = tokens_cols_inline.

(** The fields [create_token] stores. *)
Definition token_fields `{TimeCodec} (now : Z) (token email purpose : string) (expires : Z)
  : gmap string value :=
  list_to_map
    [ ("token", VText token); ("email", VText email); ("purpose", VText purpose);
      ("expires_at", VText (isoformat expires));
      ("created_at", VText (current_timestamp now)) ].

(** No stored row has the token. *)
Definition unused_token (t : table) (token : string) : Prop :=
  Forall (fun r => col_is t "token" (VText token) r = false) (t_rows t).

(** The table [create_token] writes to: the one in the file, or the one its
    own CREATE TABLE makes. *)
Definition tokens_of (d : db) : table :=
  default (new_table tokens_cols_inline [] []) (d !! "tokens").

(** The tokens table after a token was created and consumed: the rows it
    had, and the counter one further. *)
Definition used_up (t : table) : table :=
  Table (t_cols t) (t_checks t) (t_fks t) (t_rows t) (Z.max (t_seq t) (next_rowid t)).

(** A run of later [consume_token] calls with the same token, each at its
    own instant and with its own purpose. *)
Fixpoint consume_all `{TimeCodec} (token : string) (calls : list (ambient * string))
    (d : db) : db * list (result value) :=
  match calls with
  | [] => (d, [])
  | call :: rest =>
      let r := run (consume_token token call.2) call.1 d in
      let rs := consume_all token rest r.1 in
      (rs.1, r.2 :: rs.2)
  end.

(** A stored expiry that reads as a naive timestamp. *)
Definition is_timestamp `{TimeCodec} (expires_at : value) : bool :=
  match expires_at with
  | VText s =>
      match fromisoformat s with
      | Naive _ => true
      | _ => false
      end
  | _ => false
  end.

(** ** Users: what [create_user] writes *)

(** The fields [create_user] stores. *)
Definition user_fields_stored `{TimeCodec} (now : Z) (email password_hash role : string)
    (username first_name last_name : option string) (verified : Z) : gmap string value :=
  list_to_map
    [ ("email", VText email); ("password_hash", VText password_hash);
      ("role", VText role); ("is_banned", VInt 0); ("banned_until", VNull);
      ("created_at", VText (isoformat now)); ("username", opt_text username);
      ("first_name", opt_text first_name); ("last_name", opt_text last_name);
      ("verified", VInt verified) ].

(** No stored user has the email. *)
Definition unused_email (t : table) (email : string) : Prop :=
  Forall (fun r => col_is t "email" (VText email) r = false) (t_rows t).

(** ** Statements that read more than the rows of one table

    Three SELECT statements of the module are not of the shape [SelectFrom]:
    the look-up of a name in the schema table, the two joins with users, and
    the aggregate over ratings. *)

Inductive side : Type := FromLeft | FromRight.

(** A result column [t.col AS name] of a join: the table it is read from,
    the column, and the name it has in the result. *)
Record out_col : Type := OutCol {
  o_side : side;
  o_col : string;
  o_name : string
}.

Inductive query : Type :=
| SelectMasterTable (name : string)
    (* SELECT name FROM sqlite_master WHERE type='table' AND name = ? *)
| SelectJoin (outs : list out_col) (left right : string) (on_right on_left : string)
    (where_ : cond) (order_by_desc : string)
    (* SELECT outs FROM left a JOIN right u ON u.on_right = a.on_left
       WHERE where_ ORDER BY a.order_by_desc DESC, where_ being on a *)
| SelectAvgCount (col avg_as count_as : string) (name : string) (where_ : cond).
    (* SELECT AVG(col) AS avg_as, COUNT of the rows AS count_as
       FROM name WHERE where_ *)

(** The arithmetic of AVG is SQLite's: the floating-point number its
    accumulator arrives at for the values that are not NULL, of which there
    is at least one. *)
Class Accumulator : Type := {
  mean : list value -> Q
}.

(** AVG is NULL when no value is summed. *)
Definition sql_avg `{Accumulator} (vs : list value) : value :=
  match List.filter not_null vs with
  | [] => VNull
  | v :: rest => VReal (mean (v :: rest))
  end.

Definition autoincrement (t : table) : bool := existsb c_pk (t_cols t).

(** The names [sqlite_master] lists with type 'table': the tables of the
    file, and [sqlite_sequence], which SQLite creates with the first table
    that has an AUTOINCREMENT key. *)
Definition master_has (d : db) (n : string) : bool :=
  match d !! n with
  | Some _ => true
  | None => (n =? "sqlite_sequence")%string
            && existsb (fun nt => autoincrement nt.2) (map_to_list d)
  end.

Definition same_side (s s' : side) : bool :=
  match s, s' with
  | FromLeft, FromLeft | FromRight, FromRight => true
  | _, _ => false
  end.

Definition side_cols (s : side) (outs : list out_col) : list string :=
  map o_col (List.filter (fun o => same_side (o_side o) s) outs).

(** The rows of the right table that the ON condition pairs with [l]. *)
Definition partners (tl tr : table) (on_right on_left : string) (l : row) : list row :=
  List.filter (fun r => sql_eqb (read_col (t_cols tr) r on_right)
                                (read_col (t_cols tl) l on_left)) (t_rows tr).

Definition read_out (tl tr : table) (p : row * row) (o : out_col) : value :=
  match o_side o with
  | FromLeft => read_col (t_cols tl) p.1 (o_col o)
  | FromRight => read_col (t_cols tr) p.2 (o_col o)
  end.

(** The join as SQLite runs it here: the left table is scanned, each of its
    rows that passes WHERE is paired with its partners, and the pairs are
    sorted by the left row's key.  The sort being stable, this is the list of
    the left rows in the order a SELECT on the left table alone would visit
    them, each with its partners. *)
Definition join_pairs (tl tr : table) (on_right on_left : string) (w : cond)
    (order : string) : list (row * row) :=
  flat_map (fun l => map (pair l) (partners tl tr on_right on_left l))
    (let hits := List.filter (matches (t_cols tl) w) (t_rows tl) in
     sort_desc (fun r => read_col (t_cols tl) r order) hits).

Definition sql_join (tl tr : table) (outs : list out_col) (on_right on_left : string)
    (w : cond) (order : string) : result cursor :=
  _ ← require (cols_exist (t_cols tl)
                 (side_cols FromLeft outs ++ on_left :: cond_cols w ++ [order])
               && cols_exist (t_cols tr) (side_cols FromRight outs ++ [on_right]))
        (OperationalError "no such column");
  inr (Cursor (map o_name outs)
         (map (fun p => map (read_out tl tr p) outs)
            (join_pairs tl tr on_right on_left w order))
         0 (-1)).

(** An aggregate without GROUP BY has one result row, whatever WHERE lets
    through. *)
Definition sql_avg_count `{Accumulator} (t : table) (col avg_as count_as : string)
    (w : cond) : result cursor :=
  _ ← require (cols_exist (t_cols t) (col :: cond_cols w))
        (OperationalError "no such column");
  let hits := List.filter (matches (t_cols t) w) (t_rows t) in
  inr (Cursor [avg_as; count_as]
         [[sql_avg (map (fun r => read_col (t_cols t) r col) hits);
           VInt (Z.of_nat (length hits))]]
         0 (-1)).

Definition exec_query `{Accumulator} (q : query) (d : db) : result cursor :=
  match q with
  | SelectMasterTable n =>
      inr (Cursor ["name"] (if master_has d n then [[VText n]] else []) 0 (-1))
  | SelectJoin outs ln rn on_right on_left w order =>
      tl ← lookup_table d ln;
      tr ← lookup_table d rn;
      sql_join tl tr outs on_right on_left w order
  | SelectAvgCount col avg_as count_as n w =>
      t ← lookup_table d n;
      sql_avg_count t col avg_as count_as w
  end.

(** [cur.execute(sql, params)] for these statements: they read and change
    nothing. *)
Definition execute_query `{Accumulator} (q : query) : M cursor :=
  fun _ c => (c, exec_query q (working c)).

(** ** The accessors that list, look up and count *)

Section Readers.
Context `{TimeCodec} `{Accumulator}.

Definition _table_exists (table : string) : M bool :=
  cur ← execute_query (SelectMasterTable table);
  mret (match fetchone cur with Some _ => true | None => false end).

Definition get_user_by_username (username : option string)
  : M (option (gmap string value)) :=
  _ ← get_connection;
  cur ← execute (SelectFrom user_fields "users"
                   (CCmp "username" OpEq (opt_text username)) None None);
  let row := fetchone cur in
  _ ← close;
  mret row.

Definition get_all_users : M (list (gmap string value)) :=
  _ ← get_connection;
  cur ← execute (SelectFrom user_fields "users" CTrue (Some "created_at") None);
  let rows := fetchall cur in
  _ ← close;
  mret rows.

Definition get_jobs_by_employer (employer_id : Z) : M (list (gmap string value)) :=
  _ ← get_connection;
  cur ← execute (SelectFrom job_fields "jobs" (CCmp "employer_id" OpEq (VInt employer_id))
                   (Some "created_at") None);
  let rows := fetchall cur in
  _ ← close;
  mret rows.

Definition application_fields : list string :=
  ["id"; "job_id"; "user_id"; "cover_letter"; "resume_text"; "cover_letter_path";
   "resume_path"; "created_at"].

Definition get_applications_by_job (job_id : Z) : M (list (gmap string value)) :=
  _ ← get_connection;
  cur ← execute_query (SelectJoin
           (map (fun n => OutCol FromLeft n n) application_fields
            ++ [OutCol FromRight "email" "applicant_email"])
           "applications" "users" "id" "user_id"
           (CCmp "job_id" OpEq (VInt job_id)) "created_at");
  let rows := fetchall cur in
  _ ← close;
  mret rows.

Definition get_applications_by_user (user_id : Z) : M (list (gmap string value)) :=
  _ ← get_connection;
  cur ← execute (SelectFrom application_fields "applications"
                   (CCmp "user_id" OpEq (VInt user_id)) (Some "created_at") None);
  let rows := fetchall cur in
  _ ← close;
  mret rows.

Definition rating_columns : list string :=
  ["id"; "target_type"; "target_id"; "rater_id"; "rating"; "comment"; "created_at"].

Definition target_where (target_type : string) (target_id : Z) : cond :=
  CAnd (CCmp "target_type" OpEq (VText target_type))
       (CCmp "target_id" OpEq (VInt target_id)).

Definition get_ratings_for_target (target_type : string) (target_id : Z)
  : M (list (gmap string value)) :=
  _ ← get_connection;
  cur ← execute_query (SelectJoin
           (map (fun n => OutCol FromLeft n n) rating_columns
            ++ [OutCol FromRight "email" "rater_email"])
           "ratings" "users" "id" "rater_id"
           (target_where target_type target_id) "created_at");
  let rows := fetchall cur in
  _ ← close;
  mret rows.

(** [row.get(k)] *)
Definition dict_get (d : gmap string value) (k : string) : value :=
  default VNull (d !! k).

Definition get_average_rating_for_target (target_type : string) (target_id : Z)
  : M (gmap string value) :=
  _ ← get_connection;
  cur ← execute_query (SelectAvgCount "rating" "avg_rating" "count" "ratings"
                         (target_where target_type target_id));
  let row := fetchone cur in
  _ ← close;
  match row with
  | Some r =>
      if bool_decide (r = ∅)
      then mret (<["count" := VInt 0]> (<["avg" := VNull]> ∅))
      else mret (<["count" := dict_get r "count"]>
                 (<["avg" := dict_get r "avg_rating"]> ∅))
  | None => mret (<["count" := VInt 0]> (<["avg" := VNull]> ∅))
  end.

Definition get_rating_by_id (rating_id : Z) : M (option (gmap string value)) :=
  _ ← get_connection;
  cur ← execute (SelectFrom rating_columns "ratings" (CCmp "id" OpEq (VInt rating_id))
                   None None);
  let row := fetchone cur in
  _ ← close;
  mret row.

Definition delete_rating (rating_id : Z) : M bool :=
  _ ← get_connection;
  _ ← execute (DeleteFrom "ratings" (CCmp "id" OpEq (VInt rating_id)));
  _ ← commit;
  _ ← close;
  mret true.

End Readers.

(** ** What the listings promise *)

(** No value is followed by a larger one: the order of ORDER BY ... DESC. *)
Fixpoint descending (l : list value) : Prop :=
  match l with
  | a :: rest =>
      match rest with
      | b :: _ => value_compare a b <> Lt
      | [] => True
      end /\ descending rest
  | [] => True
  end.

(** The place of a storage class in the sort order: NULL, then the numbers,
    then text. *)
Definition rank (v : value) : nat :=
  match v with VNull => 0 | VInt _ | VReal _ => 1 | VText _ => 2 end%nat.

(** The rational a number is compared as. *)
Definition as_Q (v : value) : Q :=
  match v with VInt z => inject_Z z | VReal q => q | _ => 0%Q end.

(** The column [k] of each dictionary of a listing. *)
Definition column_of (k : string) (rows : list (gmap string value)) : list value :=
  map (fun row => dict_get row k) rows.

(** ** Users: what the look-up by email selects, and what a ban stores *)

Definition email_fields : list string :=
  ["id"; "email"; "password_hash"; "role"; "is_banned"; "banned_until";
   "created_at"; "username"; "first_name"; "last_name"; "verified"].

(** What [set_user_ban] stores as the end of the ban: the string given, or
    NULL when it is [None] or empty. *)
Definition ban_until (banned_until_iso : option string) : value :=
  if truthy (opt_text banned_until_iso) then opt_text banned_until_iso else VNull.

(** ** Jobs and applications: what the accessors write *)

(** The fields [create_job] stores. *)
Definition job_fields_stored `{TimeCodec} (now employer_id : Z) (title description : string)
    (location_text : option string) (lat lng : option Q) (salary : string)
    (tags : option string) : gmap string value :=
  list_to_map
    [ ("employer_id", VInt employer_id); ("title", VText title);
      ("description", VText description); ("location_text", opt_text location_text);
      ("lat", opt_real lat); ("lng", opt_real lng); ("salary", VText salary);
      ("tags", opt_text tags); ("created_at", VText (isoformat now)) ].

(** The applications table once [init_db] has added the two path columns. *)
Definition applications_cols_now : list column :=
  (applications_cols ++ [col "cover_letter_path" "TEXT"; col "resume_path" "TEXT"])%list.

(** The fields [create_application] stores. *)
Definition application_fields_stored `{TimeCodec} (now job_id user_id : Z)
    (cover_letter resume_text : string) (cover_letter_path resume_path : option string)
  : gmap string value :=
  list_to_map
    [ ("job_id", VInt job_id); ("user_id", VInt user_id);
      ("cover_letter", VText cover_letter); ("resume_text", VText resume_text);
      ("created_at", VText (isoformat now));
      ("cover_letter_path", opt_text cover_letter_path);
      ("resume_path", opt_text resume_path) ].

(** ** Joined rows *)

(** The dictionary of a pair of a join that selects the columns [names] of
    the left row and the column [c] of the right row under the name [k]. *)
Definition joined `{TimeCodec} (tl tr : table) (names : list string) (c k : string)
    (p : row * row) : gmap string value :=
  <[k := read_col (t_cols tr) p.2 c]> (as_dict (t_cols tl) names p.1).

(** The result columns of such a join. *)
Definition join_outs (names : list string) (c k : string) : list out_col :=
  (map (fun n => OutCol FromLeft n n) names ++ [OutCol FromRight c k])%list.

(** ** A reference accumulator

    The mean as SQLite computes it for integers whose sum is below 2^53 in
    absolute value, which is what the module stores in [rating]: the sum,
    divided by the count in double precision. *)

Module RefArith.

(** What a value counts for in a sum; text that is not a number counts for
    zero. *)
Definition number (v : value) : Q :=
  match v with
  | VInt z => inject_Z z
  | VReal q => q
  | _ => 0%Q
  end.

(** The double nearest to [p / q], ties to even, for a quotient in the
    normal range: with [e] such that [2^52 <= p / (q * 2^e) < 2^53], the
    integer nearest to [p / (q * 2^e)], times [2^e]. *)
Definition nearest_double_pos (p q : positive) : Q :=
  let k := Z.log2 (Z.pos p) - Z.log2 (Z.pos q) in
  let ge := if 0 <=? k then Z.pos q * 2 ^ k <=? Z.pos p
            else Z.pos q <=? Z.pos p * 2 ^ (- k) in
  let e := (if ge then k else k - 1) - 52 in
  let n := if 0 <=? e then Z.pos p else Z.pos p * 2 ^ (- e) in
  let d := if 0 <=? e then Z.pos q * 2 ^ e else Z.pos q in
  let m := n / d in
  let r := n mod d in
  let m' := if (d <? 2 * r) || ((d =? 2 * r) && Z.odd m) then m + 1 else m in
  Qred (if 0 <=? e then inject_Z (m' * 2 ^ e) else m' # Z.to_pos (2 ^ (- e))).

Definition nearest_double (x : Q) : Q :=
  match Qnum x with
  | Z0 => 0%Q
  | Z.pos p => nearest_double_pos p (Qden x)
  | Z.neg p => Qopp (nearest_double_pos p (Qden x))
  end.

Definition ref_mean (vs : list value) : Q :=
  nearest_double (fold_right Qplus 0%Q (map number vs) / inject_Z (Z.of_nat (length vs))).

#[export] Instance accumulator : Accumulator := {| mean := ref_mean |}.

End RefArith.

(** ** More sample data *)

Module Cases.

(** An applications table from before the two path columns were added. *)
Definition legacy_row (id job user : Z) : row :=
  Row id (list_to_map
    [ ("job_id", VInt job); ("user_id", VInt user); ("cover_letter", VText "Dear");
      ("resume_text", VText "CV"); ("created_at", VText "2025-05-01T10:00:00") ]).

Definition legacy_applications : table :=
  Table applications_cols [] [("job_id", "jobs"); ("user_id", "users")]
    [ legacy_row 1 1 2; legacy_row 2 3 5 ] 2.

Definition legacy : db := <["applications" := legacy_applications]> Sample.data.

(** Three ratings of job 1, the last by a rater who is no user. *)
Definition rated_ratings : table :=
  Table ratings_cols ratings_checks [("rater_id", "users")]
    [ Sample.rating_row 1 "job" 1 2 4; Sample.rating_row 2 "job" 1 1 5;
      Sample.rating_row 3 "job" 1 99 5 ] 3.

Definition rated : db := <["ratings" := rated_ratings]> Sample.data.

(** A third user, who has no username. *)
Definition unnamed_user : row :=
  Row 3 (<["username" := VNull]>
           (fields (Sample.user_row 3 "anon@example.com" "candidate" ""))).

Definition unnamed_users : table :=
  Table (users_cols ++ profile_cols) [] []
    [ Sample.user_row 1 "boss@example.com" "employer" "boss";
      Sample.user_row 2 "cand@example.com" "candidate" "cand"; unnamed_user ] 3.

Definition unnamed : db := <["users" := unnamed_users]> Sample.data.

(** Three tokens: one that expired half an hour before 09:30, one that
    expires at 09:30, one that expires an hour after. *)
Definition due_tokens : table :=
  Table tokens_cols [] []
    [ Sample.token_row 1 "aa11" "reset" "2026-11-04T09:00:00";
      Sample.token_row 2 "bb22" "verify" "2026-11-04T09:30:00";
      Sample.token_row 3 "cc33" "reset" "2026-11-04T10:30:00" ] 3.

Definition due : db := <["tokens" := due_tokens]> Sample.data.

End Cases.

(** * Properties *)

Example ref_isoformat_2024 :
  RefCodec.ref_isoformat 63844806896000789 = "2024-02-29T12:34:56.000789"
  /\ RefCodec.ref_isoformat 315537897599999999 = "9999-12-31T23:59:59.999999"
  /\ RefCodec.ref_isoformat 59931705600000000 = "1900-03-01T00:00:00"
  /\ RefCodec.ref_isoformat 0 = "0001-01-01T00:00:00"
  /\ RefCodec.ref_isoformat 63113903999000000 = "2000-12-31T23:59:59".
Proof. vm_compute. repeat split. Qed.

Example ref_fromisoformat_2024 :
  RefCodec.ref_fromisoformat "2024-02-29T12:34:56.000789" = Naive 63844806896000789
  /\ RefCodec.ref_fromisoformat "9999-12-31T23:59:59.999999" = Naive 315537897599999999
  /\ RefCodec.ref_fromisoformat "2026-11-04 09:30:00" = Naive 63929381400000000
  /\ RefCodec.ref_fromisoformat "2023-02-29T00:00:00" = Invalid
  /\ RefCodec.ref_fromisoformat "" = Invalid
  /\ RefCodec.ref_fromisoformat "tomorrow" = Invalid.
Proof. vm_compute. repeat split. Qed.

(** ** Stepping through an accessor *)

Section Steps.
Context `{TimeCodec}.

Lemma bind_ok {A B : Type} (m : M A) (f : A -> M B) a c c' x :
  m a c = (c', inr x) -> (m ≫= f) a c = f x a c'.
Proof. intros Hm. unfold mbind, M_bind. now rewrite Hm. Qed.


Lemma matches_and cols x y r :
  matches cols (CAnd x y) r = matches cols x r && matches cols y r.
Proof.
  unfold matches. simpl.
  destruct (eval_cond cols r x) as [[]|], (eval_cond cols r y) as [[]|]; reflexivity.
Qed.

Lemma matches_or cols x y r :
  matches cols (COr x y) r = matches cols x r || matches cols y r.
Proof.
  unfold matches. simpl.
  destruct (eval_cond cols r x) as [[]|], (eval_cond cols r y) as [[]|]; reflexivity.
Qed.

Lemma matches_eq cols c v r :
  matches cols (CCmp c OpEq v) r = sql_eqb (read_col cols r c) v.
Proof. reflexivity. Qed.

Lemma cols_exist_app cols l1 l2 :
  cols_exist cols (l1 ++ l2) = cols_exist cols l1 && cols_exist cols l2.
Proof. apply forallb_app. Qed.

Lemma forallb_const_true {A : Type} (l : list A) : forallb (fun _ => true) l = true.
Proof. induction l; auto. Qed.

Lemma filter_none_map {A : Type} (p : A -> bool) (g : A -> A) (l : list A) :
  List.filter p l = [] -> map (fun x => if p x then g x else x) l = l.
Proof.
  induction l as [|x l IH]; simpl; [reflexivity|].
  destruct (p x); [discriminate|]. intros E. now rewrite IH.
Qed.

Lemma positive_count {A : Type} (p : A -> bool) (l : list A) :
  (0 <? Z.of_nat (length (List.filter p l))) = existsb p l.
Proof.
  induction l as [|x l IH]; simpl; [reflexivity|].
  destruct (p x); simpl; [|exact IH].
  apply Z.ltb_lt. lia.
Qed.

Lemma execute_delete a c n t w :
  working c !! n = Some t ->
  cols_exist (t_cols t) (cond_cols w) = true ->
  execute (DeleteFrom n w) a c
  = (Conn (disk c) (Some (<[n := delete_where t w]> (working c))),
     inr (Cursor [] [] 0
            (Z.of_nat (length (List.filter (matches (t_cols t) w) (t_rows t)))))).
Proof.
  intros Ht Hc. unfold execute, exec_stmt, lookup_table. rewrite Ht. simpl.
  unfold sql_delete. rewrite Hc. reflexivity.
Qed.

Lemma set_plain_ok cols rows' nv : set_plain cols nv = true -> set_ok cols rows' nv = true.
Proof.
  unfold set_plain, set_ok. destruct (find_col cols nv.1) as [c|]; [|reflexivity].
  destruct (c_pk c), (c_unique c); simpl; try discriminate.
  intros ->. reflexivity.
Qed.

Lemma sql_update_plain t sets w :
  cols_exist (t_cols t) (map fst sets ++ cond_cols w) = true ->
  forallb (set_plain (t_cols t)) sets = true ->
  t_checks t = [] ->
  sql_update t sets w
  = inr (update_where t sets w,
         Z.of_nat (length (List.filter (matches (t_cols t) w) (t_rows t)))).
Proof.
  intros Hc Hs Hk. unfold sql_update, update_where. rewrite Hc. simpl.
  destruct (List.filter (matches (t_cols t) w) (t_rows t)) as [|r0 rest] eqn:Hhit.
  - rewrite filter_none_map by exact Hhit. destruct t; reflexivity.
  - assert (forallb (set_ok (t_cols t)
              (map (fun r => if matches (t_cols t) w r
                             then assign (t_cols t) sets r else r) (t_rows t))) sets = true)
      as ->.
    { apply forallb_forall. intros nv Hin. apply set_plain_ok.
      rewrite forallb_forall in Hs. now apply Hs. }
    rewrite Hk. simpl. rewrite forallb_const_true. reflexivity.
Qed.

Lemma execute_update a c n t sets w :
  working c !! n = Some t ->
  cols_exist (t_cols t) (map fst sets ++ cond_cols w) = true ->
  forallb (set_plain (t_cols t)) sets = true ->
  t_checks t = [] ->
  execute (UpdateSet n sets w) a c
  = (Conn (disk c) (Some (<[n := update_where t sets w]> (working c))),
     inr (Cursor [] [] 0
            (Z.of_nat (length (List.filter (matches (t_cols t) w) (t_rows t)))))).
Proof.
  intros Ht Hc Hs Hk. unfold execute, exec_stmt, lookup_table. rewrite Ht. simpl.
  rewrite sql_update_plain by assumption. reflexivity.
Qed.

Lemma execute_select a c n t names w order :
  working c !! n = Some t ->
  cols_exist (t_cols t) (names ++ cond_cols w ++ order_cols order) = true ->
  execute (SelectFrom names n w order None) a c
  = (c, inr (Cursor names
               (map (fun r => map (read_col (t_cols t) r) names) (visited t w order))
               0 (-1))).
Proof.
  intros Ht Hc. unfold execute, exec_stmt, lookup_table. rewrite Ht. simpl.
  unfold sql_select. rewrite Hc. reflexivity.
Qed.

End Steps.

(** ** Jobs: listing *)

Section Listing.
Context `{TimeCodec}.

Lemma cols_exist_incl cols big small :
  cols_exist cols big = true -> incl small big -> cols_exist cols small = true.
Proof.
  unfold cols_exist. rewrite !forallb_forall. intros Hb Hi n Hn. apply Hb, Hi, Hn.
Qed.

Lemma run_eq {A : Type} (m : M A) a d c r :
  m a (Conn d None) = (c, r) -> run m a d = (disk c, r).
Proof. intros E. unfold run. now rewrite E. Qed.

Lemma insert_desc_perm key r l : Permutation (insert_desc key r l) (r :: l).
Proof.
  induction l as [|x xs IH]; simpl; [reflexivity|].
  destruct (value_compare (key x) (key r)); try reflexivity.
  rewrite IH. apply perm_swap.
Qed.

Lemma sort_desc_perm key l : Permutation (sort_desc key l) l.
Proof.
  induction l as [|x xs IH]; simpl; [reflexivity|].
  rewrite insert_desc_perm. now constructor.
Qed.

Lemma filter_true {A : Type} (l : list A) : List.filter (fun _ => true) l = l.
Proof. induction l; simpl; congruence. Qed.

Lemma visited_all t o : Permutation (visited t CTrue (Some o)) (t_rows t).
Proof.
  unfold visited. rewrite sort_desc_perm.
  replace (List.filter (matches (t_cols t) CTrue) (t_rows t)) with (t_rows t); [reflexivity|].
  symmetry. apply filter_true.
Qed.

Lemma fetchall_select names cols rows :
  fetchall (Cursor names (map (fun r => map (read_col cols r) names) rows) 0 (-1))
  = map (as_dict cols names) rows.
Proof. unfold fetchall. simpl. rewrite map_map. reflexivity. Qed.

(** Without a truthy limit the listing has every job, newest first. *)
Lemma get_jobs_all a d t limit :
  truthy (opt_int limit) = false ->
  d !! "jobs" = Some t ->
  cols_exist (t_cols t) job_fields = true ->
  run (get_jobs limit) a d
  = (d, inr (map (as_dict (t_cols t) job_fields) (visited t CTrue (Some "created_at")))).
Proof.
  intros Hl Ht Hc. apply (run_eq _ _ _ (Conn d None)).
  unfold get_jobs. rewrite Hl. unfold mbind, M_bind, get_connection, close.
  rewrite (execute_select _ _ _ t);
    [|exact Ht|apply (cols_exist_incl _ _ _ Hc); intros x Hx; simpl in *; tauto].
  rewrite fetchall_select. reflexivity.
Qed.

(** The statement itself, given LIMIT 0, selects nothing: the rows come back
    only because [get_jobs] leaves the LIMIT out. *)
Lemma select_limit_zero t names w order cur :
  sql_select t names w order (Some (VInt 0)) = inr cur -> fetched cur = [].
Proof.
  unfold sql_select. destruct (cols_exist _ _); simpl; [|discriminate].
  intros [= <-]. reflexivity.
Qed.

(** C9.  [get_jobs] with [limit=0] does what it does with [limit=None], on
    every database; where the jobs table has the listed columns it returns
    a row for every job, as many rows as there are jobs. *)
Theorem get_jobs_limit_zero_is_unlimited a d :
  run (get_jobs (Some 0)) a d = run (get_jobs None) a d
  /\ forall t, d !! "jobs" = Some t -> cols_exist (t_cols t) job_fields = true ->
       exists rows, run (get_jobs (Some 0)) a d = (d, inr rows)
         /\ length rows = length (t_rows t)
         /\ Forall (fun r => as_dict (t_cols t) job_fields r ∈ rows) (t_rows t).
Proof.
  split; [reflexivity|]. intros t Ht Hc. eexists. split; [|split].
  - apply get_jobs_all; [reflexivity|exact Ht|exact Hc].
  - rewrite length_map. apply Permutation_length, visited_all.
  - apply Forall_forall. intros r Hr. apply list_elem_of_In in Hr.
    apply list_elem_of_In, in_map.
    eapply Permutation_in; [symmetry; apply visited_all|]. exact Hr.
Qed.

End Listing.

Section ListingSample.
Import RefCodec.

(** On the sample, whose jobs table has three rows, [get_jobs(limit=0)]
    returns three rows. *)
Lemma get_jobs_limit_zero_sample :
  run (get_jobs (Some 0)) Sample.noon Sample.data
  = run (get_jobs None) Sample.noon Sample.data
  /\ exists rows,
       run (get_jobs (Some 0)) Sample.noon Sample.data = (Sample.data, inr rows)
       /\ length rows = 3%nat.
Proof.
  destruct (get_jobs_limit_zero_is_unlimited Sample.noon Sample.data) as [E Hall].
  split; [exact E|].
  destruct (Hall Sample.jobs eq_refl eq_refl) as (rows & Hrun & Hlen & _).
  exists rows. split; [exact Hrun|exact Hlen].
Defined.

End ListingSample.

(** ** Cascading deletes *)

Ltac find_table :=
  cbn [working txn disk];
  repeat (rewrite lookup_insert_ne by done);
  try rewrite lookup_insert_eq;
  first [eassumption | reflexivity].

Ltac narrow H := apply (cols_exist_incl _ _ _ H); intros ? ?; simpl in *; tauto.

Section Cascade.
Context `{TimeCodec}.

Lemma delete_where_remove t w : delete_where t w = remove_rows t (matches (t_cols t) w).
Proof. reflexivity. Qed.

Lemma remove_rows_ext t p q :
  (forall r, p r = q r) -> remove_rows t p = remove_rows t q.
Proof.
  intros E. unfold remove_rows. f_equal. apply filter_ext. intros r. now rewrite E.
Qed.

Lemma remove_rows_twice t p q :
  remove_rows (remove_rows t p) q = remove_rows t (fun r => p r || q r).
Proof.
  unfold remove_rows. simpl. f_equal.
  induction (t_rows t) as [|r l IH]; simpl; [reflexivity|].
  destruct (p r); simpl; [exact IH|]. destruct (q r); simpl; [exact IH|]. now rewrite IH.
Qed.

Lemma remove_rows_none t : remove_rows t (fun _ => false) = t.
Proof. unfold remove_rows. simpl. rewrite filter_true. now destruct t. Qed.

Lemma insert_pair_absorb (w : db) (a r : string) X Y X0 Y0 :
  a <> r ->
  <[r := X]> (<[a := Y]> (<[r := X0]> (<[a := Y0]> w))) = <[r := X]> (<[a := Y]> w).
Proof.
  intros Hne. apply map_eq. intros k.
  destruct (decide (k = r)) as [->|Hr]; [now rewrite !lookup_insert_eq|].
  rewrite !(lookup_insert_ne _ r) by congruence.
  destruct (decide (k = a)) as [->|Ha]; [now rewrite !lookup_insert_eq|].
  rewrite !(lookup_insert_ne _ a) by congruence.
  rewrite !(lookup_insert_ne _ r) by congruence.
  now rewrite !(lookup_insert_ne _ a) by congruence.
Qed.

Lemma cascade_step a d0 jid w ta tr :
  w !! "applications" = Some ta ->
  cols_exist (t_cols ta) ["job_id"] = true ->
  w !! "ratings" = Some tr ->
  cols_exist (t_cols tr) ["target_type"; "target_id"] = true ->
  cascade_body jid a (Conn d0 (Some w))
  = (Conn d0 (Some
       (<["ratings" := delete_where tr (CAnd (CCmp "target_type" OpEq (VText "job"))
                                             (CCmp "target_id" OpEq jid))]>
        (<["applications" := delete_where ta (CCmp "job_id" OpEq jid)]> w))),
     inr tt).
Proof.
  intros Ha Hac Hr Hrc. unfold cascade_body, mbind, M_bind.
  rewrite (execute_delete _ _ _ ta) by (try exact Ha; exact Hac).
  rewrite (execute_delete _ _ _ tr).
  3: exact Hrc.
  2: { cbn [working txn disk]. rewrite lookup_insert_ne by done; exact Hr. }
  reflexivity.
Qed.

Lemma cascade_loop a d0 jids : forall w ta tr,
  w !! "applications" = Some ta ->
  cols_exist (t_cols ta) ["job_id"] = true ->
  w !! "ratings" = Some tr ->
  cols_exist (t_cols tr) ["target_type"; "target_id"] = true ->
  for_each jids cascade_body a (Conn d0 (Some w))
  = (Conn d0 (Some
       (<["ratings" := remove_rows tr (fun r =>
            existsb (fun jid => col_is tr "target_type" (VText "job") r
                                && col_is tr "target_id" jid r) jids)]>
        (<["applications" := remove_rows ta (fun r =>
            existsb (fun jid => col_is ta "job_id" jid r) jids)]> w))),
     inr tt).
Proof.
  induction jids as [|jid jids IH]; intros w ta tr Ha Hac Hr Hrc.
  - simpl. rewrite !remove_rows_none. rewrite (insert_id w "applications") by exact Ha.
    rewrite insert_id by exact Hr. reflexivity.
  - change (for_each (jid :: jids) cascade_body)
      with (cascade_body jid ≫= fun _ => for_each jids cascade_body).
    rewrite (bind_ok _ _ _ _ _ _ (cascade_step a d0 jid w ta tr Ha Hac Hr Hrc)).
    rewrite (IH _ (delete_where ta (CCmp "job_id" OpEq jid))
               (delete_where tr (CAnd (CCmp "target_type" OpEq (VText "job"))
                                      (CCmp "target_id" OpEq jid)))).
    + f_equal. f_equal. f_equal.
      rewrite !delete_where_remove, !remove_rows_twice.
      rewrite insert_pair_absorb by done.
      f_equal; apply remove_rows_ext; intros r; cbn; rewrite ?matches_and; reflexivity.
    + rewrite lookup_insert_ne by done. apply lookup_insert_eq.
    + exact Hac.
    + apply lookup_insert_eq.
    + exact Hrc.
Qed.

Lemma run_conn {A : Type} (m : M A) a d d' t r :
  m a (Conn d None) = (Conn d' t, r) -> run m a d = (d', r).
Proof. intros E. unfold run. now rewrite E. Qed.

Lemma mapM_getitem_rows a c cur cols k rows :
  description cur = [k] ->
  mapM (fun r => getitem r k)
    (map (fun x => _row_factory cur (map (read_col cols x) [k])) rows) a c
  = (c, inr (map (fun r => read_col cols r k) rows)).
Proof.
  intros Hd. induction rows as [|r rows IH]; [reflexivity|].
  cbn [map mapM]. unfold mbind, M_bind in *.
  unfold getitem at 1, _row_factory at 1. rewrite Hd.
  cbn [zip zip_with map fold_left fst snd].
  rewrite lookup_insert_eq. cbn [mret M_ret]. cbn [map] in IH. rewrite IH. reflexivity.
Qed.

Lemma mapM_getitem a c cols k rows :
  mapM (fun r => getitem r k)
    (fetchall (Cursor [k] (map (fun r => map (read_col cols r) [k]) rows) 0 (-1))) a c
  = (c, inr (map (fun r => read_col cols r k) rows)).
Proof.
  unfold fetchall. cbn [fetched]. rewrite map_map.
  now apply mapM_getitem_rows.
Qed.

Lemma delete_user_run a d uid ta tr tj tu :
  d !! "applications" = Some ta ->
  cols_exist (t_cols ta) ["user_id"; "job_id"] = true ->
  d !! "ratings" = Some tr ->
  cols_exist (t_cols tr) ["rater_id"; "target_type"; "target_id"] = true ->
  d !! "jobs" = Some tj ->
  cols_exist (t_cols tj) ["id"; "employer_id"] = true ->
  d !! "users" = Some tu ->
  cols_exist (t_cols tu) ["id"] = true ->
  run (delete_user uid) a d
  = (<["users" := remove_rows tu (col_is tu "id" (VInt uid))]>
     (<["jobs" := remove_rows tj (col_is tj "employer_id" (VInt uid))]>
     (<["ratings" := remove_rows tr (rating_refers tr uid (jobs_of tj uid))]>
     (<["applications" :=
          remove_rows ta (application_refers ta uid (jobs_of tj uid))]> d))),
     inr true).
Proof.
  intros Ha Hac Hr Hrc Hj Hjc Hu Huc.
  apply (run_conn _ _ _ _ None).
  unfold delete_user.
  change (fun jid : value => _) with cascade_body.
  unfold mbind, M_bind, get_connection, commit, close.
  rewrite (execute_delete _ _ _ ta); [|find_table|narrow Hac].
  rewrite (execute_delete _ _ _ tr); [|find_table|narrow Hrc].
  rewrite (execute_select _ _ _ tj); [|find_table|narrow Hjc].
  rewrite mapM_getitem.
  erewrite cascade_loop; [|find_table|narrow Hac|find_table|narrow Hrc].
  rewrite (execute_delete _ _ _ tj); [|find_table|narrow Hjc].
  rewrite (execute_delete _ _ _ tu); [|find_table|narrow Huc].
  cbn [working txn disk].
  rewrite insert_pair_absorb by done.
  rewrite !delete_where_remove, !remove_rows_twice.
  unfold mret, M_ret. do 5 f_equal.
  apply remove_rows_ext. intros r. cbn. rewrite matches_or, matches_and. reflexivity.
Qed.
End Cascade.

(** ** Flags on a user, and deleting a job *)

Section Flags.
Context `{TimeCodec}.

Lemma update_where_none t sets w :
  List.filter (matches (t_cols t) w) (t_rows t) = [] -> update_where t sets w = t.
Proof.
  intros E. unfold update_where. rewrite filter_none_map by exact E. now destruct t.
Qed.

Lemma sql_eqb_int x y : sql_eqb (VInt x) (VInt y) = (x =? y).
Proof.
  unfold sql_eqb. simpl. destruct (Z.compare_spec x y), (Z.eqb_spec x y);
    simpl; try reflexivity; lia.
Qed.

Lemma no_such_id cols extra uid rows :
  cols = id_col :: extra ->
  Forall (fun r => rowid r <> uid) rows ->
  List.filter (matches cols (CCmp "id" OpEq (VInt uid))) rows = [].
Proof.
  intros -> Hall. induction Hall as [|r rows Hr _ IH]; [reflexivity|].
  cbn [List.filter]. rewrite IH.
  replace (matches (id_col :: extra) (CCmp "id" OpEq (VInt uid)) r) with (rowid r =? uid);
    [|symmetry; apply sql_eqb_int].
  now destruct (Z.eqb_spec (rowid r) uid).
Qed.

Lemma run_update {A : Type} a d n t sets w (k : Z -> A) :
  d !! n = Some t ->
  cols_exist (t_cols t) (map fst sets ++ cond_cols w) = true ->
  forallb (set_plain (t_cols t)) sets = true ->
  t_checks t = [] ->
  run (_ ← get_connection;
       cur ← execute (UpdateSet n sets w);
       _ ← commit;
       let updated := rowcount cur in
       _ ← close;
       mret (k updated)) a d
  = (<[n := update_where t sets w]> d,
     inr (k (Z.of_nat (length (List.filter (matches (t_cols t) w) (t_rows t)))))).
Proof.
  intros Ht Hc Hs Hk. apply (run_conn _ _ _ _ None).
  unfold mbind, M_bind, get_connection, commit, close.
  rewrite (execute_update _ _ _ t); [reflexivity|exact Ht|exact Hc|exact Hs|exact Hk].
Qed.

Lemma set_user_ban_run a d tu extra uid until :
  d !! "users" = Some tu -> t_cols tu = (users_cols ++ extra)%list -> t_checks tu = [] ->
  exists sets,
    run (set_user_ban uid until) a d
    = (<["users" := update_where tu sets (CCmp "id" OpEq (VInt uid))]> d, inr true).
Proof.
  intros Hu Hcols Hk. unfold set_user_ban.
  destruct (truthy (opt_text until)); eexists;
    apply (run_update a d "users" tu _ _ (fun _ => true) Hu); try exact Hk;
    rewrite Hcols; reflexivity.
Qed.

Lemma unset_user_ban_run a d tu extra uid :
  d !! "users" = Some tu -> t_cols tu = (users_cols ++ extra)%list -> t_checks tu = [] ->
  run (unset_user_ban uid) a d
  = (<["users" := update_where tu [("is_banned", VInt 0); ("banned_until", VNull)]
                    (CCmp "id" OpEq (VInt uid))]> d, inr true).
Proof.
  intros Hu Hcols Hk. unfold unset_user_ban.
  apply (run_update a d "users" tu _ _ (fun _ => true) Hu); try exact Hk;
    rewrite Hcols; reflexivity.
Qed.

Lemma update_user_password_run a d tu extra email password_hash :
  d !! "users" = Some tu -> t_cols tu = (users_cols ++ extra)%list -> t_checks tu = [] ->
  run (update_user_password email password_hash) a d
  = (<["users" := update_where tu [("password_hash", VText password_hash)]
                    (CCmp "email" OpEq (VText email))]> d,
     inr (existsb (col_is tu "email" (VText email)) (t_rows tu))).
Proof.
  intros Hu Hcols Hk. unfold update_user_password.
  rewrite <- positive_count.
  apply (run_update a d "users" tu [("password_hash", VText password_hash)]
           (CCmp "email" OpEq (VText email)) (fun n => 0 <? n) Hu); try exact Hk;
    rewrite Hcols; reflexivity.
Qed.

Lemma set_user_verified_run a d tu extra cv email :
  d !! "users" = Some tu -> t_cols tu = (users_cols ++ extra)%list -> t_checks tu = [] ->
  find_col extra "verified" = Some cv -> c_pk cv = false -> c_unique cv = false ->
  run (set_user_verified email) a d
  = (<["users" := update_where tu [("verified", VInt 1)]
                    (CCmp "email" OpEq (VText email))]> d,
     inr (existsb (col_is tu "email" (VText email)) (t_rows tu))).
Proof.
  intros Hu Hcols Hk Hv Hpk Hun. unfold set_user_verified.
  rewrite <- positive_count.
  apply (run_update a d "users" tu [("verified", VInt 1)]
           (CCmp "email" OpEq (VText email)) (fun n => 0 <? n) Hu); try exact Hk;
    rewrite Hcols.
  - unfold cols_exist, has_col. cbn. change (find _ extra) with (find_col extra "verified").
    rewrite Hv. reflexivity.
  - unfold set_plain. cbn. change (find _ extra) with (find_col extra "verified").
    rewrite Hv, Hpk, Hun. destruct (c_notnull cv); reflexivity.
Qed.

Lemma delete_job_run a d jid ta tr tj :
  d !! "applications" = Some ta ->
  cols_exist (t_cols ta) ["user_id"; "job_id"] = true ->
  d !! "ratings" = Some tr ->
  cols_exist (t_cols tr) ["rater_id"; "target_type"; "target_id"] = true ->
  d !! "jobs" = Some tj ->
  cols_exist (t_cols tj) ["id"; "employer_id"] = true ->
  run (delete_job jid) a d
  = (<["jobs" := remove_rows tj (col_is tj "id" (VInt jid))]>
     (<["ratings" := remove_rows tr (fun r =>
          col_is tr "target_type" (VText "job") r && col_is tr "target_id" (VInt jid) r)]>
     (<["applications" := remove_rows ta (col_is ta "job_id" (VInt jid))]> d)),
     inr true).
Proof.
  intros Ha Hac Hr Hrc Hj Hjc. apply (run_conn _ _ _ _ None).
  unfold delete_job, mbind, M_bind, get_connection, commit, close.
  rewrite (execute_delete _ _ _ ta); [|find_table|narrow Hac].
  rewrite (execute_delete _ _ _ tr); [|find_table|narrow Hrc].
  rewrite (execute_delete _ _ _ tj); [|find_table|narrow Hjc].
  cbn [working txn disk]. unfold mret, M_ret. rewrite !delete_where_remove.
  do 4 f_equal. apply remove_rows_ext. intros r. now rewrite matches_and.
Qed.
End Flags.

(** ** Deleting a user *)

Section DeleteUser.
Context `{TimeCodec}.

Lemma removed_rows_forall t p :
  Forall (fun r => p r = false) (t_rows (remove_rows t p)).
Proof.
  apply Forall_forall. intros r Hr. apply list_elem_of_In in Hr.
  cbn in Hr. apply filter_In in Hr as [_ Hp]. now destruct (p r).
Qed.

Lemma kept_rows t p r :
  r ∈ t_rows t -> p r = false -> r ∈ t_rows (remove_rows t p).
Proof.
  intros Hr Hp. apply list_elem_of_In. apply list_elem_of_In in Hr. cbn.
  apply filter_In. split; [exact Hr|]. now rewrite Hp.
Qed.

(** C3.  [delete_user] leaves, of applications, ratings, jobs and users,
    exactly the rows that do not refer to the user or to one of the user's
    jobs: the applications of the user and for those jobs, the ratings by or
    of the user and of those jobs, the jobs and the user's own row are gone,
    every other row is as it was, and no other table is touched. *)
Theorem delete_user_cascades a d uid ta tr tj tu :
  d !! "applications" = Some ta ->
  cols_exist (t_cols ta) ["user_id"; "job_id"] = true ->
  d !! "ratings" = Some tr ->
  cols_exist (t_cols tr) ["rater_id"; "target_type"; "target_id"] = true ->
  d !! "jobs" = Some tj ->
  cols_exist (t_cols tj) ["id"; "employer_id"] = true ->
  d !! "users" = Some tu ->
  cols_exist (t_cols tu) ["id"] = true ->
  let jids := jobs_of tj uid in
  let ta' := remove_rows ta (application_refers ta uid jids) in
  let tr' := remove_rows tr (rating_refers tr uid jids) in
  let tj' := remove_rows tj (col_is tj "employer_id" (VInt uid)) in
  let tu' := remove_rows tu (col_is tu "id" (VInt uid)) in
  run (delete_user uid) a d
  = (<["users" := tu']> (<["jobs" := tj']> (<["ratings" := tr']>
       (<["applications" := ta']> d))), inr true)
  /\ Forall (fun r => application_refers ta uid jids r = false) (t_rows ta')
  /\ Forall (fun r => rating_refers tr uid jids r = false) (t_rows tr')
  /\ Forall (fun r => col_is tj "employer_id" (VInt uid) r = false) (t_rows tj')
  /\ Forall (fun r => col_is tu "id" (VInt uid) r = false) (t_rows tu')
  /\ (forall r, r ∈ t_rows ta -> application_refers ta uid jids r = false -> r ∈ t_rows ta')
  /\ (forall r, r ∈ t_rows tr -> rating_refers tr uid jids r = false -> r ∈ t_rows tr')
  /\ (forall r, r ∈ t_rows tj -> col_is tj "employer_id" (VInt uid) r = false
                -> r ∈ t_rows tj')
  /\ (forall r, r ∈ t_rows tu -> col_is tu "id" (VInt uid) r = false -> r ∈ t_rows tu').
Proof.
  intros Ha Hac Hr Hrc Hj Hjc Hu Huc jids ta' tr' tj' tu'.
  split; [now apply delete_user_run|].
  repeat split; try apply removed_rows_forall; intros r; apply kept_rows.
Qed.

End DeleteUser.

Section DeleteUserSample.
Import RefCodec.

(** The scenario of the specification: after [delete_user 1] the sample has
    one job, one application, one rating and one user left, those of others. *)
Lemma delete_user_cascades_sample :
  let d' := (run (delete_user 1) Sample.noon Sample.data).1 in
  (run (delete_user 1) Sample.noon Sample.data).2 = inr true
  /\ (t_rows <$> d' !! "applications") = Some [Sample.application_row 3 3 2]
  /\ (t_rows <$> d' !! "ratings") = Some [Sample.rating_row 4 "job" 3 2 2]
  /\ (t_rows <$> d' !! "jobs") = Some [Sample.job_row 3 7 "Driver"]
  /\ (t_rows <$> d' !! "users")
     = Some [Sample.user_row 2 "cand@example.com" "candidate" "cand"]
  /\ d' !! "tokens" = Some Sample.tokens.
Proof.
  destruct (delete_user_cascades Sample.noon Sample.data 1
              Sample.applications Sample.ratings Sample.jobs Sample.users
              eq_refl eq_refl eq_refl eq_refl eq_refl eq_refl eq_refl eq_refl)
    as [E _].
  rewrite E. cbn [fst snd]. split; [reflexivity|].
  repeat split; vm_compute; reflexivity.
Defined.

End DeleteUserSample.

(** ** What the mutators return *)

Section ReturnValues.
Context `{TimeCodec}.

(** C10.  [set_user_ban], [unset_user_ban], [delete_user] and [delete_job]
    return [True] whatever the id: no row need match it, and when no user
    has the id the two ban setters return [True] over an unchanged database.
    [update_user_password] and [set_user_verified] return whether a row
    matched the email. *)
Theorem mutators_return_true a d tu ta tr tj extra user_id job_id banned_until_iso :
  d !! "users" = Some tu ->
  t_cols tu = (users_cols ++ extra)%list ->
  t_checks tu = [] ->
  d !! "applications" = Some ta ->
  cols_exist (t_cols ta) ["user_id"; "job_id"] = true ->
  d !! "ratings" = Some tr ->
  cols_exist (t_cols tr) ["rater_id"; "target_type"; "target_id"] = true ->
  d !! "jobs" = Some tj ->
  cols_exist (t_cols tj) ["id"; "employer_id"] = true ->
  (run (set_user_ban user_id banned_until_iso) a d).2 = inr true
  /\ (run (unset_user_ban user_id) a d).2 = inr true
  /\ (run (delete_user user_id) a d).2 = inr true
  /\ (run (delete_job job_id) a d).2 = inr true
  /\ (Forall (fun r => rowid r <> user_id) (t_rows tu) ->
      run (set_user_ban user_id banned_until_iso) a d = (d, inr true)
      /\ run (unset_user_ban user_id) a d = (d, inr true))
  /\ (forall email password_hash,
        (run (update_user_password email password_hash) a d).2
        = inr (existsb (col_is tu "email" (VText email)) (t_rows tu)))
  /\ (forall email cv,
        find_col extra "verified" = Some cv -> c_pk cv = false -> c_unique cv = false ->
        (run (set_user_verified email) a d).2
        = inr (existsb (col_is tu "email" (VText email)) (t_rows tu))).
Proof.
  intros Hu Hcols Hk Ha Hac Hr Hrc Hj Hjc.
  destruct (set_user_ban_run a d tu extra user_id banned_until_iso Hu Hcols Hk)
    as [sets Hban].
  pose proof (unset_user_ban_run a d tu extra user_id Hu Hcols Hk) as Hunban.
  assert (Huc : cols_exist (t_cols tu) ["id"] = true) by (rewrite Hcols; reflexivity).
  repeat split.
  - now rewrite Hban.
  - now rewrite Hunban.
  - now rewrite (delete_user_run a d user_id ta tr tj tu).
  - now rewrite (delete_job_run a d job_id ta tr tj).
  - rewrite Hban, update_where_none, insert_id; auto.
    apply (no_such_id _ (tl users_cols ++ extra)); [rewrite Hcols; reflexivity|assumption].
  - rewrite Hunban, update_where_none, insert_id; auto.
    apply (no_such_id _ (tl users_cols ++ extra)); [rewrite Hcols; reflexivity|assumption].
  - intros email password_hash.
    now rewrite (update_user_password_run a d tu extra email password_hash).
  - intros email cv Hv Hpk Hun.
    now rewrite (set_user_verified_run a d tu extra cv email).
Qed.

End ReturnValues.

Section ReturnValuesSample.
Import RefCodec.

(** Nobody has id 99 and no job has id 42 in the sample: the four mutators
    answer [True] all the same, the ban setters without changing anything,
    while the two accessors keyed by email answer [False] for an unknown
    address and [True] for a known one. *)
Lemma mutators_return_true_sample :
  run (set_user_ban 99 (Some "2027-01-01T00:00:00")) Sample.noon Sample.data
  = (Sample.data, inr true)
  /\ run (unset_user_ban 99) Sample.noon Sample.data = (Sample.data, inr true)
  /\ (run (delete_user 99) Sample.noon Sample.data).2 = inr true
  /\ (run (delete_job 42) Sample.noon Sample.data).2 = inr true
  /\ (run (update_user_password "nobody@example.com" "h") Sample.noon Sample.data).2
     = inr false
  /\ (run (set_user_verified "nobody@example.com") Sample.noon Sample.data).2 = inr false
  /\ (run (set_user_verified "cand@example.com") Sample.noon Sample.data).2 = inr true.
Proof.
  destruct (mutators_return_true Sample.noon Sample.data Sample.users
              Sample.applications Sample.ratings Sample.jobs profile_cols
              99 42 (Some "2027-01-01T00:00:00")
              eq_refl eq_refl eq_refl eq_refl eq_refl eq_refl eq_refl eq_refl eq_refl)
    as (_ & _ & Hdu & Hdj & Hnone & Hpw & Hver).
  destruct Hnone as [Hban Hunban].
  { repeat constructor; discriminate. }
  split; [exact Hban|]. split; [exact Hunban|]. split; [exact Hdu|].
  split; [exact Hdj|]. split; [apply Hpw|].
  split; eapply Hver; reflexivity.
Defined.

End ReturnValuesSample.

(** ** Ratings *)

Ltac eval_lookups :=
  repeat match goal with
  | |- context [@lookup string value (gmap string value) _ ?k ?m] =>
      let v := eval vm_compute in (m !! k) in
      change (m !! k) with v
  end.

Section Ratings.
Context `{TimeCodec}.

Lemma cmp_ge x y : cmp_holds OpGe (x ?= y) = (y <=? x).
Proof. destruct (Z.compare_spec x y), (Z.leb_spec y x); simpl; try reflexivity; lia. Qed.

Lemma cmp_le x y : cmp_holds OpLe (x ?= y) = (x <=? y).
Proof. destruct (Z.compare_spec x y), (Z.leb_spec x y); simpl; try reflexivity; lia. Qed.

Lemma sql_insert_rating now t target_type target_id rater_id rating comment :
  t_cols t = ratings_cols -> t_checks t = ratings_checks ->
  sql_insert now t
    ["target_type"; "target_id"; "rater_id"; "rating"; "comment"; "created_at"]
    [VText target_type; VInt target_id; VInt rater_id; VInt rating;
     VText comment; VText (isoformat now)]
  = if (1 <=? rating) && (rating <=? 5)
    then inr (add_row t (Row (next_rowid t)
                 (rating_fields now target_type target_id rater_id rating comment)),
              next_rowid t)
    else inl (IntegrityError "CHECK constraint failed").
Proof.
  intros Hc Hk. unfold sql_insert, add_row. rewrite Hc, Hk.
  cbn -[next_rowid Z.max Z.leb]. unfold supplied.
  cbn [c_name not_null_col col created_at_col].
  eval_lookups. cbn -[next_rowid Z.max Z.leb].
  unfold check_ok. cbn -[next_rowid Z.max Z.leb].
  unfold read_col. cbn -[next_rowid Z.max Z.leb].
  eval_lookups. cbn -[next_rowid Z.max Z.leb].
  destruct (Z.compare_spec rating 1), (Z.compare_spec rating 5),
    (Z.leb_spec 1 rating), (Z.leb_spec rating 5); try lia; reflexivity.
Qed.

(** Without the CHECK nothing in [create_rating] looks at the value. *)
Lemma sql_insert_rating_unchecked now t target_type target_id rater_id rating comment :
  t_cols t = ratings_cols -> t_checks t = [] ->
  sql_insert now t
    ["target_type"; "target_id"; "rater_id"; "rating"; "comment"; "created_at"]
    [VText target_type; VInt target_id; VInt rater_id; VInt rating;
     VText comment; VText (isoformat now)]
  = inr (add_row t (Row (next_rowid t)
                 (rating_fields now target_type target_id rater_id rating comment)),
         next_rowid t).
Proof.
  intros Hc Hk. unfold sql_insert, add_row. rewrite Hc, Hk.
  cbn -[next_rowid Z.max Z.leb]. unfold supplied.
  cbn [c_name not_null_col col created_at_col].
  eval_lookups. reflexivity.
Qed.

Lemma execute_insert a c n t names vals t' id :
  working c !! n = Some t ->
  sql_insert (clock a) t names vals = inr (t', id) ->
  execute (InsertInto n names vals) a c
  = (Conn (disk c) (Some (<[n := t']> (working c))), inr (Cursor [] [] id 1)).
Proof.
  intros Ht Hi. unfold execute, exec_stmt, lookup_table. rewrite Ht. cbn [mbind result_bind].
  rewrite Hi. reflexivity.
Qed.

Lemma execute_insert_fails a c n t names vals e :
  working c !! n = Some t ->
  sql_insert (clock a) t names vals = inl e ->
  execute (InsertInto n names vals) a c = (c, inl e).
Proof.
  intros Ht Hi. unfold execute, exec_stmt, lookup_table. rewrite Ht. cbn [mbind result_bind].
  rewrite Hi. reflexivity.
Qed.

Lemma max_rowid_bound rows : Forall (fun r => rowid r <= max_rowid rows) rows.
Proof.
  induction rows as [|r rows IH]; constructor.
  - cbn [max_rowid foldr]. lia.
  - eapply Forall_impl; [exact IH|]. intros x Hx. cbn [max_rowid foldr] in *.
    change (foldr (fun r m => Z.max (rowid r) m) 0 rows) with (max_rowid rows). lia.
Qed.

Lemma next_rowid_fresh t : Forall (fun r => rowid r < next_rowid t) (t_rows t).
Proof.
  eapply Forall_impl; [apply max_rowid_bound|].
  intros r Hr. cbn beta in Hr. unfold next_rowid. lia.
Qed.

(** C7.  On a ratings table as [init_db] declares it, [create_rating] with a
    value below 1 or above 5 raises the integrity error of the CHECK and
    leaves the database as it was; with a value from 1 to 5 it appends the
    row, under a fresh id, and returns the dictionary of its arguments. *)
Theorem create_rating_range a d t target_type target_id rater_id rating comment :
  d !! "ratings" = Some t ->
  t_cols t = ratings_cols ->
  t_checks t = ratings_checks ->
  (rating < 1 \/ 5 < rating ->
   run (create_rating target_type target_id rater_id rating comment) a d
   = (d, inl (IntegrityError "CHECK constraint failed")))
  /\ (1 <= rating <= 5 ->
      run (create_rating target_type target_id rater_id rating comment) a d
      = (<["ratings" := add_row t (Row (next_rowid t)
             (rating_fields (clock a) target_type target_id rater_id rating comment))]> d,
         inr (<["rating" := VInt rating]>
              (<["rater_id" := VInt rater_id]>
              (<["target_id" := VInt target_id]>
              (<["target_type" := VText target_type]>
              (<["id" := VInt (next_rowid t)]> ∅)))))))
  /\ Forall (fun r => rowid r < next_rowid t) (t_rows t).
Proof.
  intros Ht Hc Hk.
  pose proof (sql_insert_rating (clock a) t target_type target_id rater_id rating comment
                Hc Hk) as Hins.
  split; [|split].
  - intros Hout.
    assert ((1 <=? rating) && (rating <=? 5) = false) as E.
    { destruct (Z.leb_spec 1 rating), (Z.leb_spec rating 5); simpl; auto; lia. }
    rewrite E in Hins. apply (run_conn _ _ _ _ None).
    cbv beta iota zeta delta [create_rating mbind M_bind get_connection utcnow disk].
    now rewrite (execute_insert_fails a (Conn d None) "ratings" t _ _ _ Ht Hins).
  - intros Hin.
    assert ((1 <=? rating) && (rating <=? 5) = true) as E.
    { destruct (Z.leb_spec 1 rating), (Z.leb_spec rating 5); simpl; auto; lia. }
    rewrite E in Hins. apply (run_conn _ _ _ _ None).
    cbv beta iota zeta delta [create_rating mbind M_bind get_connection utcnow disk].
    now rewrite (execute_insert a (Conn d None) "ratings" t _ _ _ _ Ht Hins).
  - apply next_rowid_fresh.
Qed.

End Ratings.

Section RatingsSample.
Import RefCodec.

(** On the sample, a rating of 6 is refused and changes nothing; a rating of
    5 gets id 5. *)
Lemma create_rating_range_sample :
  run (create_rating "job" 3 2 6 "") Sample.noon Sample.data
  = (Sample.data, inl (IntegrityError "CHECK constraint failed"))
  /\ (run (create_rating "job" 3 2 5 "") Sample.noon Sample.data).2
     = inr (<["rating" := VInt 5]> (<["rater_id" := VInt 2]> (<["target_id" := VInt 3]>
            (<["target_type" := VText "job"]> (<["id" := VInt 5]> ∅))))).
Proof.
  split.
  - apply (create_rating_range Sample.noon Sample.data Sample.ratings
             "job" 3 2 6 "" eq_refl eq_refl eq_refl).
    right. reflexivity.
  - destruct (create_rating_range Sample.noon Sample.data Sample.ratings
                "job" 3 2 5 "" eq_refl eq_refl eq_refl) as (_ & Hok & _).
    rewrite Hok; [reflexivity|]. split; discriminate.
Defined.

End RatingsSample.

(** ** Schema manager *)

Section Init.
Context `{TimeCodec}.

Lemma ensure_table_step a d n cols checks fks :
  _ensure_table (CreateTableIfNotExists n cols checks fks) a (Conn d None)
  = (Conn (ensure n (new_table cols checks fks) d) None, inr tt).
Proof.
  unfold _ensure_table, mbind, M_bind, execute, exec_stmt, commit, ensure. cbn.
  destruct (d !! n); reflexivity.
Qed.

Lemma string_compare_refl s : String.compare s s = Eq.
Proof.
  induction s as [|c s IH]; cbn; [reflexivity|].
  unfold Ascii.compare. now rewrite N.compare_refl.
Qed.

Lemma py_eqb_text a b : py_eqb (VText a) (VText b) = (a =? b)%string.
Proof.
  unfold py_eqb. cbn. destruct (String.eqb_spec a b) as [->|Hne].
  - now rewrite string_compare_refl.
  - destruct (String.compare a b) eqn:E; try reflexivity.
    apply String.compare_eq_iff in E. contradiction.
Qed.

Lemma table_info_names a c cur cid cols :
  description cur = pragma_description ->
  mapM (fun r => getitem r "name") (map (_row_factory cur) (table_info cid cols)) a c
  = (c, inr (map (fun x => VText (c_name x)) cols)).
Proof.
  intros Hd. revert cid. induction cols as [|x cols IH]; intros cid; [reflexivity|].
  cbn [table_info map mapM]. unfold mbind, M_bind in *.
  unfold getitem at 1, _row_factory at 1. rewrite Hd.
  cbn [pragma_description zip zip_with fold_left fst snd].
  rewrite !(lookup_insert_ne _ _ "name") by done. rewrite lookup_insert_eq.
  cbn [mret M_ret]. rewrite IH. reflexivity.
Qed.

Lemma in_names cols n :
  existsb (py_eqb (VText n)) (map (fun x => VText (c_name x)) cols) = has_col cols n.
Proof.
  unfold has_col, find_col. induction cols as [|x cols IH]; [reflexivity|].
  cbn [map existsb find]. rewrite py_eqb_text, IH, String.eqb_sym.
  destruct (c_name x =? n)%string; reflexivity.
Qed.

Lemma execute_pragma a c n t :
  working c !! n = Some t ->
  execute (PragmaTableInfo n) a c
  = (c, inr (Cursor pragma_description (table_info 0 (t_cols t)) 0 (-1))).
Proof. intros Ht. unfold execute, exec_stmt. now rewrite Ht. Qed.

Lemma columns_for_table_run a c n t :
  working c !! n = Some t ->
  _columns_for_table n a c = (c, inr (map (fun x => VText (c_name x)) (t_cols t))).
Proof.
  intros Ht. unfold _columns_for_table.
  rewrite (bind_ok _ _ _ _ _ _ (execute_pragma a c n t Ht)).
  unfold fetchall. cbn [fetched]. now apply table_info_names.
Qed.

Lemma execute_add_column a d n t c :
  d !! n = Some t ->
  sql_add_column t c = inr (Table (t_cols t ++ [c]) (t_checks t) (t_fks t) (t_rows t) (t_seq t)) ->
  execute (AlterTableAddColumn n c) a (Conn d None)
  = (Conn (<[n := Table (t_cols t ++ [c]) (t_checks t) (t_fks t) (t_rows t) (t_seq t)]> d)
       None, inr no_rows).
Proof.
  intros Ht Hadd. unfold execute, exec_stmt, lookup_table. cbn [working txn disk].
  rewrite Ht. cbn [mbind result_bind]. rewrite Hadd. reflexivity.
Qed.

Lemma add_column_step a d n t name type :
  d !! n = Some t ->
  exists b,
    _add_column_if_missing n (col name type) a (Conn d None)
    = (Conn (with_column n (col name type) d) None, inr b).
Proof.
  intros Ht. unfold _add_column_if_missing, with_column. rewrite Ht.
  rewrite (bind_ok _ _ _ _ _ _ (columns_for_table_run a (Conn d None) n t Ht)).
  rewrite in_names. cbn [c_name col].
  destruct (has_col (t_cols t) name) eqn:Hhas; cbn [negb].
  - eexists. reflexivity.
  - eexists.
    rewrite (bind_ok _ _ _ _ _ _ (execute_add_column a d n t (col name type) Ht
              ltac:(unfold sql_add_column; cbn [c_name col]; rewrite Hhas; reflexivity))).
    reflexivity.
Qed.

Lemma ensure_some n t d : is_Some (ensure n t d !! n).
Proof.
  unfold ensure. destruct (d !! n) eqn:E; [rewrite E; eauto|].
  rewrite lookup_insert_eq. eauto.
Qed.

Lemma ensure_keeps n t d m : is_Some (d !! m) -> is_Some (ensure n t d !! m).
Proof.
  intros Hm. unfold ensure. destruct (d !! n) eqn:E; [exact Hm|].
  destruct (decide (n = m)) as [->|Hne]; [rewrite lookup_insert_eq; eauto|].
  now rewrite lookup_insert_ne.
Qed.

Lemma ensure_present n t d : is_Some (d !! n) -> ensure n t d = d.
Proof. intros [x Hx]. unfold ensure. now rewrite Hx. Qed.

Lemma with_column_keeps n c d m : is_Some (d !! m) -> is_Some (with_column n c d !! m).
Proof.
  intros Hm. unfold with_column. destruct (d !! n) as [t|] eqn:E; [|exact Hm].
  destruct (has_col (t_cols t) (c_name c)); [exact Hm|].
  destruct (decide (n = m)) as [->|Hne]; [rewrite lookup_insert_eq; eauto|].
  now rewrite lookup_insert_ne.
Qed.

Lemma has_col_app cols extra n :
  has_col cols n = true -> has_col (cols ++ extra) n = true.
Proof.
  unfold has_col, find_col. induction cols as [|x cols IH]; [discriminate|].
  cbn [find app]. destruct (c_name x =? n)%string; auto.
Qed.

Lemma has_col_last cols c : has_col (cols ++ [c]) (c_name c) = true.
Proof.
  unfold has_col, find_col. induction cols as [|x cols IH]; cbn [find app].
  - now rewrite String.eqb_refl.
  - destruct (c_name x =? c_name c)%string; auto.
Qed.

(** After [with_column n c] the table [n] has the column [c], and every
    column it had. *)
Lemma with_column_has n c d t :
  d !! n = Some t ->
  exists t', with_column n c d !! n = Some t'
    /\ has_col (t_cols t') (c_name c) = true
    /\ (forall x, has_col (t_cols t) x = true -> has_col (t_cols t') x = true).
Proof.
  intros Ht. unfold with_column. rewrite Ht.
  destruct (has_col (t_cols t) (c_name c)) eqn:Hhas.
  - exists t. auto.
  - eexists. rewrite lookup_insert_eq. split; [reflexivity|]. cbn [t_cols].
    split; [apply has_col_last|]. intros x. apply has_col_app.
Qed.

Lemma with_column_present n c d t :
  d !! n = Some t -> has_col (t_cols t) (c_name c) = true -> with_column n c d = d.
Proof. intros Ht Hc. unfold with_column. now rewrite Ht, Hc. Qed.

Lemma try_except_ok {A : Type} (body : M A) handler a c c' x :
  body a c = (c', inr x) -> try_except body handler a c = (c', inr x).
Proof. intros E. unfold try_except. now rewrite E. Qed.

Lemma init_db_run a d : run init_db a d = (init_db_result d, inr tt).
Proof.
  apply (run_conn _ _ _ _ None). unfold init_db, init_db_result.
  unfold mbind at 1, M_bind at 1, get_connection. cbn [disk].
  do 5 (erewrite bind_ok; [|apply ensure_table_step]).
  set (d5 := ensure "tokens" _ _).
  assert (is_Some (d5 !! "applications")) as [t Ht].
  { subst d5. do 2 apply ensure_keeps. apply ensure_some. }
  destruct (add_column_step a d5 "applications" t "cover_letter_path" "TEXT" Ht)
    as [b1 Hb1].
  destruct (with_column_has "applications" (col "cover_letter_path" "TEXT") d5 t Ht)
    as (t1 & Ht1 & _).
  destruct (add_column_step a _ "applications" t1 "resume_path" "TEXT" Ht1)
    as [b2 Hb2].
  erewrite bind_ok; cycle 1.
  { apply try_except_ok.
    erewrite bind_ok; [|exact Hb1]. erewrite bind_ok; [|exact Hb2]. reflexivity. }
  reflexivity.
Qed.

Lemma init_db_result_fixed d : init_db_result (init_db_result d) = init_db_result d.
Proof.
  set (d1 := init_db_result d).
  assert (Hall : forall n, n ∈ ["users"; "jobs"; "applications"; "ratings"; "tokens"] ->
                           is_Some (d1 !! n)).
  { intros n Hn. subst d1. unfold init_db_result. do 2 apply with_column_keeps.
    repeat (apply elem_of_cons in Hn as [->|Hn]);
      [..|now apply elem_of_nil in Hn];
      repeat first [apply ensure_some | apply ensure_keeps]. }
  assert (exists t, d1 !! "applications" = Some t
                    /\ has_col (t_cols t) "cover_letter_path" = true
                    /\ has_col (t_cols t) "resume_path" = true) as (t & Ht & Hc1 & Hc2).
  { subst d1. unfold init_db_result.
    set (d5 := ensure "tokens" _ _).
    assert (is_Some (d5 !! "applications")) as [t Ht].
    { subst d5. do 2 apply ensure_keeps. apply ensure_some. }
    destruct (with_column_has "applications" (col "cover_letter_path" "TEXT") d5 t Ht)
      as (t1 & Ht1 & Hc1 & _).
    destruct (with_column_has "applications" (col "resume_path" "TEXT") _ t1 Ht1)
      as (t2 & Ht2 & Hc2 & Hkeep).
    exists t2. split; [exact Ht2|]. split; [apply Hkeep, Hc1|exact Hc2]. }
  unfold init_db_result at 1.
  rewrite (ensure_present "users" _ d1) by (apply Hall; set_solver).
  rewrite (ensure_present "jobs" _ d1) by (apply Hall; set_solver).
  rewrite (ensure_present "applications" _ d1) by (apply Hall; set_solver).
  rewrite (ensure_present "ratings" _ d1) by (apply Hall; set_solver).
  rewrite (ensure_present "tokens" _ d1) by (apply Hall; set_solver).
  rewrite (with_column_present "applications" (col "cover_letter_path" "TEXT") d1 t Ht Hc1).
  now rewrite (with_column_present "applications" (col "resume_path" "TEXT") d1 t Ht Hc2).
Qed.

Lemma ensure_same n t d m x : d !! m = Some x -> ensure n t d !! m = Some x.
Proof.
  intros Hm. unfold ensure. destruct (d !! n) eqn:E; [exact Hm|].
  rewrite lookup_insert_ne; [exact Hm|]. intros ->. congruence.
Qed.

Lemma with_column_rows n c d m x :
  d !! m = Some x ->
  exists x', with_column n c d !! m = Some x' /\ t_rows x' = t_rows x.
Proof.
  intros Hm. unfold with_column. destruct (d !! n) as [t|] eqn:E; [|eauto].
  destruct (has_col (t_cols t) (c_name c)); [eauto|].
  destruct (decide (n = m)) as [->|Hne].
  - rewrite lookup_insert_eq. eexists. split; [reflexivity|]. cbn. congruence.
  - rewrite lookup_insert_ne by exact Hne. eauto.
Qed.

(** The first call loses nothing either: a table that was there keeps its
    rows. *)
Lemma init_db_keeps_rows a d n t :
  d !! n = Some t ->
  exists t', (run init_db a d).1 !! n = Some t' /\ t_rows t' = t_rows t.
Proof.
  intros Hn. rewrite init_db_run. cbn [fst]. unfold init_db_result.
  do 5 (eapply ensure_same in Hn).
  destruct (with_column_rows "applications" (col "cover_letter_path" "TEXT") _ n t Hn)
    as (t1 & H1 & E1).
  destruct (with_column_rows "applications" (col "resume_path" "TEXT") _ n t1 H1)
    as (t2 & H2 & E2).
  exists t2. split; [exact H2|congruence].
Qed.

(** C8.  [init_db] never raises, and a second call, at any later time, on
    the database a first call left returns it as it is: the same tables with
    the same columns and constraints, and the same rows. *)
Theorem init_db_idempotent a a' d :
  (run init_db a d).2 = inr tt
  /\ run init_db a' (run init_db a d).1 = ((run init_db a d).1, inr tt).
Proof.
  rewrite !init_db_run. cbn [fst snd]. split; [reflexivity|].
  now rewrite init_db_result_fixed.
Qed.
End Init.

(** ** Users on a database that [init_db] created *)

Section FreshDatabase.
Context `{TimeCodec}.

(** The users table of a database [init_db] created from nothing has the
    seven columns of its CREATE TABLE and no other. *)
Lemma fresh_users a :
  (run init_db a ∅).1 !! "users" = Some (new_table users_cols [] []).
Proof. rewrite init_db_run. reflexivity. Qed.

Lemma execute_select_fails a c n t names w order limit e :
  working c !! n = Some t ->
  sql_select t names w order limit = inl e ->
  execute (SelectFrom names n w order limit) a c = (c, inl e).
Proof.
  intros Ht Hs. unfold execute, exec_stmt, lookup_table. rewrite Ht.
  cbn [mbind result_bind]. now rewrite Hs.
Qed.

(** C1, as the code has it.  On the database [init_db] creates from nothing,
    [create_user] raises for every input: its INSERT names the columns
    [username], [first_name], [last_name] and [verified], which the users
    table does not have.  No row is written, and [get_user_by_id] raises on
    the same database for the same reason. *)
Theorem create_user_raises_on_fresh_database a a' email password_hash role
    username first_name last_name verified id :
  let fresh := (run init_db a ∅).1 in
  (run init_db a ∅).2 = inr tt
  /\ run (create_user email password_hash role username first_name last_name verified)
       a' fresh
     = (fresh, inl (OperationalError "table has no such column"))
  /\ run (get_user_by_id id) a' fresh = (fresh, inl (OperationalError "no such column")).
Proof.
  intros fresh. pose proof (fresh_users a) as Hu. fold fresh in Hu.
  split; [now rewrite init_db_run|]. split.
  - apply (run_conn _ _ _ _ None).
    cbv beta iota zeta delta [create_user mbind M_bind get_connection utcnow disk].
    erewrite execute_insert_fails; [reflexivity|exact Hu|reflexivity].
  - apply (run_conn _ _ _ _ None).
    cbv beta iota zeta delta [get_user_by_id mbind M_bind get_connection disk].
    erewrite execute_select_fails; [reflexivity|exact Hu|reflexivity].
Qed.

End FreshDatabase.

(** ** Jobs: sparse update *)

Section Update.
Context `{TimeCodec}.

Lemma assign_plain cols sets :
  forallb (fun nv => plain_name cols nv.1) sets = true ->
  forall r, patched (fun name => last_set name sets) r (assign cols sets r).
Proof.
  unfold assign. induction sets as [|nv sets IH]; intros Hp r.
  - split; reflexivity.
  - cbn [forallb] in Hp. apply andb_true_iff in Hp as [Hnv Hp].
    cbn [fold_left].
    assert (set_col cols r nv = Row (rowid r) (<[nv.1 := nv.2]> (fields r))) as ->.
    { unfold plain_name in Hnv. unfold set_col.
      destruct (find_col cols nv.1) as [c|]; [|discriminate].
      now destruct (c_pk c). }
    destruct (IH Hp (Row (rowid r) (<[nv.1 := nv.2]> (fields r)))) as [Hid Hf].
    cbn [rowid fields] in Hid, Hf.
    split; [exact Hid|]. intros name. rewrite Hf. cbn [last_set].
    destruct (last_set name sets); [reflexivity|].
    destruct (String.eqb_spec nv.1 name) as [->|Hne].
    + apply lookup_insert_eq.
    + now apply lookup_insert_ne.
Qed.

Lemma last_set_snoc name sets n v :
  last_set name (sets ++ [(n, v)])
  = if (n =? name)%string then Some v else last_set name sets.
Proof.
  induction sets as [|nv sets IH]; cbn [app last_set fst snd].
  - destruct (n =? name)%string; reflexivity.
  - rewrite IH. destruct (n =? name)%string; reflexivity.
Qed.

Lemma last_set_append_field {A : Type} name n (inj : A -> value) x sets :
  last_set name (append_field n inj x sets)
  = if (n =? name)%string
    then match x with Some v => Some (inj v) | None => last_set name sets end
    else last_set name sets.
Proof.
  unfold append_field. destruct x; [apply last_set_snoc|].
  destruct (n =? name)%string; reflexivity.
Qed.

Lemma last_set_job title description location_text lat lng salary tags name :
  last_set name (update_job_fields title description location_text lat lng salary tags)
  = job_arg title description location_text lat lng salary tags name.
Proof.
  unfold update_job_fields, job_arg. rewrite !last_set_append_field. cbn [last_set].
  rewrite !(String.eqb_sym name).
  destruct (String.eqb_spec "title" name) as [<-|?];
    [destruct title, description, location_text, lat, lng, salary, tags; reflexivity|].
  destruct (String.eqb_spec "description" name) as [<-|?];
    [destruct description, location_text, lat, lng, salary, tags; reflexivity|].
  destruct (String.eqb_spec "location_text" name) as [<-|?];
    [destruct location_text, lat, lng, salary, tags; reflexivity|].
  destruct (String.eqb_spec "lat" name) as [<-|?];
    [destruct lat, lng, salary, tags; reflexivity|].
  destruct (String.eqb_spec "lng" name) as [<-|?];
    [destruct lng, salary, tags; reflexivity|].
  destruct (String.eqb_spec "salary" name) as [<-|?];
    [destruct salary, tags; reflexivity|].
  destruct (String.eqb_spec "tags" name) as [<-|?]; [destruct tags; reflexivity|].
  reflexivity.
Qed.

Lemma head_map_filter {A B : Type} (f : A -> B) (p : A -> bool) (l : list A) :
  head (map f (List.filter p l)) = f <$> find p l.
Proof.
  induction l as [|x l IH]; [reflexivity|]. cbn [List.filter find].
  destruct (p x); [reflexivity|exact IH].
Qed.

Lemma find_ext {A : Type} (p q : A -> bool) (l : list A) :
  (forall x, p x = q x) -> find p l = find q l.
Proof.
  intros E. induction l as [|x l IH]; [reflexivity|]. cbn [find].
  now rewrite E, IH.
Qed.

Lemma update_where_nil t w : update_where t [] w = t.
Proof.
  unfold update_where. cbn [assign fold_left].
  replace (map (fun r => if matches (t_cols t) w r then r else r) (t_rows t))
    with (t_rows t); [now destruct t|].
  induction (t_rows t) as [|r l IH]; [reflexivity|]. cbn [map].
  rewrite <- IH. now destruct (matches (t_cols t) w r).
Qed.

Lemma matches_job_id t job_id r :
  t_cols t = jobs_cols ->
  matches (t_cols t) (CCmp "id" OpEq (VInt job_id)) r = (rowid r =? job_id).
Proof. intros ->. apply sql_eqb_int. Qed.

Lemma get_job_by_id_run a d t job_id :
  d !! "jobs" = Some t ->
  t_cols t = jobs_cols ->
  get_job_by_id job_id a (Conn d None)
  = (Conn d None,
     inr (as_dict jobs_cols job_fields <$> find (fun r => rowid r =? job_id) (t_rows t))).
Proof.
  intros Ht Hc. unfold get_job_by_id, mbind, M_bind, get_connection, close.
  rewrite (execute_select _ _ _ t); [|exact Ht|rewrite Hc; reflexivity].
  unfold fetchone. rewrite fetchall_select. unfold visited.
  rewrite head_map_filter.
  rewrite (find_ext _ (fun r => rowid r =? job_id)) by (intros r; now apply matches_job_id).
  rewrite Hc. reflexivity.
Qed.

(** A read leaves the file as it is, whatever it finds. *)
Lemma get_job_by_id_reads a d job_id :
  exists r, get_job_by_id job_id a (Conn d None) = (Conn d None, r).
Proof.
  unfold get_job_by_id, mbind, M_bind, get_connection, close, execute.
  cbn [working txn disk kind_of].
  destruct (exec_stmt _ _ _) as [e|[d' cur]]; eexists; reflexivity.
Qed.

Lemma update_job_run a d t job_id title description location_text lat lng salary tags :
  d !! "jobs" = Some t ->
  t_cols t = jobs_cols ->
  t_checks t = [] ->
  update_job job_id title description location_text lat lng salary tags a (Conn d None)
  = get_job_by_id job_id a
      (Conn (<["jobs" := update_where t
                 (update_job_fields title description location_text lat lng salary tags)
                 (CCmp "id" OpEq (VInt job_id))]> d) None).
Proof.
  intros Ht Hc Hk.
  destruct title, description, location_text, lat, lng, salary, tags;
    cbv beta iota zeta delta [update_job update_job_fields append_field app];
    try (unfold mbind at 1 2 3 4, M_bind at 1 2 3 4, get_connection, commit, close;
         rewrite (execute_update _ _ _ t); try assumption; try (rewrite Hc; reflexivity);
         reflexivity).
  rewrite update_where_nil, insert_id by exact Ht. reflexivity.
Qed.

Lemma update_job_fields_plain title description location_text lat lng salary tags :
  forallb (fun nv => plain_name jobs_cols nv.1)
    (update_job_fields title description location_text lat lng salary tags) = true.
Proof. destruct title, description, location_text, lat, lng, salary, tags; reflexivity. Qed.

(** C6.  On a jobs table as [init_db] declares it, [update_job] rewrites, in
    the rows with the given id, the columns whose argument is not [None] to
    that argument and leaves their other columns, and every other row, as
    they were; it returns the row of that id as it then reads.  With every
    argument [None] it only reads: the database is what it was and the
    result is that of [get_job_by_id]. *)
Theorem update_job_sparse a d t job_id title description location_text lat lng salary tags :
  d !! "jobs" = Some t ->
  t_cols t = jobs_cols ->
  t_checks t = [] ->
  let arg := job_arg title description location_text lat lng salary tags in
  let t' := update_where t
              (update_job_fields title description location_text lat lng salary tags)
              (CCmp "id" OpEq (VInt job_id)) in
  run (update_job job_id title description location_text lat lng salary tags) a d
  = (<["jobs" := t']> d,
     inr (as_dict jobs_cols job_fields
            <$> find (fun r => rowid r =? job_id) (t_rows t')))
  /\ Forall2 (fun r r' => if rowid r =? job_id then patched arg r r' else r' = r)
       (t_rows t) (t_rows t')
  /\ (t_cols t' = t_cols t /\ t_checks t' = t_checks t /\ t_seq t' = t_seq t)
  /\ run (update_job job_id None None None None None None None) a d
     = (d, (run (get_job_by_id job_id) a d).2).
Proof.
  intros Ht Hc Hk arg t'. split; [|split; [|split]].
  - apply (run_conn _ _ _ _ None).
    rewrite (update_job_run a d t) by assumption. fold t'.
    apply get_job_by_id_run; [apply lookup_insert_eq|exact Hc].
  - subst t'. unfold update_where. cbn [t_rows].
    induction (t_rows t) as [|r rows IH]; constructor; [|exact IH].
    rewrite (matches_job_id t job_id r Hc).
    destruct (rowid r =? job_id); [|reflexivity].
    rewrite Hc.
    destruct (assign_plain jobs_cols _
                (update_job_fields_plain title description location_text lat lng salary tags)
                r) as [Hid Hf].
    split; [exact Hid|]. intros name. rewrite Hf. subst arg.
    now rewrite last_set_job.
  - repeat split.
  - destruct (get_job_by_id_reads a d job_id) as [r Hr].
    unfold run at 2. rewrite Hr. cbn [fst snd disk].
    apply (run_conn _ _ _ _ None). exact Hr.
Qed.
End Update.

Section UpdateSample.
Import RefCodec.

(** Retitling job 1 of the sample returns its row with the new title and the
    description, salary and employer it had; with no argument the call is a
    read. *)
Lemma update_job_sparse_sample :
  let row := as_dict jobs_cols job_fields
               (Row 1 (<["title" := VText "New"]> (fields (Sample.job_row 1 1 "Baker")))) in
  (run (update_job 1 (Some "New") None None None None None None)
     Sample.noon Sample.data).2 = inr (Some row)
  /\ row !! "title" = Some (VText "New")
  /\ row !! "description" = Some (VText "Full time")
  /\ row !! "salary" = Some (VText "40k")
  /\ row !! "employer_id" = Some (VInt 1)
  /\ run (update_job 1 None None None None None None None) Sample.noon Sample.data
     = (Sample.data, (run (get_job_by_id 1) Sample.noon Sample.data).2).
Proof.
  destruct (update_job_sparse Sample.noon Sample.data Sample.jobs 1
              (Some "New") None None None None None None eq_refl eq_refl eq_refl)
    as (Hrun & _ & _ & Hnone).
  split; [rewrite Hrun; vm_compute; reflexivity|].
  do 4 (split; [vm_compute; reflexivity|]). exact Hnone.
Defined.

End UpdateSample.

(** ** Tokens *)

Section Tokens.
Context `{TimeCodec}.

Lemma consume_token_missing a d t token purpose :
  d !! "tokens" = Some t ->
  token_schema (t_cols t) ->
  find (matches (t_cols t) (token_where token purpose)) (t_rows t) = None ->
  run (consume_token token purpose) a d = (d, inr VNull).
Proof.
  intros Ht Hs Hfind. apply (run_conn _ _ _ _ None).
  unfold consume_token, mbind at 1 2, M_bind at 1 2, get_connection. cbn [disk].
  rewrite (execute_select _ _ _ t); [|exact Ht|destruct Hs as [-> | ->]; reflexivity].
  unfold fetchone. rewrite fetchall_select. unfold visited.
  rewrite head_map_filter, Hfind. reflexivity.
Qed.

Lemma consume_token_found a d t token purpose r :
  d !! "tokens" = Some t ->
  token_schema (t_cols t) ->
  find (matches (t_cols t) (token_where token purpose)) (t_rows t) = Some r ->
  run (consume_token token purpose) a d
  = (<["tokens" := delete_where t (CCmp "token" OpEq (VText token))]> d,
     inr (if still_valid (clock a) (read_col (t_cols t) r "expires_at")
          then read_col (t_cols t) r "email" else VNull)).
Proof.
  intros Ht Hs Hfind. apply (run_conn _ _ _ _ None).
  assert (Hcols : cols_exist (t_cols t) ["token"; "purpose"; "email"; "expires_at"] = true)
    by (destruct Hs as [-> | ->]; reflexivity).
  assert (Hdel : forall c, working c = d ->
            execute (DeleteFrom "tokens" (CCmp "token" OpEq (VText token))) a c
            = (Conn (disk c)
                 (Some (<["tokens" := delete_where t (CCmp "token" OpEq (VText token))]> d)),
               inr (Cursor [] [] 0
                      (Z.of_nat (length (List.filter
                         (matches (t_cols t) (CCmp "token" OpEq (VText token)))
                         (t_rows t))))))).
  { intros c Hc. rewrite (execute_delete a c "tokens" t); [now rewrite Hc| |narrow Hcols].
    now rewrite Hc. }
  unfold consume_token, mbind at 1 2, M_bind at 1 2, get_connection. cbn [disk].
  rewrite (execute_select _ _ _ t); [|exact Ht|narrow Hcols].
  unfold fetchone. rewrite fetchall_select. unfold visited.
  rewrite head_map_filter, Hfind. cbn [fmap option_fmap option_map].
  unfold as_dict, _row_factory.
  cbn [description zip zip_with map fold_left fst snd].
  unfold getitem. rewrite (lookup_insert_ne _ "expires_at" "email") by done.
  rewrite !lookup_insert_eq.
  unfold mbind at 1, M_bind at 1. cbn [mret M_ret].
  cbn [default from_option id].
  set (v := read_col (t_cols t) r "expires_at").
  set (email := read_col (t_cols t) r "email").
  unfold still_valid, try_except, py_fromisoformat, dt_lt, utcnow, commit, close.
  destruct (truthy v) eqn:Htr.
  - destruct v as [|z|q|s]; try discriminate;
      unfold mbind, M_bind, raise, mret, M_ret; cbv beta iota;
      try (rewrite Hdel by reflexivity; reflexivity).
    destruct (fromisoformat s) as [e|e o|]; cbv beta iota;
      try (rewrite Hdel by reflexivity; reflexivity).
    destruct (e <? clock a); cbn [negb]; cbv beta iota;
      rewrite Hdel by reflexivity; reflexivity.
  - unfold mbind, M_bind, mret, M_ret. cbv beta iota.
    rewrite Hdel by reflexivity. reflexivity.
Qed.

Lemma get_token_info_run a d t token purpose :
  d !! "tokens" = Some t ->
  token_schema (t_cols t) ->
  run (get_token_info token purpose) a d
  = (d, inr (match find (matches (t_cols t) (token_where token purpose)) (t_rows t) with
             | Some r =>
                 if still_valid (clock a) (read_col (t_cols t) r "expires_at")
                 then Some (as_dict (t_cols t)
                              ["token"; "email"; "purpose"; "expires_at"; "created_at"] r)
                 else None
             | None => None
             end)).
Proof.
  intros Ht Hs. apply (run_conn _ _ _ _ None).
  unfold get_token_info, mbind at 1 2 3, M_bind at 1 2 3, get_connection, close.
  cbn [disk].
  rewrite (execute_select _ _ _ t); [|exact Ht|destruct Hs as [-> | ->]; reflexivity].
  unfold fetchone. rewrite fetchall_select. unfold visited.
  rewrite head_map_filter.
  destruct (find _ (t_rows t)) as [r|]; [|reflexivity].
  cbn [fmap option_fmap option_map].
  assert (as_dict (t_cols t) ["token"; "email"; "purpose"; "expires_at"; "created_at"] r
          !! "expires_at" = Some (read_col (t_cols t) r "expires_at")) as ->.
  { unfold as_dict, _row_factory.
    cbn [description zip zip_with map fold_left fst snd].
    rewrite (lookup_insert_ne _ "created_at" "expires_at") by done.
    apply lookup_insert_eq. }
  cbn [default from_option id].
  set (v := read_col (t_cols t) r "expires_at").
  unfold still_valid, try_except, py_fromisoformat, dt_lt, utcnow.
  destruct (truthy v) eqn:Htr.
  - destruct v as [|z|q|s]; try discriminate;
      unfold mbind, M_bind, raise, mret, M_ret; cbv beta iota; try reflexivity.
    destruct (fromisoformat s) as [e|e o|]; cbv beta iota; try reflexivity.
    destruct (e <? clock a); reflexivity.
  - reflexivity.
Qed.

Lemma unused_token_ok t token :
  unused_token t token ->
  forallb (fun r => negb (sql_eqb (read_col (t_cols t) r "token") (VText token))) (t_rows t)
  = true.
Proof.
  unfold unused_token, col_is. intros Hall. apply forallb_forall. intros r Hr.
  rewrite Forall_forall in Hall. rewrite Hall; [reflexivity|]. now apply list_elem_of_In.
Qed.

Lemma sql_insert_token now t token email purpose expires :
  token_schema (t_cols t) ->
  t_checks t = [] ->
  unused_token t token ->
  sql_insert now t ["token"; "email"; "purpose"; "expires_at"]
    [VText token; VText email; VText purpose; VText (isoformat expires)]
  = inr (add_row t (Row (next_rowid t) (token_fields now token email purpose expires)),
         next_rowid t).
Proof.
  intros Hs Hk Hfree. apply unused_token_ok in Hfree.
  unfold sql_insert, add_row. rewrite Hk.
  destruct Hs as [Hc | Hc]; rewrite Hc in *;
    cbn -[next_rowid Z.max read_col sql_eqb]; unfold supplied;
    cbn [c_name c_default not_null_col col created_at_col]; eval_lookups;
    cbn -[next_rowid Z.max read_col sql_eqb];
    unfold unique_ok; cbn [c_unique c_name negb orb];
    rewrite Hfree; reflexivity.
Qed.

Lemma execute_create a d n cols checks fks :
  execute (CreateTableIfNotExists n cols checks fks) a (Conn d None)
  = (Conn (ensure n (new_table cols checks fks) d) None, inr no_rows).
Proof.
  unfold execute, exec_stmt, ensure. cbn [working txn disk kind_of].
  destruct (d !! n); reflexivity.
Qed.

Lemma insert_ensure (d : db) n t0 x : <[n := x]> (ensure n t0 d) = <[n := x]> d.
Proof. unfold ensure. destruct (d !! n); [reflexivity|apply insert_insert_eq]. Qed.

Lemma ensure_tokens_of d :
  ensure "tokens" (new_table tokens_cols_inline [] []) d !! "tokens" = Some (tokens_of d).
Proof.
  unfold ensure, tokens_of. destruct (d !! "tokens") eqn:E; [now rewrite E|].
  now rewrite lookup_insert_eq.
Qed.

Lemma create_token_run d now token email purpose ttl expires :
  let t := tokens_of d in
  token_schema (t_cols t) ->
  t_checks t = [] ->
  unused_token t token ->
  add_seconds now ttl = inr expires ->
  run (create_token email purpose ttl) (Ambient now token) d
  = (<["tokens" := add_row t (Row (next_rowid t)
                      (token_fields now token email purpose expires))]> d,
     inr token).
Proof.
  intros t Hs Hk Hfree Hadd. apply (run_conn _ _ _ _ None).
  cbv beta iota zeta delta [create_token mbind M_bind get_connection token_hex utcnow
                            lift disk clock urandom].
  rewrite Hadd. cbv beta iota. rewrite execute_create.
  erewrite execute_insert;
    [|apply ensure_tokens_of|apply sql_insert_token; eassumption].
  cbv beta iota delta [commit close mret M_ret working txn disk].
  now rewrite insert_ensure.
Qed.

Lemma sql_eqb_text_refl s : sql_eqb (VText s) (VText s) = true.
Proof. unfold sql_eqb. cbn. now rewrite string_compare_refl. Qed.

Lemma token_row_read cols id now token email purpose expires :
  token_schema cols ->
  let r := Row id (token_fields now token email purpose expires) in
  read_col cols r "token" = VText token
  /\ read_col cols r "purpose" = VText purpose
  /\ read_col cols r "email" = VText email
  /\ read_col cols r "expires_at" = VText (isoformat expires).
Proof.
  intros [-> | ->] r; subst r; unfold read_col, token_fields;
    cbn [find_col find c_name c_pk tokens_cols tokens_cols_inline id_col not_null_col col
         created_at_col String.eqb Ascii.eqb Bool.eqb fields];
    eval_lookups; repeat split.
Qed.

Lemma find_unused t token purpose :
  unused_token t token ->
  find (matches (t_cols t) (token_where token purpose)) (t_rows t) = None.
Proof.
  unfold unused_token, col_is. intros Hall.
  induction Hall as [|r rows Hr _ IH]; [reflexivity|]. cbn [find].
  unfold token_where at 1. rewrite matches_and, matches_eq, Hr. exact IH.
Qed.

Lemma find_created t token purpose r :
  unused_token t token ->
  matches (t_cols t) (token_where token purpose) r = true ->
  find (matches (t_cols t) (token_where token purpose)) (t_rows t ++ [r]) = Some r.
Proof.
  unfold unused_token, col_is. intros Hall Hm.
  induction Hall as [|x rows Hx _ IH]; cbn [app find]; [now rewrite Hm|].
  unfold token_where at 1. rewrite matches_and, matches_eq, Hx. exact IH.
Qed.

Lemma delete_created t token r :
  unused_token t token ->
  col_is t "token" (VText token) r = true ->
  delete_where (add_row t r) (CCmp "token" OpEq (VText token))
  = Table (t_cols t) (t_checks t) (t_fks t) (t_rows t) (Z.max (t_seq t) (rowid r)).
Proof.
  unfold unused_token, col_is, delete_where, add_row. cbn [t_cols t_rows t_checks t_fks t_seq].
  intros Hall Hm. f_equal.
  induction Hall as [|x rows Hx _ IH]; cbn [app List.filter].
  - now rewrite matches_eq, Hm.
  - rewrite matches_eq, Hx. cbn [negb]. now rewrite IH.
Qed.

Lemma still_valid_text now s e :
  s <> "" -> fromisoformat s = Naive e -> still_valid now (VText s) = negb (e <? now).
Proof.
  intros Hs He. unfold still_valid. cbn [truthy].
  destruct (String.eqb_spec s "") as [->|_]; [contradiction|]. cbn [negb]. now rewrite He.
Qed.

(** Creating a token and consuming it, at any instant: the call returns the
    email unless the expiry has passed, and the table is left with the rows
    it had before the token was created. *)
Lemma create_then_consume d now token email purpose ttl expires a1 :
  let t := tokens_of d in
  token_schema (t_cols t) ->
  t_checks t = [] ->
  unused_token t token ->
  add_seconds now ttl = inr expires ->
  fromisoformat (isoformat expires) = Naive expires ->
  isoformat expires <> "" ->
  run (consume_token token purpose) a1
    (run (create_token email purpose ttl) (Ambient now token) d).1
  = (<["tokens" := used_up t]> d,
     inr (if expires <? clock a1 then VNull else VText email)).
Proof.
  intros t Hs Hk Hfree Hadd Hparse Hne.
  rewrite (create_token_run d now token email purpose ttl expires Hs Hk Hfree Hadd).
  cbn [fst]. fold t.
  set (r := Row (next_rowid t) (token_fields now token email purpose expires)).
  destruct (token_row_read (t_cols t) (next_rowid t) now token email purpose expires Hs)
    as (Rt & Rp & Re & Rx). fold r in Rt, Rp, Re, Rx.
  rewrite (consume_token_found a1 _ (add_row t r) token purpose r).
  - cbn [t_cols add_row]. rewrite Rx, Re, (still_valid_text _ _ expires Hne Hparse).
    rewrite insert_insert_eq, delete_created; [|exact Hfree|].
    + f_equal. now destruct (expires <? clock a1).
    + unfold col_is. rewrite Rt. apply sql_eqb_text_refl.
  - apply lookup_insert_eq.
  - exact Hs.
  - cbn [t_cols t_rows add_row]. apply find_created; [exact Hfree|].
    unfold token_where. rewrite matches_and, !matches_eq, Rt, Rp.
    now rewrite !sql_eqb_text_refl.
Qed.

(** Once the token has no row, consuming it finds nothing and changes
    nothing, whatever the purpose and the instant. *)
Lemma consume_unused a d t token purpose :
  d !! "tokens" = Some t ->
  token_schema (t_cols t) ->
  unused_token t token ->
  run (consume_token token purpose) a d = (d, inr VNull).
Proof.
  intros Ht Hs Hfree. apply (consume_token_missing a d t); [exact Ht|exact Hs|].
  now apply find_unused.
Qed.

Lemma consume_all_unused d t token calls :
  d !! "tokens" = Some t ->
  token_schema (t_cols t) ->
  unused_token t token ->
  consume_all token calls d = (d, map (fun _ => inr VNull) calls).
Proof.
  intros Ht Hs Hfree. induction calls as [|call calls IH]; [reflexivity|].
  cbn [consume_all map]. rewrite (consume_unused call.1 d t token call.2 Ht Hs Hfree).
  cbn [fst snd]. now rewrite IH.
Qed.

(** C2.  A token [create_token] made is consumed once: the first
    [consume_token] with its purpose returns the email when the expiry has
    not passed (and nothing when it has), and every later [consume_token]
    with that token, with any purpose and at any instant, returns nothing
    and leaves the database as the first left it. *)
Theorem token_single_use d now token email purpose ttl expires a1 calls :
  let t := tokens_of d in
  token_schema (t_cols t) ->
  t_checks t = [] ->
  unused_token t token ->
  0 < ttl ->
  add_seconds now ttl = inr expires ->
  fromisoformat (isoformat expires) = Naive expires ->
  isoformat expires <> "" ->
  let created := run (create_token email purpose ttl) (Ambient now token) d in
  let first := run (consume_token token purpose) a1 created.1 in
  created.2 = inr token
  /\ (clock a1 <= expires -> first.2 = inr (VText email))
  /\ (expires < clock a1 -> first.2 = inr VNull)
  /\ consume_all token calls first.1 = (first.1, map (fun _ => inr VNull) calls).
Proof.
  intros t Hs Hk Hfree Hpos Hadd Hparse Hne created first.
  assert (Hfirst : first = (<["tokens" := used_up t]> d,
                            inr (if expires <? clock a1 then VNull else VText email)))
    by (now apply create_then_consume).
  split; [|split; [|split]].
  - subst created. now rewrite (create_token_run d now token email purpose ttl expires).
  - intros Hle. rewrite Hfirst. cbn [snd].
    destruct (Z.ltb_spec expires (clock a1)); [lia|reflexivity].
  - intros Hlt. rewrite Hfirst. cbn [snd].
    destruct (Z.ltb_spec expires (clock a1)); [reflexivity|lia].
  - rewrite Hfirst. cbn [fst].
    apply (consume_all_unused _ (used_up t)); [apply lookup_insert_eq|exact Hs|exact Hfree].
Qed.

Lemma find_holds {A : Type} (p : A -> bool) (l : list A) (x : A) :
  find p l = Some x -> p x = true /\ x ∈ l.
Proof.
  intros Hf. apply find_some in Hf as [Hin Hp]. split; [exact Hp|].
  now apply list_elem_of_In.
Qed.

Lemma consume_expired a d t token purpose r s e :
  d !! "tokens" = Some t ->
  token_schema (t_cols t) ->
  find (matches (t_cols t) (token_where token purpose)) (t_rows t) = Some r ->
  read_col (t_cols t) r "expires_at" = VText s ->
  s <> "" ->
  fromisoformat s = Naive e ->
  e < clock a ->
  run (consume_token token purpose) a d
  = (<["tokens" := delete_where t (CCmp "token" OpEq (VText token))]> d, inr VNull).
Proof.
  intros Ht Hs Hfind Hx Hne Hparse Hlt.
  rewrite (consume_token_found a d t token purpose r Ht Hs Hfind).
  rewrite Hx, (still_valid_text _ _ e Hne Hparse).
  now destruct (Z.ltb_spec e (clock a)); [|lia].
Qed.

Lemma peek_expired a d t token purpose r s e :
  d !! "tokens" = Some t ->
  token_schema (t_cols t) ->
  find (matches (t_cols t) (token_where token purpose)) (t_rows t) = Some r ->
  read_col (t_cols t) r "expires_at" = VText s ->
  s <> "" ->
  fromisoformat s = Naive e ->
  e < clock a ->
  run (get_token_info token purpose) a d = (d, inr None).
Proof.
  intros Ht Hs Hfind Hx Hne Hparse Hlt.
  rewrite (get_token_info_run a d t token purpose Ht Hs), Hfind.
  rewrite Hx, (still_valid_text _ _ e Hne Hparse).
  now destruct (Z.ltb_spec e (clock a)); [|lia].
Qed.

Lemma found_row_deleted t token purpose r :
  find (matches (t_cols t) (token_where token purpose)) (t_rows t) = Some r ->
  r ∉ t_rows (delete_where t (CCmp "token" OpEq (VText token))).
Proof.
  intros Hfind Hin. apply find_holds in Hfind as [Hm _].
  unfold token_where in Hm. rewrite matches_and in Hm.
  apply andb_true_iff in Hm as [Hm _].
  apply list_elem_of_In in Hin. cbn [delete_where t_rows] in Hin.
  apply filter_In in Hin as [_ Hn]. now rewrite Hm in Hn.
Qed.

(** C4.  When the row [consume_token] and [get_token_info] find for a token
    carries an expiry that has passed, both return nothing; [consume_token]
    deletes the row, [get_token_info] leaves the database as it is. *)
Theorem expired_token_not_found a d t token purpose r s e :
  d !! "tokens" = Some t ->
  token_schema (t_cols t) ->
  find (matches (t_cols t) (token_where token purpose)) (t_rows t) = Some r ->
  read_col (t_cols t) r "expires_at" = VText s ->
  s <> "" ->
  fromisoformat s = Naive e ->
  e < clock a ->
  let t' := delete_where t (CCmp "token" OpEq (VText token)) in
  run (consume_token token purpose) a d = (<["tokens" := t']> d, inr VNull)
  /\ (r ∉ t_rows t')
  /\ run (get_token_info token purpose) a d = (d, inr None).
Proof.
  intros Ht Hs Hfind Hx Hne Hparse Hlt t'. split; [|split].
  - now apply (consume_expired a d t token purpose r s e).
  - now apply (found_row_deleted t token purpose r).
  - now apply (peek_expired a d t token purpose r s e).
Qed.

(** A token created with [ttl_seconds=-1] expired a second before it was
    made: from then on neither accessor finds it. *)
Lemma created_expired d now token email purpose expires a1 :
  let t := tokens_of d in
  token_schema (t_cols t) ->
  t_checks t = [] ->
  unused_token t token ->
  add_seconds now (-1) = inr expires ->
  fromisoformat (isoformat expires) = Naive expires ->
  isoformat expires <> "" ->
  now <= clock a1 ->
  let d1 := (run (create_token email purpose (-1)) (Ambient now token) d).1 in
  (run (consume_token token purpose) a1 d1).2 = inr VNull
  /\ run (get_token_info token purpose) a1 d1 = (d1, inr None).
Proof.
  intros t Hs Hk Hfree Hadd Hparse Hne Hlater d1.
  assert (Hexp : expires < clock a1).
  { unfold add_seconds in Hadd.
    destruct ((0 <=? now + (-1) * 1000000) && (now + (-1) * 1000000 <=? dt_max));
      [|discriminate].
    injection Hadd as <-. lia. }
  split.
  - subst d1. rewrite (create_then_consume d now token email purpose (-1) expires a1)
      by assumption.
    cbn [snd]. now destruct (Z.ltb_spec expires (clock a1)); [|lia].
  - subst d1.
    rewrite (create_token_run d now token email purpose (-1) expires Hs Hk Hfree Hadd).
    cbn [fst]. fold t.
    set (r := Row (next_rowid t) (token_fields now token email purpose expires)).
    destruct (token_row_read (t_cols t) (next_rowid t) now token email purpose expires Hs)
      as (Rt & Rp & Re & Rx). fold r in Rt, Rp, Re, Rx.
    apply (peek_expired a1 _ (add_row t r) token purpose r (isoformat expires) expires);
      try assumption.
    + apply lookup_insert_eq.
    + cbn [t_cols t_rows add_row]. apply find_created; [exact Hfree|].
      unfold token_where. rewrite matches_and, !matches_eq, Rt, Rp.
      now rewrite !sql_eqb_text_refl.
Qed.

(** C5, as the code has it.  A stored expiry that is truthy and does not
    read as a naive timestamp is an expiry that has passed: the row is
    deleted and nothing is returned.  A stored expiry that is falsy (NULL,
    the empty string, zero) is not looked at: the row is consumed and its
    email returned. *)
Theorem unreadable_expiry a d t token purpose r :
  d !! "tokens" = Some t ->
  token_schema (t_cols t) ->
  find (matches (t_cols t) (token_where token purpose)) (t_rows t) = Some r ->
  let v := read_col (t_cols t) r "expires_at" in
  let d' := <["tokens" := delete_where t (CCmp "token" OpEq (VText token))]> d in
  (truthy v = true -> is_timestamp v = false ->
   run (consume_token token purpose) a d = (d', inr VNull))
  /\ (truthy v = false ->
      run (consume_token token purpose) a d = (d', inr (read_col (t_cols t) r "email")))
  /\ (r ∉ t_rows (delete_where t (CCmp "token" OpEq (VText token)))).
Proof.
  intros Ht Hs Hfind v d'.
  rewrite (consume_token_found a d t token purpose r Ht Hs Hfind). fold v d'.
  split; [|split].
  - intros Htr Hts. unfold still_valid. rewrite Htr.
    destruct v as [|z|q|s]; try reflexivity.
    cbn [is_timestamp] in Hts. now destruct (fromisoformat s).
  - intros Htr. unfold still_valid. now rewrite Htr.
  - now apply (found_row_deleted t token purpose r).
Qed.
End Tokens.

Section TokensSample.
Import RefCodec.

(** On the sample: a token made at 09:30 for an hour is consumed at 10:00
    and returns the email; the two calls that follow, one of them with
    another purpose, return nothing. *)
Lemma token_single_use_sample :
  let created := run (create_token "cand@example.com" "reset" 3600)
                   Sample.noon Sample.data in
  let first := run (consume_token Sample.draw "reset") Sample.later created.1 in
  created.2 = inr Sample.draw
  /\ first.2 = inr (VText "cand@example.com")
  /\ consume_all Sample.draw [(Sample.later, "reset"); (Sample.noon, "verify")] first.1
     = (first.1, [inr VNull; inr VNull]).
Proof.
  destruct (token_single_use Sample.data (clock Sample.noon) Sample.draw
              "cand@example.com" "reset" 3600 (clock Sample.noon + 3600 * 1000000)
              Sample.later [(Sample.later, "reset"); (Sample.noon, "verify")])
    as (Hc & Hfirst & _ & Hrest).
  - left. reflexivity.
  - reflexivity.
  - constructor.
  - reflexivity.
  - reflexivity.
  - vm_compute. reflexivity.
  - vm_compute. discriminate.
  - split; [exact Hc|]. split; [|exact Hrest].
    apply Hfirst. vm_compute. discriminate.
Defined.

(** A token made with [ttl_seconds=-1] is found by neither accessor, at the
    instant it was made. *)
Lemma expired_token_not_found_sample :
  let d1 := (run (create_token "cand@example.com" "reset" (-1))
               Sample.noon Sample.data).1 in
  (run (consume_token Sample.draw "reset") Sample.noon d1).2 = inr VNull
  /\ run (get_token_info Sample.draw "reset") Sample.noon d1 = (d1, inr None).
Proof.
  set (r := Row 1 (token_fields (clock Sample.noon) Sample.draw "cand@example.com" "reset"
                     (clock Sample.noon - 1000000))).
  destruct (expired_token_not_found Sample.noon
              (run (create_token "cand@example.com" "reset" (-1))
                 Sample.noon Sample.data).1
              (add_row Sample.tokens r) Sample.draw "reset" r
              "2026-11-04T09:29:59" (clock Sample.noon - 1000000))
    as (Hc & _ & Hp).
  - vm_compute. reflexivity.
  - left. reflexivity.
  - vm_compute. reflexivity.
  - vm_compute. reflexivity.
  - discriminate.
  - vm_compute. reflexivity.
  - reflexivity.
  - split; [now rewrite Hc|exact Hp].
Defined.

(** C5 as stated fails on a stored expiry that is the empty string: it does
    not read as a timestamp, and the token is consumed all the same. *)
Lemma blank_expiry_is_consumed :
  read_col tokens_cols Sample.blank_token "expires_at" = VText ""
  /\ fromisoformat "" = Invalid
  /\ (run (consume_token "0a1b" "reset") Sample.noon Sample.stale).2
     = inr (VText "cand@example.com")
  /\ (run (consume_token "0a1b" "reset") Sample.noon Sample.stale).2 <> inr VNull.
Proof.
  repeat split; try (vm_compute; reflexivity). vm_compute. discriminate.
Qed.

(** On the sample with two stale rows: the one whose expiry is not a date is
    dropped and nothing is returned; the one whose expiry is empty is
    consumed. *)
Lemma unreadable_expiry_sample :
  (run (consume_token "2c3d" "verify") Sample.noon Sample.stale).2 = inr VNull
  /\ (run (consume_token "0a1b" "reset") Sample.noon Sample.stale).2
     = inr (VText "cand@example.com").
Proof.
  split.
  - destruct (unreadable_expiry Sample.noon Sample.stale Sample.stale_tokens
                "2c3d" "verify" Sample.garbled_token eq_refl (or_introl eq_refl) eq_refl)
      as (Hbad & _ & _).
    rewrite Hbad; reflexivity.
  - destruct (unreadable_expiry Sample.noon Sample.stale Sample.stale_tokens
                "0a1b" "reset" Sample.blank_token eq_refl (or_introl eq_refl) eq_refl)
      as (_ & Hblank & _).
    rewrite Hblank; reflexivity.
Defined.

End TokensSample.

(** ** Users on a database that has the profile columns *)

Section Users.
Context `{TimeCodec}.

Lemma unused_email_ok t email :
  unused_email t email ->
  forallb (fun r => negb (sql_eqb (read_col (t_cols t) r "email") (VText email))) (t_rows t)
  = true.
Proof.
  unfold unused_email, col_is. intros Hall. apply forallb_forall. intros r Hr.
  rewrite Forall_forall in Hall. rewrite Hall; [reflexivity|]. now apply list_elem_of_In.
Qed.

Lemma sql_insert_user now t email password_hash role username first_name last_name verified :
  t_cols t = (users_cols ++ profile_cols)%list ->
  t_checks t = [] ->
  unused_email t email ->
  sql_insert now t
    ["email"; "password_hash"; "role"; "username"; "first_name"; "last_name";
     "verified"; "created_at"]
    [VText email; VText password_hash; VText role; opt_text username;
     opt_text first_name; opt_text last_name; VInt verified; VText (isoformat now)]
  = inr (add_row t (Row (next_rowid t)
           (user_fields_stored now email password_hash role username first_name
              last_name verified)),
         next_rowid t).
Proof.
  intros Hc Hk Hfree. apply unused_email_ok in Hfree.
  unfold sql_insert, add_row. rewrite Hk. rewrite Hc in *.
  cbn -[next_rowid Z.max read_col sql_eqb]. unfold supplied.
  cbn [c_name c_default not_null_col col created_at_col]. eval_lookups.
  cbn -[next_rowid Z.max read_col sql_eqb].
  unfold unique_ok. cbn [c_unique c_name negb orb].
  match goal with
  | |- context [forallb ?f (t_rows t)] =>
      replace (forallb f (t_rows t)) with true by (symmetry; exact Hfree)
  end.
  reflexivity.
Qed.

Lemma find_appended {A : Type} (p : A -> bool) (l : list A) (x : A) :
  Forall (fun y => p y = false) l -> p x = true -> find p (l ++ [x]) = Some x.
Proof.
  intros Hall Hx. induction Hall as [|y l Hy _ IH]; cbn [app find].
  - now rewrite Hx.
  - now rewrite Hy.
Qed.

Lemma get_user_by_id_run a d t id :
  d !! "users" = Some t ->
  t_cols t = (users_cols ++ profile_cols)%list ->
  get_user_by_id id a (Conn d None)
  = (Conn d None,
     inr (as_dict (t_cols t) user_fields <$> find (fun r => rowid r =? id) (t_rows t))).
Proof.
  intros Ht Hc. unfold get_user_by_id, mbind, M_bind, get_connection, close.
  rewrite (execute_select _ _ _ t); [|exact Ht|rewrite Hc; reflexivity].
  unfold fetchone. rewrite fetchall_select. unfold visited.
  rewrite head_map_filter.
  rewrite (find_ext _ (fun r => rowid r =? id)); [reflexivity|].
  intros r. rewrite Hc. apply sql_eqb_int.
Qed.

(** Where the users table has the profile columns and the email is not
    taken, [create_user] stores the row under a fresh id and returns it as
    [get_user_by_id] reads it: the arguments, the id, the defaults of the
    ban columns and the instant of creation. *)
Theorem create_user_round_trip a d t email password_hash role username first_name
    last_name verified :
  d !! "users" = Some t ->
  t_cols t = (users_cols ++ profile_cols)%list ->
  t_checks t = [] ->
  unused_email t email ->
  let stored := Row (next_rowid t)
                  (user_fields_stored (clock a) email password_hash role username
                     first_name last_name verified) in
  let row := as_dict (t_cols t) user_fields stored in
  run (create_user email password_hash role username first_name last_name verified) a d
  = (<["users" := add_row t stored]> d, inr (Some row))
  /\ row !! "id" = Some (VInt (next_rowid t))
  /\ row !! "email" = Some (VText email)
  /\ row !! "role" = Some (VText role)
  /\ row !! "username" = Some (opt_text username)
  /\ row !! "first_name" = Some (opt_text first_name)
  /\ row !! "last_name" = Some (opt_text last_name)
  /\ row !! "verified" = Some (VInt verified)
  /\ row !! "is_banned" = Some (VInt 0)
  /\ row !! "banned_until" = Some VNull
  /\ row !! "created_at" = Some (VText (isoformat (clock a))).
Proof.
  intros Ht Hc Hk Hfree stored row. split.
  - apply (run_conn _ _ _ _ None).
    cbv beta iota zeta delta [create_user mbind M_bind get_connection utcnow disk].
    erewrite execute_insert;
      [|exact Ht|apply sql_insert_user; eassumption].
    cbv beta iota delta [commit close working txn disk lastrowid].
    fold stored.
    rewrite (get_user_by_id_run a _ (add_row t stored));
      [|apply lookup_insert_eq|exact Hc].
    cbn [t_rows add_row t_cols]. rewrite find_appended.
    + reflexivity.
    + eapply Forall_impl; [apply next_rowid_fresh|]. intros r Hr. cbn beta in Hr.
      apply Z.eqb_neq. lia.
    + apply Z.eqb_refl.
  - subst row stored. rewrite Hc. repeat split; vm_compute; reflexivity.
Qed.
End Users.

Section UsersSample.
Import RefCodec.

(** On the sample, whose users table has the profile columns, a third user
    gets id 3 and comes back with the arguments given. *)
Lemma create_user_round_trip_sample :
  exists row,
    (run (create_user "new@example.com" "pbkdf2:sha256:77aa" "candidate"
            (Some "newbie") None None 0) Sample.noon Sample.data).2 = inr (Some row)
    /\ row !! "id" = Some (VInt 3)
    /\ row !! "email" = Some (VText "new@example.com")
    /\ row !! "username" = Some (VText "newbie")
    /\ row !! "created_at" = Some (VText "2026-11-04T09:30:00").
Proof.
  destruct (create_user_round_trip Sample.noon Sample.data Sample.users
              "new@example.com" "pbkdf2:sha256:77aa" "candidate" (Some "newbie") None None 0
              eq_refl eq_refl eq_refl) as (Hrun & Hid & Hemail & _ & Huser & _).
  { repeat constructor. }
  eexists. split; [rewrite Hrun; reflexivity|].
  split; [exact Hid|]. split; [exact Hemail|]. split; [exact Huser|].
  vm_compute. reflexivity.
Defined.

End UsersSample.

(** ** Deleting a job, and the first initialisation *)

Section DeleteJob.
Context `{TimeCodec}.

(** [delete_job] removes the applications for the job, the ratings that
    target it and the job itself, and nothing else. *)
Theorem delete_job_cascades a d job_id ta tr tj :
  d !! "applications" = Some ta ->
  cols_exist (t_cols ta) ["user_id"; "job_id"] = true ->
  d !! "ratings" = Some tr ->
  cols_exist (t_cols tr) ["rater_id"; "target_type"; "target_id"] = true ->
  d !! "jobs" = Some tj ->
  cols_exist (t_cols tj) ["id"; "employer_id"] = true ->
  let ta' := remove_rows ta (col_is ta "job_id" (VInt job_id)) in
  let tr' := remove_rows tr (fun r => col_is tr "target_type" (VText "job") r
                                      && col_is tr "target_id" (VInt job_id) r) in
  let tj' := remove_rows tj (col_is tj "id" (VInt job_id)) in
  run (delete_job job_id) a d
  = (<["jobs" := tj']> (<["ratings" := tr']> (<["applications" := ta']> d)), inr true)
  /\ Forall (fun r => col_is ta "job_id" (VInt job_id) r = false) (t_rows ta')
  /\ Forall (fun r => col_is tj "id" (VInt job_id) r = false) (t_rows tj').
Proof.
  intros Ha Hac Hr Hrc Hj Hjc ta' tr' tj'.
  split; [now apply delete_job_run|]. split; apply removed_rows_forall.
Qed.

End DeleteJob.

Section DeleteJobSample.
Import RefCodec.

(** Deleting job 3 of the sample takes its application and its rating with
    it and leaves the two other jobs. *)
Lemma delete_job_cascades_sample :
  let d' := (run (delete_job 3) Sample.noon Sample.data).1 in
  (run (delete_job 3) Sample.noon Sample.data).2 = inr true
  /\ (t_rows <$> d' !! "applications")
     = Some [Sample.application_row 1 1 2; Sample.application_row 2 2 2]
  /\ (t_rows <$> d' !! "jobs")
     = Some [Sample.job_row 1 1 "Baker"; Sample.job_row 2 1 "Barista"]
  /\ d' !! "users" = Some Sample.users.
Proof.
  destruct (delete_job_cascades Sample.noon Sample.data 3
              Sample.applications Sample.ratings Sample.jobs
              eq_refl eq_refl eq_refl eq_refl eq_refl eq_refl) as [E _].
  rewrite E. cbn [fst snd]. split; [reflexivity|].
  repeat split; vm_compute; reflexivity.
Defined.

(** Initialising the sample, which has every table and both newer columns,
    keeps the three jobs. *)
Lemma init_db_keeps_rows_sample :
  exists t', (run init_db Sample.noon Sample.data).1 !! "jobs" = Some t'
             /\ t_rows t' = t_rows Sample.jobs.
Proof. exact (init_db_keeps_rows Sample.noon Sample.data "jobs" Sample.jobs eq_refl). Defined.

End DeleteJobSample.

(** ** Dictionaries *)

Section Dicts.
Context `{TimeCodec}.

Lemma fold_insert_lookup (l : list (string * value)) (acc : gmap string value) k :
  fold_left (fun d cv => <[cv.1 := cv.2]> d) l acc !! k
  = match last_set k l with
    | Some v => Some v
    | None => acc !! k
    end.
Proof.
  revert acc. induction l as [|nv l IH]; intros acc; [reflexivity|].
  cbn [fold_left last_set]. rewrite IH.
  destruct (last_set k l); [reflexivity|].
  destruct (String.eqb_spec nv.1 k) as [->|Hne].
  - apply lookup_insert_eq.
  - now apply lookup_insert_ne.
Qed.

Lemma last_set_zip_map (f : string -> value) names k :
  last_set k (zip names (map f names)) = if bool_decide (k ∈ names) then Some (f k) else None.
Proof.
  induction names as [|n names IH]; [reflexivity|].
  cbn [map zip zip_with last_set fst snd]. rewrite IH.
  destruct (bool_decide_reflect (k ∈ names)) as [Hin|Hnin].
  - rewrite bool_decide_eq_true_2; [reflexivity|]. now right.
  - destruct (String.eqb_spec n k) as [->|Hne].
    + rewrite bool_decide_eq_true_2; [reflexivity|]. now left.
    + rewrite bool_decide_eq_false_2; [reflexivity|].
      intros [E|Hin]%elem_of_cons; [congruence|contradiction].
Qed.

Lemma as_dict_lookup cols names r k :
  as_dict cols names r !! k
  = if bool_decide (k ∈ names) then Some (read_col cols r k) else None.
Proof.
  unfold as_dict, _row_factory. cbn [description].
  rewrite fold_insert_lookup, last_set_zip_map.
  destruct (bool_decide (k ∈ names)); [reflexivity|apply lookup_empty].
Qed.

Lemma as_dict_get cols names r k :
  k ∈ names -> dict_get (as_dict cols names r) k = read_col cols r k.
Proof.
  intros Hk. unfold dict_get. rewrite as_dict_lookup, bool_decide_eq_true_2 by exact Hk.
  reflexivity.
Qed.

End Dicts.

(** ** Look-ups and listings *)

Section Selects.
Context `{TimeCodec}.

(** The shape of a look-up: one SELECT, the first row. *)
Lemma lookup_run a d n t names w :
  d !! n = Some t ->
  cols_exist (t_cols t) (names ++ cond_cols w) = true ->
  run (_ ← get_connection;
       cur ← execute (SelectFrom names n w None None);
       let row := fetchone cur in
       _ ← close;
       mret row) a d
  = (d, inr (as_dict (t_cols t) names <$> find (matches (t_cols t) w) (t_rows t))).
Proof.
  intros Ht Hc. apply (run_conn _ _ _ _ None).
  unfold mbind, M_bind, get_connection, close.
  rewrite (execute_select _ _ _ t); [|exact Ht|cbn [order_cols]; now rewrite app_nil_r].
  unfold fetchone. rewrite fetchall_select. unfold visited.
  now rewrite head_map_filter.
Qed.

(** The shape of a listing: one SELECT with ORDER BY, every row. *)
Lemma listing_run a d n t names w order :
  d !! n = Some t ->
  cols_exist (t_cols t) (names ++ cond_cols w ++ [order]) = true ->
  run (_ ← get_connection;
       cur ← execute (SelectFrom names n w (Some order) None);
       let rows := fetchall cur in
       _ ← close;
       mret rows) a d
  = (d, inr (map (as_dict (t_cols t) names) (visited t w (Some order)))).
Proof.
  intros Ht Hc. apply (run_conn _ _ _ _ None).
  unfold mbind, M_bind, get_connection, close.
  rewrite (execute_select _ _ _ t); [|exact Ht|exact Hc].
  now rewrite fetchall_select.
Qed.

(** A SELECT that succeeds describes its result by the names it selected. *)
Lemma execute_select_shape a c names n w order limit c' cur :
  execute (SelectFrom names n w order limit) a c = (c', inr cur) ->
  c' = c /\ description cur = names.
Proof.
  unfold execute, exec_stmt, lookup_table. cbn [kind_of].
  destruct (working c !! n) as [t|]; cbn [mbind result_bind]; [|discriminate].
  unfold sql_select. destruct (cols_exist _ _); cbn [require mbind result_bind]; [|discriminate].
  destruct (apply_limit _ _); cbn [mbind result_bind]; [discriminate|].
  intros [= <- <-]. split; reflexivity.
Qed.

Lemma last_set_zip_key k (ns : list string) (r : list value) v :
  last_set k (zip ns r) = Some v -> k ∈ ns.
Proof.
  revert r v. induction ns as [|n ns IH]; intros r v E; [discriminate|].
  destruct r as [|x r]; [discriminate|]. cbn [zip zip_with last_set fst snd] in E.
  destruct (last_set k (zip ns r)) eqn:E'.
  - right. now apply (IH r v0).
  - destruct (String.eqb_spec n k) as [->|]; [now left|discriminate].
Qed.

Lemma row_factory_keys cur r k :
  k ∉ description cur -> _row_factory cur r !! k = None.
Proof.
  intros Hk. unfold _row_factory. rewrite fold_insert_lookup, lookup_empty.
  destruct (last_set k (zip (description cur) r)) as [v|] eqn:E; [|reflexivity].
  exfalso. apply Hk. exact (last_set_zip_key _ _ _ _ E).
Qed.

Lemma lookup_keys a d n names w row k :
  (run (_ ← get_connection;
        cur ← execute (SelectFrom names n w None None);
        let row := fetchone cur in
        _ ← close;
        mret row) a d).2 = inr (Some row) ->
  k ∉ names -> row !! k = None.
Proof.
  unfold run, mbind, M_bind, get_connection, close. cbn [disk].
  destruct (execute _ a (Conn d None)) as [c' [e|cur]] eqn:E; [discriminate|].
  apply execute_select_shape in E as [-> Hd]. cbn [snd mret M_ret].
  intros [= Hrow] Hk. unfold fetchone, fetchall in Hrow.
  destruct (fetched cur) as [|x xs]; [discriminate|]. injection Hrow as <-.
  apply row_factory_keys. now rewrite Hd.
Qed.

Lemma listing_keys a d n names w order rows k :
  (run (_ ← get_connection;
        cur ← execute (SelectFrom names n w order None);
        let rows := fetchall cur in
        _ ← close;
        mret rows) a d).2 = inr rows ->
  k ∉ names -> Forall (fun row => row !! k = None) rows.
Proof.
  unfold run, mbind, M_bind, get_connection, close. cbn [disk].
  destruct (execute _ a (Conn d None)) as [c' [e|cur]] eqn:E; [discriminate|].
  apply execute_select_shape in E as [-> Hd]. cbn [snd mret M_ret].
  intros [= <-] Hk. unfold fetchall. apply Forall_forall. intros row Hrow.
  apply list_elem_of_In, in_map_iff in Hrow as (x & <- & _).
  apply row_factory_keys. now rewrite Hd.
Qed.

(** The accessors that return users by id, by username and all of them
    never hand out the password hash, on any database. *)
Theorem password_hash_stays_private a d id username :
  (forall row, (run (get_user_by_id id) a d).2 = inr (Some row) ->
               row !! "password_hash" = None)
  /\ (forall row, (run (get_user_by_username username) a d).2 = inr (Some row) ->
                  row !! "password_hash" = None)
  /\ (forall rows, (run get_all_users a d).2 = inr rows ->
                   Forall (fun row => row !! "password_hash" = None) rows).
Proof.
  assert (Hk : "password_hash" ∉ user_fields) by (apply (bool_decide_eq_false_1 _); reflexivity).
  split; [|split].
  - intros row Hrow. exact (lookup_keys a d _ _ _ row _ Hrow Hk).
  - intros row Hrow. exact (lookup_keys a d _ _ _ row _ Hrow Hk).
  - intros rows Hrows. exact (listing_keys a d _ _ _ _ rows _ Hrows Hk).
Qed.

End Selects.

(** ** The order of a listing *)

Section Order.
Context `{TimeCodec}.

Lemma value_compare_antisym a b : value_compare b a = CompOpp (value_compare a b).
Proof.
  destruct a, b; cbn; try reflexivity.
  - apply Z.compare_antisym.
  - symmetry. apply Qcompare_antisym.
  - symmetry. apply Qcompare_antisym.
  - symmetry. apply Qcompare_antisym.
  - apply String.compare_antisym.
Qed.

Lemma descending_insert key r l :
  descending (map key l) -> descending (map key (insert_desc key r l)).
Proof.
  induction l as [|x xs IH]; intros Hd; [cbn; auto|].
  cbn [insert_desc].
  destruct (value_compare (key x) (key r)) eqn:E.
  - cbn [map descending]. split; [|exact Hd].
    rewrite (value_compare_antisym (key x) (key r)), E. discriminate.
  - cbn [map descending]. split; [|exact Hd].
    rewrite (value_compare_antisym (key x) (key r)), E. discriminate.
  - cbn [map descending] in Hd |- *. destruct Hd as [Hx Hxs].
    split; [|now apply IH].
    destruct xs as [|y ys]; cbn [insert_desc map]; [congruence|].
    destruct (value_compare (key y) (key r)); cbn [map]; congruence.
Qed.

Lemma descending_sort key l : descending (map key (sort_desc key l)).
Proof.
  induction l as [|x xs IH]; [exact I|]. cbn [sort_desc foldr].
  now apply descending_insert.
Qed.

Lemma column_of_as_dict cols names k rows :
  k ∈ names ->
  column_of k (map (as_dict cols names) rows) = map (fun r => read_col cols r k) rows.
Proof.
  intros Hk. unfold column_of. rewrite map_map. apply map_ext.
  intros r. now apply as_dict_get.
Qed.

Lemma visited_perm t w o :
  Permutation (visited t w (Some o)) (List.filter (matches (t_cols t) w) (t_rows t)).
Proof. unfold visited. apply sort_desc_perm. Qed.

Lemma visited_descending t w o :
  descending (map (fun r => read_col (t_cols t) r o) (visited t w (Some o))).
Proof. unfold visited. apply descending_sort. Qed.

End Order.

(** ** Users: listing, and the username that is none *)

Ltac listed := apply (bool_decide_eq_true_1 _); reflexivity.
Ltac not_listed := apply (bool_decide_eq_false_1 _); reflexivity.

Section UserListing.
Context `{TimeCodec}.

(** [get_all_users] returns one dictionary for every row of users, the
    newest first, and changes nothing. *)
Theorem get_all_users_lists_everyone a d t :
  d !! "users" = Some t ->
  cols_exist (t_cols t) user_fields = true ->
  exists rows,
    run get_all_users a d = (d, inr rows)
    /\ length rows = length (t_rows t)
    /\ (forall r, r ∈ t_rows t -> as_dict (t_cols t) user_fields r ∈ rows)
    /\ descending (column_of "created_at" rows).
Proof.
  intros Ht Hc. eexists. split; [|split; [|split]].
  - apply (listing_run a d "users" t user_fields CTrue "created_at" Ht).
    apply (cols_exist_incl _ _ _ Hc). intros x Hx. cbn in *. tauto.
  - rewrite length_map. apply Permutation_length, visited_all.
  - intros r Hr. apply list_elem_of_In, in_map.
    eapply Permutation_in; [symmetry; apply visited_all|]. now apply list_elem_of_In.
  - rewrite column_of_as_dict by listed. apply visited_descending.
Qed.

Lemma sql_eqb_null v : sql_eqb v VNull = false.
Proof. now destruct v. Qed.

Lemma find_never {A : Type} (p : A -> bool) (l : list A) :
  (forall x, p x = false) -> find p l = None.
Proof. intros Hp. induction l as [|x l IH]; [reflexivity|]. cbn. now rewrite Hp. Qed.

(** Looking up the username [None] finds nobody, whoever is stored: a NULL
    username equals nothing, not even NULL. *)
Theorem get_user_by_username_none a d t :
  d !! "users" = Some t ->
  cols_exist (t_cols t) user_fields = true ->
  run (get_user_by_username None) a d = (d, inr None).
Proof.
  intros Ht Hc.
  unfold get_user_by_username.
  rewrite (lookup_run a d "users" t user_fields _ Ht).
  - rewrite find_never; [reflexivity|]. intros r. rewrite matches_eq. apply sql_eqb_null.
  - apply (cols_exist_incl _ _ _ Hc). intros x Hx. cbn in *. tauto.
Qed.

End UserListing.

(** ** Users: the accessors on a database that [init_db] created *)

Section FreshUsers.
Context `{TimeCodec}.

Lemma execute_update_fails a c n t sets w e :
  working c !! n = Some t ->
  sql_update t sets w = inl e ->
  execute (UpdateSet n sets w) a c = (c, inl e).
Proof.
  intros Ht Hs. unfold execute, exec_stmt, lookup_table. rewrite Ht.
  cbn [mbind result_bind]. now rewrite Hs.
Qed.

Lemma update_where_empty t sets w : t_rows t = [] -> update_where t sets w = t.
Proof. intros E. apply update_where_none. now rewrite E. Qed.

(** On the database [init_db] creates from nothing, every accessor that
    names a profile column raises; those that name only the columns of the
    CREATE TABLE work, and find nobody. *)
Theorem profile_accessors_raise_on_fresh_database a a' email username password_hash
    user_id banned_until_iso :
  let fresh := (run init_db a ∅).1 in
  run (get_user_by_email email) a' fresh
  = (fresh, inl (OperationalError "no such column"))
  /\ run (get_user_by_username username) a' fresh
     = (fresh, inl (OperationalError "no such column"))
  /\ run get_all_users a' fresh = (fresh, inl (OperationalError "no such column"))
  /\ run (set_user_verified email) a' fresh
     = (fresh, inl (OperationalError "no such column"))
  /\ run (update_user_password email password_hash) a' fresh = (fresh, inr false)
  /\ run (set_user_ban user_id banned_until_iso) a' fresh = (fresh, inr true)
  /\ run (unset_user_ban user_id) a' fresh = (fresh, inr true).
Proof.
  intros fresh. pose proof (fresh_users a) as Hu. fold fresh in Hu.
  assert (Hcols : t_cols (new_table users_cols [] []) = (users_cols ++ [])%list)
    by reflexivity.
  refine (conj _ (conj _ (conj _ (conj _ (conj _ (conj _ _)))))).
  - apply (run_conn _ _ _ _ None).
    cbv beta iota zeta delta [get_user_by_email mbind M_bind get_connection disk].
    erewrite execute_select_fails; [reflexivity|exact Hu|reflexivity].
  - apply (run_conn _ _ _ _ None).
    cbv beta iota zeta delta [get_user_by_username mbind M_bind get_connection disk].
    erewrite execute_select_fails; [reflexivity|exact Hu|reflexivity].
  - apply (run_conn _ _ _ _ None).
    cbv beta iota zeta delta [get_all_users mbind M_bind get_connection disk].
    erewrite execute_select_fails; [reflexivity|exact Hu|reflexivity].
  - apply (run_conn _ _ _ _ None).
    cbv beta iota zeta delta [set_user_verified mbind M_bind get_connection disk].
    erewrite execute_update_fails; [reflexivity|exact Hu|reflexivity].
  - rewrite (update_user_password_run a' fresh _ [] email password_hash Hu Hcols eq_refl).
    rewrite update_where_empty by reflexivity. now rewrite insert_id.
  - destruct (set_user_ban_run a' fresh _ [] user_id banned_until_iso Hu Hcols eq_refl)
      as [sets ->].
    rewrite update_where_empty by reflexivity. now rewrite insert_id.
  - rewrite (unset_user_ban_run a' fresh _ [] user_id Hu Hcols eq_refl).
    rewrite update_where_empty by reflexivity. now rewrite insert_id.
Qed.

End FreshUsers.

(** ** Users: an email that is taken *)

Section TakenEmail.
Context `{TimeCodec}.

Lemma exists_not_all {A : Type} (p : A -> bool) (l : list A) :
  existsb p l = true -> forallb (fun x => negb (p x)) l = false.
Proof.
  induction l as [|x l IH]; [discriminate|]. cbn.
  destruct (p x); [reflexivity|exact IH].
Qed.

Lemma sql_insert_user_taken now t email password_hash role username first_name last_name
    verified :
  t_cols t = (users_cols ++ profile_cols)%list ->
  t_checks t = [] ->
  existsb (col_is t "email" (VText email)) (t_rows t) = true ->
  sql_insert now t
    ["email"; "password_hash"; "role"; "username"; "first_name"; "last_name";
     "verified"; "created_at"]
    [VText email; VText password_hash; VText role; opt_text username;
     opt_text first_name; opt_text last_name; VInt verified; VText (isoformat now)]
  = inl (IntegrityError "UNIQUE constraint failed").
Proof.
  intros Hc Hk Htaken. apply exists_not_all in Htaken. unfold col_is in Htaken.
  unfold sql_insert. rewrite Hk. rewrite Hc in *.
  cbn -[next_rowid Z.max read_col sql_eqb]. unfold supplied.
  cbn [c_name c_default not_null_col col created_at_col]. eval_lookups.
  cbn -[next_rowid Z.max read_col sql_eqb].
  unfold unique_ok. cbn [c_unique c_name negb orb].
  match goal with
  | |- context [forallb ?f (t_rows t)] =>
      replace (forallb f (t_rows t)) with false by (symmetry; exact Htaken)
  end.
  reflexivity.
Qed.

(** [create_user] with an email some user already has raises the integrity
    error of the UNIQUE constraint and stores nothing. *)
Theorem create_user_rejects_taken_email a d t email password_hash role username first_name
    last_name verified :
  d !! "users" = Some t ->
  t_cols t = (users_cols ++ profile_cols)%list ->
  t_checks t = [] ->
  existsb (col_is t "email" (VText email)) (t_rows t) = true ->
  run (create_user email password_hash role username first_name last_name verified) a d
  = (d, inl (IntegrityError "UNIQUE constraint failed")).
Proof.
  intros Ht Hc Hk Htaken. apply (run_conn _ _ _ _ None).
  cbv beta iota zeta delta [create_user mbind M_bind get_connection utcnow disk].
  erewrite execute_insert_fails;
    [reflexivity|exact Ht|apply sql_insert_user_taken; assumption].
Qed.

End TakenEmail.

Section TakenEmailSample.
Import RefCodec.

(** On the sample, the candidate's address cannot be registered again. *)
Lemma create_user_rejects_taken_email_sample :
  run (create_user "cand@example.com" "pbkdf2:sha256:77aa" "candidate" None None None 0)
    Sample.noon Sample.data
  = (Sample.data, inl (IntegrityError "UNIQUE constraint failed")).
Proof.
  exact (create_user_rejects_taken_email Sample.noon Sample.data Sample.users
           "cand@example.com" "pbkdf2:sha256:77aa" "candidate" None None None 0
           eq_refl eq_refl eq_refl eq_refl).
Defined.
End TakenEmailSample.

(** ** Users: finding the user that was created *)

Section CreatedUser.
Context `{TimeCodec}.

Lemma create_user_run a d t email password_hash role username first_name last_name
    verified :
  d !! "users" = Some t ->
  t_cols t = (users_cols ++ profile_cols)%list ->
  t_checks t = [] ->
  unused_email t email ->
  let stored := Row (next_rowid t)
                  (user_fields_stored (clock a) email password_hash role username
                     first_name last_name verified) in
  run (create_user email password_hash role username first_name last_name verified) a d
  = (<["users" := add_row t stored]> d, inr (Some (as_dict (t_cols t) user_fields stored))).
Proof.
  intros Ht Hc Hk Hfree stored. apply (run_conn _ _ _ _ None).
  cbv beta iota zeta delta [create_user mbind M_bind get_connection utcnow disk].
  erewrite execute_insert; [|exact Ht|apply sql_insert_user; eassumption].
  cbv beta iota delta [commit close working txn disk lastrowid].
  fold stored.
  rewrite (get_user_by_id_run a _ (add_row t stored)); [|apply lookup_insert_eq|exact Hc].
  cbn [t_rows add_row t_cols]. rewrite find_appended.
  - reflexivity.
  - eapply Forall_impl; [apply next_rowid_fresh|]. intros r Hr. cbn beta in Hr.
    apply Z.eqb_neq. lia.
  - apply Z.eqb_refl.
Qed.

Lemma sql_eqb_text a b : sql_eqb (VText a) (VText b) = (a =? b)%string.
Proof.
  unfold sql_eqb. cbn. destruct (String.eqb_spec a b) as [->|Hne].
  - now rewrite string_compare_refl.
  - destruct (String.compare a b) eqn:E; try reflexivity.
    apply String.compare_eq_iff in E. contradiction.
Qed.

(** The user [create_user] stored is the one the three look-ups find: by
    the id returned, by the username and by the email, the last with the
    password hash besides. *)
Theorem created_user_is_found a a' d t email password_hash role username first_name
    last_name verified :
  d !! "users" = Some t ->
  t_cols t = (users_cols ++ profile_cols)%list ->
  t_checks t = [] ->
  unused_email t email ->
  Forall (fun r => col_is t "username" (VText username) r = false) (t_rows t) ->
  let created := run (create_user email password_hash role (Some username) first_name
                        last_name verified) a d in
  exists row,
    created.2 = inr (Some row)
    /\ row !! "id" = Some (VInt (next_rowid t))
    /\ run (get_user_by_id (next_rowid t)) a' created.1 = (created.1, inr (Some row))
    /\ run (get_user_by_username (Some username)) a' created.1
       = (created.1, inr (Some row))
    /\ run (get_user_by_email email) a' created.1
       = (created.1, inr (Some (<["password_hash" := VText password_hash]> row))).
Proof.
  intros Ht Hc Hk Hfree Hname created. subst created.
  rewrite (create_user_run a d t email password_hash role (Some username) first_name
             last_name verified Ht Hc Hk Hfree).
  cbn [fst snd].
  set (stored := Row (next_rowid t) _).
  set (d1 := <["users" := add_row t stored]> d).
  assert (H1 : d1 !! "users" = Some (add_row t stored)) by apply lookup_insert_eq.
  eexists. split; [reflexivity|]. split; [|split; [|split]].
  - rewrite as_dict_lookup, bool_decide_eq_true_2 by listed.
    rewrite Hc. reflexivity.
  - apply (run_conn _ _ _ _ None).
    rewrite (get_user_by_id_run a' d1 (add_row t stored) _ H1 Hc).
    cbn [t_rows add_row t_cols]. rewrite find_appended; [reflexivity| |apply Z.eqb_refl].
    eapply Forall_impl; [apply next_rowid_fresh|]. intros r Hr. cbn beta in Hr.
    apply Z.eqb_neq. lia.
  - unfold get_user_by_username.
    rewrite (lookup_run a' d1 "users" (add_row t stored) user_fields _ H1);
      [|cbn [t_cols add_row]; rewrite Hc; reflexivity].
    cbn [t_rows add_row t_cols]. rewrite find_appended; [reflexivity| |].
    + eapply Forall_impl; [exact Hname|]. intros r Hr. cbn beta in Hr.
      now rewrite matches_eq.
    + rewrite matches_eq, Hc. cbn [opt_text]. subst stored.
      unfold read_col. cbn. apply sql_eqb_text_refl.
  - unfold get_user_by_email.
    rewrite (lookup_run a' d1 "users" (add_row t stored) _ _ H1);
      [|cbn [t_cols add_row]; rewrite Hc; reflexivity].
    cbn [t_rows add_row t_cols]. rewrite find_appended.
    + cbn [fmap option_fmap option_map]. do 3 f_equal.
      apply map_eq. intros k.
      destruct (decide (k = "password_hash")) as [->|Hne].
      * rewrite lookup_insert_eq, as_dict_lookup, bool_decide_eq_true_2 by listed.
        rewrite Hc. reflexivity.
      * rewrite lookup_insert_ne by congruence. rewrite !as_dict_lookup.
        erewrite bool_decide_ext; [reflexivity|].
        unfold user_fields. rewrite !elem_of_cons, !elem_of_nil. tauto.
    + exact Hfree.
    + rewrite matches_eq, Hc. subst stored. unfold read_col. cbn.
      apply sql_eqb_text_refl.
Qed.

End CreatedUser.

Section CreatedUserSample.
Import RefCodec.

(** On the sample, the third user is found by username and by email. *)
Lemma created_user_is_found_sample :
  let created := run (create_user "new@example.com" "pbkdf2:sha256:77aa" "candidate"
                        (Some "newbie") None None 0) Sample.noon Sample.data in
  exists row,
    created.2 = inr (Some row)
    /\ row !! "id" = Some (VInt 3)
    /\ run (get_user_by_username (Some "newbie")) Sample.later created.1
       = (created.1, inr (Some row))
    /\ run (get_user_by_email "new@example.com") Sample.later created.1
       = (created.1, inr (Some (<["password_hash" := VText "pbkdf2:sha256:77aa"]> row))).
Proof.
  destruct (created_user_is_found Sample.noon Sample.later Sample.data Sample.users
              "new@example.com" "pbkdf2:sha256:77aa" "candidate" "newbie" None None 0
              eq_refl eq_refl eq_refl)
    as (row & Hc & Hid & _ & Hname & Hemail).
  { repeat constructor. }
  { repeat constructor. }
  exists row. split; [exact Hc|]. split; [exact Hid|]. split; [exact Hname|exact Hemail].
Defined.
End CreatedUserSample.

(** ** Reading a row back after an UPDATE *)

Section Rewritten.
Context `{TimeCodec}.

Lemma read_col_patched cols arg r r' k :
  patched arg r r' ->
  read_col cols r' k
  = match arg k, find_col cols k with
    | Some v, Some c => if c_pk c then VInt (rowid r) else v
    | _, _ => read_col cols r k
    end.
Proof.
  intros [Hid Hf]. unfold read_col. rewrite Hid, Hf.
  destruct (arg k), (find_col cols k) as [c|]; reflexivity.
Qed.

Lemma last_set_In k sets v : last_set k sets = Some v -> In (k, v) sets.
Proof.
  induction sets as [|nv sets IH]; [discriminate|]. cbn [last_set].
  destruct (last_set k sets) as [v'|].
  - intros [= <-]. right. now apply IH.
  - destruct (String.eqb_spec nv.1 k) as [<-|]; [|discriminate].
    intros [= <-]. left. now destruct nv.
Qed.

Lemma read_col_assign cols sets r k :
  forallb (fun nv => plain_name cols nv.1) sets = true ->
  read_col cols (assign cols sets r) k
  = match last_set k sets with
    | Some v => v
    | None => read_col cols r k
    end.
Proof.
  intros Hp. rewrite (read_col_patched cols _ r _ k (assign_plain cols sets Hp r)).
  destruct (last_set k sets) as [v|] eqn:E; [|reflexivity].
  apply last_set_In in E. rewrite forallb_forall in Hp. apply Hp in E.
  unfold plain_name in E. cbn [fst] in E.
  destruct (find_col cols k) as [c|]; [|discriminate]. now destruct (c_pk c).
Qed.

(** The dictionary read from a rewritten row is the dictionary read before
    with the assignments made to it. *)
Lemma as_dict_assign cols names sets r :
  forallb (fun nv => plain_name cols nv.1) sets = true ->
  Forall (fun nv => nv.1 ∈ names) sets ->
  as_dict cols names (assign cols sets r)
  = fold_left (fun d nv => <[nv.1 := nv.2]> d) sets (as_dict cols names r).
Proof.
  intros Hp Hin. apply map_eq. intros k.
  rewrite fold_insert_lookup, !as_dict_lookup, read_col_assign by exact Hp.
  destruct (last_set k sets) as [v|] eqn:E; [|reflexivity].
  apply last_set_In in E. rewrite Forall_forall in Hin.
  apply list_elem_of_In, Hin in E. cbn [fst] in E.
  now rewrite bool_decide_eq_true_2.
Qed.

Lemma eval_cond_same cols r r' w :
  (forall k, In k (cond_cols w) -> read_col cols r' k = read_col cols r k) ->
  eval_cond cols r' w = eval_cond cols r w.
Proof.
  induction w as [|c op v|x IHx y IHy|x IHx y IHy]; intros Hk; cbn [eval_cond].
  - reflexivity.
  - rewrite Hk; [reflexivity|]. now left.
  - rewrite IHx, IHy; [reflexivity| |]; intros k Hin; apply Hk; cbn; apply in_or_app; auto.
  - rewrite IHx, IHy; [reflexivity| |]; intros k Hin; apply Hk; cbn; apply in_or_app; auto.
Qed.

Lemma find_map_same {A : Type} (p : A -> bool) (g : A -> A) (l : list A) :
  (forall x, p (g x) = p x) -> find p (map g l) = g <$> find p l.
Proof.
  intros E. induction l as [|x l IH]; [reflexivity|]. cbn [map find].
  rewrite E. destruct (p x); [reflexivity|exact IH].
Qed.

(** An UPDATE that assigns none of the columns its WHERE reads leaves the
    same rows matching: the first of them is the one that was, rewritten. *)
Lemma find_updated t sets w r :
  forallb (fun nv => plain_name (t_cols t) nv.1) sets = true ->
  (forall k, In k (cond_cols w) -> last_set k sets = None) ->
  find (matches (t_cols t) w) (t_rows t) = Some r ->
  find (matches (t_cols t) w) (t_rows (update_where t sets w))
  = Some (assign (t_cols t) sets r).
Proof.
  intros Hp Hw Hfind.
  assert (Hsame : forall x, matches (t_cols t) w (assign (t_cols t) sets x)
                            = matches (t_cols t) w x).
  { intros x. unfold matches. rewrite (eval_cond_same _ x); [reflexivity|].
    intros k Hk. rewrite read_col_assign by exact Hp. now rewrite (Hw k Hk). }
  cbn [update_where t_rows t_cols]. rewrite find_map_same.
  - rewrite Hfind. cbn. destruct (find_holds _ _ _ Hfind) as [Hm _]. now rewrite Hm.
  - intros x. destruct (matches (t_cols t) w x) eqn:E; [|exact E].
    now rewrite Hsame.
Qed.

(** What a look-up returns after an UPDATE with the same WHERE. *)
Lemma lookup_after_update a d t n names sets w r :
  d !! n = Some t ->
  cols_exist (t_cols t) (names ++ cond_cols w) = true ->
  forallb (fun nv => plain_name (t_cols t) nv.1) sets = true ->
  Forall (fun nv => nv.1 ∈ names) sets ->
  (forall k, In k (cond_cols w) -> last_set k sets = None) ->
  find (matches (t_cols t) w) (t_rows t) = Some r ->
  let d1 := <[n := update_where t sets w]> d in
  run (_ ← get_connection;
       cur ← execute (SelectFrom names n w None None);
       let row := fetchone cur in
       _ ← close;
       mret row) a d1
  = (d1, inr (Some (fold_left (fun d nv => <[nv.1 := nv.2]> d) sets
                      (as_dict (t_cols t) names r)))).
Proof.
  intros Ht Hc Hp Hin Hw Hfind d1.
  rewrite (lookup_run a d1 n (update_where t sets w) names w);
    [|apply lookup_insert_eq|exact Hc].
  change (t_cols (update_where t sets w)) with (t_cols t).
  rewrite (find_updated t sets w r Hp Hw Hfind). cbn [fmap option_fmap option_map].
  now rewrite as_dict_assign.
Qed.

End Rewritten.

(** ** Users: the hash, the verified flag and the ban *)

Section UserUpdates.
Context `{TimeCodec}.

Lemma found_exists {A : Type} (p : A -> bool) (l : list A) x :
  find p l = Some x -> existsb p l = true.
Proof.
  intros Hf. apply find_some in Hf as [Hin Hp]. apply existsb_exists. eauto.
Qed.

(** The two updates keyed by email: after [update_user_password] the user
    reads back, by email, as before with the new hash in place of the old,
    and after [set_user_verified] as before with [verified] set to 1; each
    call reports that it found the user. *)
Theorem email_keyed_updates_round_trip a a' d t email password_hash r :
  d !! "users" = Some t ->
  t_cols t = (users_cols ++ profile_cols)%list ->
  t_checks t = [] ->
  find (col_is t "email" (VText email)) (t_rows t) = Some r ->
  let rehashed := run (update_user_password email password_hash) a d in
  let verified := run (set_user_verified email) a d in
  exists before,
    run (get_user_by_email email) a d = (d, inr (Some before))
    /\ rehashed.2 = inr true
    /\ run (get_user_by_email email) a' rehashed.1
       = (rehashed.1, inr (Some (<["password_hash" := VText password_hash]> before)))
    /\ verified.2 = inr true
    /\ run (get_user_by_email email) a' verified.1
       = (verified.1, inr (Some (<["verified" := VInt 1]> before))).
Proof.
  intros Ht Hc Hk Hfind rehashed verified. subst rehashed verified.
  rewrite (update_user_password_run a d t profile_cols email password_hash Ht Hc Hk).
  rewrite (set_user_verified_run a d t profile_cols _ email Ht Hc Hk
             eq_refl eq_refl eq_refl).
  cbn [fst snd]. rewrite (found_exists _ _ _ Hfind).
  exists (as_dict (t_cols t) email_fields r).
  split; [|split; [reflexivity|split; [|split; [reflexivity|]]]].
  - unfold get_user_by_email.
    rewrite (lookup_run a d "users" t _ _ Ht); [|rewrite Hc; reflexivity].
    change (matches (t_cols t) (CCmp "email" OpEq (VText email)))
      with (col_is t "email" (VText email)).
    now rewrite Hfind.
  - unfold get_user_by_email.
    apply (lookup_after_update a' d t "users" email_fields
             [("password_hash", VText password_hash)]
             (CCmp "email" OpEq (VText email)) r Ht).
    + rewrite Hc. reflexivity.
    + rewrite Hc. reflexivity.
    + repeat constructor.
    + intros k [<-|[]]. reflexivity.
    + exact Hfind.
  - unfold get_user_by_email.
    apply (lookup_after_update a' d t "users" email_fields [("verified", VInt 1)]
             (CCmp "email" OpEq (VText email)) r Ht).
    + rewrite Hc. reflexivity.
    + rewrite Hc. reflexivity.
    + repeat constructor.
    + intros k [<-|[]]. reflexivity.
    + exact Hfind.
Qed.

Lemma set_user_ban_state a d tu extra uid until :
  d !! "users" = Some tu -> t_cols tu = (users_cols ++ extra)%list -> t_checks tu = [] ->
  run (set_user_ban uid until) a d
  = (<["users" := update_where tu [("is_banned", VInt 1); ("banned_until", ban_until until)]
                    (CCmp "id" OpEq (VInt uid))]> d, inr true).
Proof.
  intros Hu Hcols Hk. unfold set_user_ban, ban_until.
  destruct (truthy (opt_text until));
    apply (run_update a d "users" tu _ _ (fun _ => true) Hu); try exact Hk;
    rewrite Hcols; reflexivity.
Qed.

(** After [set_user_ban] the user reads back as before with [is_banned] 1
    and [banned_until] the string given, or NULL when none or an empty one
    was given; after [unset_user_ban] with [is_banned] 0 and [banned_until]
    NULL, whatever the ban was. *)
Theorem ban_round_trip a a1 a2 a3 d t user_id banned_until_iso r :
  d !! "users" = Some t ->
  t_cols t = (users_cols ++ profile_cols)%list ->
  t_checks t = [] ->
  find (col_is t "id" (VInt user_id)) (t_rows t) = Some r ->
  let banned := (run (set_user_ban user_id banned_until_iso) a d).1 in
  let freed := (run (unset_user_ban user_id) a2 banned).1 in
  exists before,
    run (get_user_by_id user_id) a d = (d, inr (Some before))
    /\ run (get_user_by_id user_id) a1 banned
       = (banned, inr (Some (<["banned_until" := ban_until banned_until_iso]>
                               (<["is_banned" := VInt 1]> before))))
    /\ run (get_user_by_id user_id) a3 freed
       = (freed, inr (Some (<["banned_until" := VNull]>
                              (<["is_banned" := VInt 0]> before)))).
Proof.
  intros Ht Hc Hk Hfind banned freed.
  set (w := CCmp "id" OpEq (VInt user_id)).
  set (s1 := [("is_banned", VInt 1); ("banned_until", ban_until banned_until_iso)]).
  set (s0 := [("is_banned", VInt 0); ("banned_until", VNull)]).
  assert (Hb : banned = <["users" := update_where t s1 w]> d).
  { subst banned. now rewrite (set_user_ban_state a d t profile_cols). }
  assert (Hp1 : forallb (fun nv => plain_name (t_cols t) nv.1) s1 = true)
    by (rewrite Hc; reflexivity).
  assert (Hp0 : forallb (fun nv => plain_name (t_cols t) nv.1) s0 = true)
    by (rewrite Hc; reflexivity).
  assert (Hw : forall s, (forall k, In k (map fst s) -> k <> "id") ->
                         forall k, In k (cond_cols w) -> last_set k s = None).
  { intros s Hs k [<-|[]]. destruct (last_set "id" s) as [v|] eqn:E; [|reflexivity].
    apply last_set_In in E. exfalso. apply (Hs "id"); [|reflexivity].
    apply in_map_iff. now exists ("id", v). }
  assert (Hf1 : find (matches (t_cols t) w) (t_rows (update_where t s1 w))
                = Some (assign (t_cols t) s1 r)).
  { apply find_updated; [exact Hp1| |exact Hfind].
    apply Hw. intros k [<-|[<-|[]]]; discriminate. }
  assert (Hbu : banned !! "users" = Some (update_where t s1 w))
    by (rewrite Hb; apply lookup_insert_eq).
  assert (Hfr : freed = <["users" := update_where (update_where t s1 w) s0 w]> banned).
  { subst freed.
    now rewrite (unset_user_ban_run a2 banned (update_where t s1 w) profile_cols user_id). }
  exists (as_dict (t_cols t) user_fields r). split; [|split].
  - unfold get_user_by_id.
    rewrite (lookup_run a d "users" t _ _ Ht); [|rewrite Hc; reflexivity].
    fold w. change (col_is t "id" (VInt user_id)) with (matches (t_cols t) w) in Hfind.
    now rewrite Hfind.
  - rewrite Hb. unfold get_user_by_id.
    apply (lookup_after_update a1 d t "users" user_fields s1 w r Ht).
    + rewrite Hc. reflexivity.
    + exact Hp1.
    + repeat constructor.
    + apply Hw. intros k [<-|[<-|[]]]; discriminate.
    + exact Hfind.
  - rewrite Hfr. unfold get_user_by_id.
    rewrite (lookup_after_update a3 banned (update_where t s1 w) "users" user_fields s0 w
               (assign (t_cols t) s1 r) Hbu);
      change (t_cols (update_where t s1 w)) with (t_cols t).
    + rewrite as_dict_assign; [|exact Hp1|repeat constructor].
      cbn [fold_left fst snd]. do 3 f_equal.
    + rewrite Hc. reflexivity.
    + exact Hp0.
    + repeat constructor.
    + apply Hw. intros k [<-|[<-|[]]]; discriminate.
    + exact Hf1.
Qed.


End UserUpdates.

Section UserUpdatesSample.
Import RefCodec.

(** On the sample: the candidate's hash is replaced, or the candidate is
    marked verified, and nothing else of the row changes. *)
Lemma email_keyed_updates_round_trip_sample :
  let rehashed := run (update_user_password "cand@example.com" "pbkdf2:sha256:9c2b")
                    Sample.noon Sample.data in
  let verified := run (set_user_verified "cand@example.com") Sample.noon Sample.data in
  exists before,
    run (get_user_by_email "cand@example.com") Sample.noon Sample.data
    = (Sample.data, inr (Some before))
    /\ rehashed.2 = inr true
    /\ run (get_user_by_email "cand@example.com") Sample.later rehashed.1
       = (rehashed.1, inr (Some (<["password_hash" := VText "pbkdf2:sha256:9c2b"]> before)))
    /\ verified.2 = inr true
    /\ run (get_user_by_email "cand@example.com") Sample.later verified.1
       = (verified.1, inr (Some (<["verified" := VInt 1]> before))).
Proof.
  exact (email_keyed_updates_round_trip Sample.noon Sample.later Sample.data Sample.users
           "cand@example.com" "pbkdf2:sha256:9c2b"
           (Sample.user_row 2 "cand@example.com" "candidate" "cand")
           eq_refl eq_refl eq_refl eq_refl).
Defined.

(** On the sample: banning user 2 with an empty end date stores NULL for
    it. *)
Lemma ban_round_trip_sample :
  let banned := (run (set_user_ban 2 (Some "")) Sample.noon Sample.data).1 in
  let freed := (run (unset_user_ban 2) Sample.later banned).1 in
  exists before,
    run (get_user_by_id 2) Sample.noon Sample.data = (Sample.data, inr (Some before))
    /\ run (get_user_by_id 2) Sample.noon banned
       = (banned, inr (Some (<["banned_until" := VNull]>
                               (<["is_banned" := VInt 1]> before))))
    /\ run (get_user_by_id 2) Sample.later freed
       = (freed, inr (Some (<["banned_until" := VNull]>
                              (<["is_banned" := VInt 0]> before)))).
Proof.
  exact (ban_round_trip Sample.noon Sample.noon Sample.later Sample.later Sample.data
           Sample.users 2 (Some "")
           (Sample.user_row 2 "cand@example.com" "candidate" "cand")
           eq_refl eq_refl eq_refl eq_refl).
Defined.

End UserUpdatesSample.

(** ** Jobs: creating and listing *)

Section Jobs.
Context `{TimeCodec}.

Lemma sql_insert_job now t employer_id title description location_text lat lng salary tags :
  t_cols t = jobs_cols ->
  t_checks t = [] ->
  sql_insert now t
    ["employer_id"; "title"; "description"; "location_text"; "lat"; "lng";
     "salary"; "tags"; "created_at"]
    [VInt employer_id; VText title; VText description; opt_text location_text;
     opt_real lat; opt_real lng; VText salary; opt_text tags; VText (isoformat now)]
  = inr (add_row t (Row (next_rowid t)
           (job_fields_stored now employer_id title description location_text lat lng
              salary tags)),
         next_rowid t).
Proof.
  intros Hc Hk. unfold sql_insert, add_row. rewrite Hc, Hk.
  cbn -[next_rowid Z.max Z.leb]. unfold supplied.
  cbn [c_name not_null_col col created_at_col].
  eval_lookups. reflexivity.
Qed.

Lemma find_fresh t :
  forall r, rowid r = next_rowid t ->
  find (fun x => rowid x =? next_rowid t) (t_rows t ++ [r]) = Some r.
Proof.
  intros r Hr. apply find_appended.
  - eapply Forall_impl; [apply next_rowid_fresh|]. intros x Hx. cbn beta in Hx.
    apply Z.eqb_neq. lia.
  - rewrite Hr. apply Z.eqb_refl.
Qed.

(** On a jobs table as [init_db] declares it, [create_job] stores the row
    under an id no job has and returns it as [get_job_by_id] reads it: the
    arguments, the id and the instant of creation.  Nothing is asked of the
    employer: no table of users is looked at. *)
Theorem create_job_round_trip a a' d t employer_id title description location_text lat lng
    salary tags :
  d !! "jobs" = Some t ->
  t_cols t = jobs_cols ->
  t_checks t = [] ->
  let stored := Row (next_rowid t)
                  (job_fields_stored (clock a) employer_id title description location_text
                     lat lng salary tags) in
  let row := as_dict jobs_cols job_fields stored in
  let d1 := <["jobs" := add_row t stored]> d in
  run (create_job employer_id title description location_text lat lng salary tags) a d
  = (d1, inr (Some row))
  /\ run (get_job_by_id (next_rowid t)) a' d1 = (d1, inr (Some row))
  /\ Forall (fun r => rowid r < next_rowid t) (t_rows t)
  /\ row = <["created_at" := VText (isoformat (clock a))]>
           (<["tags" := opt_text tags]>
           (<["salary" := VText salary]>
           (<["lng" := opt_real lng]>
           (<["lat" := opt_real lat]>
           (<["location_text" := opt_text location_text]>
           (<["description" := VText description]>
           (<["title" := VText title]>
           (<["employer_id" := VInt employer_id]>
           (<["id" := VInt (next_rowid t)]> ∅))))))))).
Proof.
  intros Ht Hc Hk stored row d1.
  assert (Hget : forall a0, get_job_by_id (next_rowid t) a0 (Conn d1 None)
                            = (Conn d1 None, inr (Some row))).
  { intros a0. rewrite (get_job_by_id_run a0 d1 (add_row t stored));
      [|apply lookup_insert_eq|exact Hc].
    cbn [t_rows add_row]. now rewrite find_fresh. }
  split; [|split; [|split]].
  - apply (run_conn _ _ _ _ None).
    cbv beta iota zeta delta [create_job mbind M_bind get_connection utcnow disk].
    erewrite execute_insert; [|exact Ht|apply sql_insert_job; eassumption].
    cbv beta iota delta [commit close working txn disk lastrowid].
    apply Hget.
  - apply (run_conn _ _ _ _ None). apply Hget.
  - apply next_rowid_fresh.
  - reflexivity.
Qed.

Lemma execute_select_limit a c n t names w order z :
  working c !! n = Some t ->
  cols_exist (t_cols t) (names ++ cond_cols w ++ order_cols order) = true ->
  execute (SelectFrom names n w order (Some (VInt z))) a c
  = (c, inr (Cursor names
               (map (fun r => map (read_col (t_cols t) r) names)
                  (if z <? 0 then visited t w order
                   else firstn (Z.to_nat z) (visited t w order)))
               0 (-1))).
Proof.
  intros Ht Hc. unfold execute, exec_stmt, lookup_table. rewrite Ht. simpl.
  unfold sql_select. rewrite Hc. reflexivity.
Qed.

(** [get_jobs] with a positive limit returns the first so many rows of the
    unlimited listing, which is newest first; with a negative limit it
    returns the whole listing. *)
Theorem get_jobs_limit_is_a_prefix a d t limit :
  d !! "jobs" = Some t ->
  cols_exist (t_cols t) job_fields = true ->
  exists all,
    run (get_jobs None) a d = (d, inr all)
    /\ descending (column_of "created_at" all)
    /\ (0 < limit -> run (get_jobs (Some limit)) a d
                     = (d, inr (firstn (Z.to_nat limit) all)))
    /\ (limit < 0 -> run (get_jobs (Some limit)) a d = (d, inr all)).
Proof.
  intros Ht Hc. eexists. split; [|split; [|split]].
  - apply get_jobs_all; [reflexivity|exact Ht|exact Hc].
  - rewrite column_of_as_dict by listed. apply visited_descending.
  - intros Hpos. apply (run_conn _ _ _ _ None). unfold get_jobs.
    assert (truthy (opt_int (Some limit)) = true) as ->.
    { cbn. destruct (Z.eqb_spec limit 0); [lia|reflexivity]. }
    unfold mbind, M_bind, get_connection, close. cbn [opt_int].
    rewrite (execute_select_limit _ _ _ t);
      [|exact Ht|apply (cols_exist_incl _ _ _ Hc); intros x Hx; simpl in *; tauto].
    destruct (Z.ltb_spec limit 0); [lia|].
    rewrite fetchall_select, firstn_map. reflexivity.
  - intros Hneg. apply (run_conn _ _ _ _ None). unfold get_jobs.
    assert (truthy (opt_int (Some limit)) = true) as ->.
    { cbn. destruct (Z.eqb_spec limit 0); [lia|reflexivity]. }
    unfold mbind, M_bind, get_connection, close. cbn [opt_int].
    rewrite (execute_select_limit _ _ _ t);
      [|exact Ht|apply (cols_exist_incl _ _ _ Hc); intros x Hx; simpl in *; tauto].
    destruct (Z.ltb_spec limit 0); [|lia].
    rewrite fetchall_select. reflexivity.
Qed.

Lemma py_eqb_int v z : py_eqb v (VInt z) = sql_eqb v (VInt z).
Proof.
  destruct v as [|x|q|s]; try reflexivity.
  - unfold py_eqb, sql_eqb. cbn. now destruct (x ?= z).
  - unfold py_eqb, sql_eqb. cbn. now destruct (q ?= inject_Z z)%Q.
Qed.

(** [get_jobs_by_employer] returns, newest first, exactly the rows of the
    full listing whose employer is the one asked for. *)
Theorem get_jobs_by_employer_selects a d t employer_id :
  d !! "jobs" = Some t ->
  cols_exist (t_cols t) job_fields = true ->
  exists rows all,
    run (get_jobs_by_employer employer_id) a d = (d, inr rows)
    /\ run (get_jobs None) a d = (d, inr all)
    /\ (forall row, row ∈ rows
                    <-> row ∈ all
                        /\ py_eqb (dict_get row "employer_id") (VInt employer_id) = true)
    /\ descending (column_of "created_at" rows).
Proof.
  intros Ht Hc. eexists. eexists. split; [|split; [|split]].
  - apply (listing_run a d "jobs" t job_fields _ "created_at" Ht).
    apply (cols_exist_incl _ _ _ Hc). intros x Hx. cbn in *. tauto.
  - apply get_jobs_all; [reflexivity|exact Ht|exact Hc].
  - intros row. rewrite !list_elem_of_In, !in_map_iff. split.
    + intros (r & <- & Hr).
      eapply Permutation_in in Hr; [|apply visited_perm].
      apply filter_In in Hr as [Hr Hm]. split.
      * exists r. split; [reflexivity|].
        eapply Permutation_in; [symmetry; apply visited_all|]. exact Hr.
      * rewrite as_dict_get by listed. rewrite py_eqb_int. exact Hm.
    + intros [(r & <- & Hr) Hm]. exists r. split; [reflexivity|].
      eapply Permutation_in; [symmetry; apply visited_perm|].
      apply filter_In. split.
      * eapply Permutation_in; [apply visited_all|]. exact Hr.
      * rewrite as_dict_get in Hm by listed. rewrite py_eqb_int in Hm. exact Hm.
  - rewrite column_of_as_dict by listed. apply visited_descending.
Qed.

End Jobs.

Section JobsSample.
Import RefCodec.

(** On the database [init_db] creates from nothing, which has no user, a
    first job is stored with id 1. *)
Lemma create_job_round_trip_sample :
  let fresh := (run init_db Sample.noon ∅).1 in
  exists row,
    (run (create_job 7 "Driver" "Nights" None None None "" None) Sample.later fresh).2
    = inr (Some row)
    /\ row !! "id" = Some (VInt 1)
    /\ row !! "employer_id" = Some (VInt 7)
    /\ row !! "created_at" = Some (VText "2026-11-04T10:00:00").
Proof.
  assert (Hj : (run init_db Sample.noon ∅).1 !! "jobs"
               = Some (new_table jobs_cols [] [("employer_id", "users")]))
    by (rewrite init_db_run; reflexivity).
  destruct (create_job_round_trip Sample.later Sample.later (run init_db Sample.noon ∅).1
              (new_table jobs_cols [] [("employer_id", "users")])
              7 "Driver" "Nights" None None None "" None Hj eq_refl eq_refl)
    as (Hrun & _ & _ & Hrow).
  eexists. split; [rewrite Hrun; reflexivity|]. rewrite Hrow.
  repeat split; vm_compute; reflexivity.
Defined.

(** On the sample a limit of 2 gives the first two rows of the listing,
    and a limit of -1 the whole of it. *)
Lemma get_jobs_limit_is_a_prefix_sample :
  exists all,
    run (get_jobs None) Sample.noon Sample.data = (Sample.data, inr all)
    /\ run (get_jobs (Some 2)) Sample.noon Sample.data = (Sample.data, inr (firstn 2 all))
    /\ run (get_jobs (Some (-1))) Sample.noon Sample.data = (Sample.data, inr all).
Proof.
  destruct (get_jobs_limit_is_a_prefix Sample.noon Sample.data Sample.jobs 2
              eq_refl eq_refl) as (all & Hall & _ & Hpos & _).
  destruct (get_jobs_limit_is_a_prefix Sample.noon Sample.data Sample.jobs (-1)
              eq_refl eq_refl) as (all' & Hall' & _ & _ & Hneg).
  exists all. split; [exact Hall|]. split; [apply Hpos; reflexivity|].
  rewrite Hneg by reflexivity. rewrite <- Hall'. exact Hall.
Defined.

(** On the sample: the jobs of employer 1 are those rows of the listing
    whose employer is 1. *)
Lemma get_jobs_by_employer_selects_sample :
  exists rows all,
    run (get_jobs_by_employer 1) Sample.noon Sample.data = (Sample.data, inr rows)
    /\ run (get_jobs None) Sample.noon Sample.data = (Sample.data, inr all)
    /\ (forall row, row ∈ rows
                    <-> row ∈ all /\ py_eqb (dict_get row "employer_id") (VInt 1) = true).
Proof.
  destruct (get_jobs_by_employer_selects Sample.noon Sample.data Sample.jobs 1
              eq_refl eq_refl) as (rows & all & Hrows & Hall & Hiff & _).
  exists rows, all. split; [exact Hrows|]. split; [exact Hall|exact Hiff].
Defined.

End JobsSample.

(** ** Applications *)

Section Applications.
Context `{TimeCodec}.

Lemma sql_insert_application now t job_id user_id cover_letter resume_text
    cover_letter_path resume_path :
  t_cols t = applications_cols_now ->
  t_checks t = [] ->
  sql_insert now t
    ["job_id"; "user_id"; "cover_letter"; "resume_text"; "cover_letter_path";
     "resume_path"; "created_at"]
    [VInt job_id; VInt user_id; VText cover_letter; VText resume_text;
     opt_text cover_letter_path; opt_text resume_path; VText (isoformat now)]
  = inr (add_row t (Row (next_rowid t)
           (application_fields_stored now job_id user_id cover_letter resume_text
              cover_letter_path resume_path)),
         next_rowid t).
Proof.
  intros Hc Hk. unfold sql_insert, add_row. rewrite Hc, Hk.
  cbn -[next_rowid Z.max Z.leb]. unfold supplied.
  cbn [c_name not_null_col col created_at_col].
  eval_lookups. reflexivity.
Qed.

Lemma create_application_run a d t job_id user_id cover_letter resume_text
    cover_letter_path resume_path :
  d !! "applications" = Some t ->
  t_cols t = applications_cols_now ->
  t_checks t = [] ->
  run (create_application job_id user_id cover_letter resume_text cover_letter_path
         resume_path) a d
  = (<["applications" := add_row t (Row (next_rowid t)
         (application_fields_stored (clock a) job_id user_id cover_letter resume_text
            cover_letter_path resume_path))]> d,
     inr (<["resume_path" := opt_text resume_path]>
          (<["cover_letter_path" := opt_text cover_letter_path]>
          (<["user_id" := VInt user_id]>
          (<["job_id" := VInt job_id]>
          (<["id" := VInt (next_rowid t)]> ∅)))))).
Proof.
  intros Ht Hc Hk. apply (run_conn _ _ _ _ None).
  cbv beta iota zeta delta [create_application mbind M_bind get_connection utcnow disk].
  erewrite execute_insert; [|exact Ht|apply sql_insert_application; eassumption].
  reflexivity.
Qed.

Lemma sql_eqb_int_refl z : sql_eqb (VInt z) (VInt z) = true.
Proof. rewrite sql_eqb_int. apply Z.eqb_refl. Qed.

(** On an applications table with the two path columns,
    [create_application] stores the row under an id no application has and
    returns the id with the job, the user and the two paths; the listing of
    the user's applications then has the row, as stored.  Neither the job
    nor the user is looked up. *)
Theorem create_application_round_trip a a' d t job_id user_id cover_letter resume_text
    cover_letter_path resume_path :
  d !! "applications" = Some t ->
  t_cols t = applications_cols_now ->
  t_checks t = [] ->
  let stored := Row (next_rowid t)
                  (application_fields_stored (clock a) job_id user_id cover_letter
                     resume_text cover_letter_path resume_path) in
  let d1 := <["applications" := add_row t stored]> d in
  run (create_application job_id user_id cover_letter resume_text cover_letter_path
         resume_path) a d
  = (d1, inr (<["resume_path" := opt_text resume_path]>
              (<["cover_letter_path" := opt_text cover_letter_path]>
              (<["user_id" := VInt user_id]>
              (<["job_id" := VInt job_id]>
              (<["id" := VInt (next_rowid t)]> ∅))))))
  /\ Forall (fun r => rowid r < next_rowid t) (t_rows t)
  /\ exists rows,
       run (get_applications_by_user user_id) a' d1 = (d1, inr rows)
       /\ <["created_at" := VText (isoformat (clock a))]>
          (<["resume_path" := opt_text resume_path]>
          (<["cover_letter_path" := opt_text cover_letter_path]>
          (<["resume_text" := VText resume_text]>
          (<["cover_letter" := VText cover_letter]>
          (<["user_id" := VInt user_id]>
          (<["job_id" := VInt job_id]>
          (<["id" := VInt (next_rowid t)]> ∅))))))) ∈ rows.
Proof.
  intros Ht Hc Hk stored d1. split; [|split].
  - now apply create_application_run.
  - apply next_rowid_fresh.
  - eexists. split.
    + apply (listing_run a' d1 "applications" (add_row t stored) application_fields _
               "created_at"); [apply lookup_insert_eq|].
      cbn [t_cols add_row]. rewrite Hc. reflexivity.
    + apply list_elem_of_In.
      change (<["created_at" := _]> _)
        with (as_dict applications_cols_now application_fields stored).
      cbn [t_cols add_row]. rewrite Hc. apply in_map.
      eapply Permutation_in; [symmetry; apply visited_perm|].
      apply filter_In. cbn [t_rows t_cols add_row]. split.
      * apply in_or_app. right. now left.
      * rewrite matches_eq, Hc. apply sql_eqb_int_refl.
Qed.

Lemma with_column_adds n c d t :
  d !! n = Some t ->
  has_col (t_cols t) (c_name c) = false ->
  with_column n c d
  = <[n := Table (t_cols t ++ [c]) (t_checks t) (t_fks t) (t_rows t) (t_seq t)]> d.
Proof. intros Ht Hc. unfold with_column. now rewrite Ht, Hc. Qed.

Lemma init_db_legacy a d t :
  d !! "applications" = Some t ->
  t_cols t = applications_cols ->
  (run init_db a d).1 !! "applications"
  = Some (Table applications_cols_now (t_checks t) (t_fks t) (t_rows t) (t_seq t)).
Proof.
  intros Ht Hc. rewrite init_db_run. cbn [fst]. unfold init_db_result.
  do 5 (eapply ensure_same in Ht).
  erewrite (with_column_adds "applications" (col "cover_letter_path" "TEXT"));
    [|exact Ht|rewrite Hc; reflexivity].
  erewrite (with_column_adds "applications" (col "resume_path" "TEXT"));
    [|apply lookup_insert_eq|cbn [t_cols]; rewrite Hc; reflexivity].
  rewrite lookup_insert_eq. cbn [t_cols t_checks t_fks t_rows t_seq].
  rewrite Hc. reflexivity.
Qed.

(** A row written before a column was added reads as NULL there. *)
Lemma read_added_column cols r k c :
  find_col cols k = Some c -> c_pk c = false -> c_default c = DfltNone ->
  fields r !! k = None -> read_col cols r k = VNull.
Proof.
  intros Hf Hpk Hd Hr. unfold read_col, static_default. now rewrite Hf, Hpk, Hr, Hd.
Qed.

(** [init_db] on a database whose applications table was made before the
    two path columns existed adds them and keeps the rows: the listing of a
    user's applications, which raised before, then returns every
    application of the user with [None] for both paths. *)
Theorem init_db_upgrades_applications a a' d t user_id :
  d !! "applications" = Some t ->
  t_cols t = applications_cols ->
  Forall (fun r => fields r !! "cover_letter_path" = None
                   /\ fields r !! "resume_path" = None) (t_rows t) ->
  let d1 := (run init_db a d).1 in
  run (get_applications_by_user user_id) a' d
  = (d, inl (OperationalError "no such column"))
  /\ d1 !! "applications"
     = Some (Table applications_cols_now (t_checks t) (t_fks t) (t_rows t) (t_seq t))
  /\ exists rows,
       run (get_applications_by_user user_id) a' d1 = (d1, inr rows)
       /\ length rows
          = length (List.filter (col_is t "user_id" (VInt user_id)) (t_rows t))
       /\ Forall (fun row => row !! "cover_letter_path" = Some VNull
                             /\ row !! "resume_path" = Some VNull) rows.
Proof.
  intros Ht Hc Hold d1.
  pose proof (init_db_legacy a d t Ht Hc) as H1. fold d1 in H1.
  set (t1 := Table applications_cols_now _ _ _ _) in H1.
  split; [|split; [exact H1|]].
  - apply (run_conn _ _ _ _ None).
    cbv beta iota zeta delta [get_applications_by_user mbind M_bind get_connection disk].
    erewrite execute_select_fails; [reflexivity|exact Ht|].
    unfold sql_select. rewrite Hc. reflexivity.
  - eexists. split; [|split].
    + apply (listing_run a' d1 "applications" t1 application_fields _ "created_at" H1).
      reflexivity.
    + rewrite length_map. erewrite Permutation_length; [|apply visited_perm].
      cbn [t_rows t_cols t1]. unfold col_is. rewrite Hc.
      reflexivity.
    + apply Forall_forall. intros row Hrow.
      apply list_elem_of_In, in_map_iff in Hrow as (r & <- & Hr).
      eapply Permutation_in in Hr; [|apply visited_perm].
      apply filter_In in Hr as [Hr _]. cbn [t_rows t1] in Hr.
      rewrite Forall_forall in Hold. apply list_elem_of_In, Hold in Hr as [Hr1 Hr2].
      rewrite !as_dict_lookup, !bool_decide_eq_true_2 by listed.
      cbn [t_cols t1].
      rewrite (read_added_column _ r "cover_letter_path" (col "cover_letter_path" "TEXT"))
        by (try reflexivity; exact Hr1).
      rewrite (read_added_column _ r "resume_path" (col "resume_path" "TEXT"))
        by (try reflexivity; exact Hr2).
      split; reflexivity.
Qed.

End Applications.

(** ** The sort order is transitive *)

Section ValueOrder.

Lemma ascii_compare_eq c1 c2 : Ascii.compare c1 c2 = Eq -> c1 = c2.
Proof.
  unfold Ascii.compare. intros E. apply N.compare_eq in E.
  rewrite <- (ascii_N_embedding c1), <- (ascii_N_embedding c2). now rewrite E.
Qed.

Lemma ascii_compare_lt c1 c2 :
  Ascii.compare c1 c2 = Lt <-> (N_of_ascii c1 < N_of_ascii c2)%N.
Proof. unfold Ascii.compare. apply N.compare_lt_iff. Qed.

Lemma string_compare_lt_trans s1 : forall s2 s3,
  String.compare s1 s2 = Lt -> String.compare s2 s3 = Lt -> String.compare s1 s3 = Lt.
Proof.
  induction s1 as [|c1 s1 IH]; intros [|c2 s2] [|c3 s3]; cbn; try congruence.
  destruct (Ascii.compare c1 c2) eqn:E12; try discriminate.
  - apply ascii_compare_eq in E12 as ->.
    destruct (Ascii.compare c2 c3); try discriminate; [apply IH|reflexivity].
  - intros _. destruct (Ascii.compare c2 c3) eqn:E23; try discriminate.
    + apply ascii_compare_eq in E23 as <-. now rewrite E12.
    + intros _. apply ascii_compare_lt in E12. apply ascii_compare_lt in E23.
      assert (Ascii.compare c1 c3 = Lt) as ->
        by (apply ascii_compare_lt; eapply N.lt_trans; eassumption).
      reflexivity.
Qed.

Lemma Qcompare_inject x y : (inject_Z x ?= inject_Z y)%Q = (x ?= y).
Proof. unfold Qcompare. cbn. now rewrite !Z.mul_1_r. Qed.

Lemma value_compare_lt_rank a b :
  (rank a < rank b)%nat -> value_compare a b = Lt.
Proof. destruct a, b; cbn; intros Hr; try reflexivity; lia. Qed.

Lemma value_compare_rank a b : value_compare a b = Lt -> (rank a <= rank b)%nat.
Proof. destruct a, b; cbn; intros E; try discriminate; lia. Qed.

Lemma value_compare_numbers a b :
  rank a = 1%nat -> rank b = 1%nat -> value_compare a b = (as_Q a ?= as_Q b)%Q.
Proof.
  destruct a, b; cbn; intros Ha Hb; try discriminate; try reflexivity.
  symmetry. apply Qcompare_inject.
Qed.

Lemma value_compare_lt_trans a b c :
  value_compare a b = Lt -> value_compare b c = Lt -> value_compare a c = Lt.
Proof.
  intros Hab Hbc.
  pose proof (value_compare_rank _ _ Hab) as Rab.
  pose proof (value_compare_rank _ _ Hbc) as Rbc.
  destruct (Nat.eq_dec (rank a) (rank c)) as [Eac|Nac];
    [|apply value_compare_lt_rank; lia].
  assert (Eab : rank a = rank b) by lia.
  destruct a as [|x|x|x], b as [|y|y|y]; try discriminate Eab;
    destruct c as [|z|z|z]; try discriminate Eac; try discriminate Hab.
  all: try (rewrite value_compare_numbers in * by reflexivity;
            rewrite <- Qlt_alt in *; eapply Qlt_trans; eassumption).
  cbn in *. eapply string_compare_lt_trans; eassumption.
Qed.

Lemma value_compare_refl a : value_compare a a <> Lt.
Proof.
  intros E. pose proof (value_compare_antisym a a) as Ha. rewrite E in Ha. discriminate.
Qed.

(** Not below: the order of a descending listing is transitive. *)
Lemma value_ge_trans a b c :
  value_compare a b <> Lt -> value_compare b c <> Lt -> value_compare a c <> Lt.
Proof.
  intros Hab Hbc Hac.
  destruct (value_compare b c) eqn:Ebc; try (now apply Hbc).
  - (* b = c in the order: a < c and c <= b give a < b *)
    apply Hab.
    destruct (value_compare a b) eqn:Eab; try reflexivity.
    + exfalso.
      assert (Hca : value_compare c a = Gt)
        by (rewrite (value_compare_antisym a c), Hac; reflexivity).
      assert (Hba : value_compare b a = Eq)
        by (rewrite (value_compare_antisym a b), Eab; reflexivity).
      assert (Hcb : value_compare c b = Eq)
        by (rewrite (value_compare_antisym b c), Ebc; reflexivity).
      (* a < c, c == b, b == a *)
      clear Hab Hbc.
      destruct a as [|x|x|x], b as [|y|y|y]; try discriminate Eab;
        destruct c as [|z|z|z]; try discriminate Ebc; try discriminate Hac.
      all: try (rewrite value_compare_numbers in * by reflexivity;
                rewrite <- Qeq_alt in Eab, Ebc; rewrite <- Qlt_alt in Hac;
                rewrite Eab, Ebc in Hac; now apply Qlt_irrefl in Hac).
      cbn in *. apply String.compare_eq_iff in Eab, Ebc. subst.
      now rewrite string_compare_refl in Hac.
    + exfalso.
      (* b < a, a < c, b == c *)
      assert (Hba : value_compare b a = Lt)
        by (rewrite (value_compare_antisym a b), Eab; reflexivity).
      pose proof (value_compare_lt_trans _ _ _ Hba Hac) as Hbc'. congruence.
  - apply Hab.
    assert (Hcb : value_compare c b = Lt)
      by (rewrite (value_compare_antisym b c), Ebc; reflexivity).
    exact (value_compare_lt_trans _ _ _ Hac Hcb).
Qed.

End ValueOrder.

(** ** Joins with users *)

Section Joins.
Context `{TimeCodec} `{Accumulator}.

Lemma descending_cons a l :
  descending (a :: l) <-> Forall (fun b => value_compare a b <> Lt) l /\ descending l.
Proof.
  revert a. induction l as [|b l IH]; intros a.
  - cbn. split; [intros _; split; [constructor|exact I]|tauto].
  - change (descending (a :: b :: l)) with (value_compare a b <> Lt /\ descending (b :: l)).
    split.
    + intros [Hab Hd]. split; [|exact Hd]. constructor; [exact Hab|].
      apply IH in Hd as [Hb _]. eapply Forall_impl; [exact Hb|].
      intros c Hbc. cbn beta in Hbc. exact (value_ge_trans _ _ _ Hab Hbc).
    + intros [Hall Hd]. split; [|exact Hd]. now inversion Hall.
Qed.

Lemma descending_app_copies a n l :
  descending (a :: l) -> descending (repeat a n ++ l)%list.
Proof.
  intros Hd. induction n as [|n IH]; cbn [repeat app].
  - apply descending_cons in Hd. tauto.
  - apply descending_cons. split; [|exact IH].
    apply Forall_app. split.
    + apply Forall_forall. intros b Hb. apply list_elem_of_In, repeat_spec in Hb as ->.
      apply value_compare_refl.
    + apply descending_cons in Hd. tauto.
Qed.

(** Rows repeated or left out, in a descending list, leave it descending. *)
Lemma descending_flat_map {A B : Type} (key : A -> value) (g : A -> list B) (l : list A) :
  descending (map key l) ->
  descending (map (fun p : A * B => key p.1) (flat_map (fun x => map (pair x) (g x)) l))
  /\ Forall (fun v => v ∈ map key l)
       (map (fun p : A * B => key p.1) (flat_map (fun x => map (pair x) (g x)) l)).
Proof.
  induction l as [|x l IH]; intros Hd; [split; [exact I|constructor]|].
  cbn [map flat_map] in *. rewrite map_app, map_map. cbn [fst].
  apply descending_cons in Hd as Hd'. destruct Hd' as [Hall Hl].
  destruct (IH Hl) as [IHd IHin].
  replace (map (fun _ : B => key x) (g x)) with (repeat (key x) (length (g x)))
    by (induction (g x); cbn; congruence).
  split.
  - apply descending_app_copies. apply descending_cons. split; [|exact IHd].
    rewrite Forall_forall in Hall, IHin |- *. intros v Hv. apply Hall, IHin, Hv.
  - apply Forall_app. split.
    + apply Forall_forall. intros v Hv. apply list_elem_of_In, repeat_spec in Hv as ->.
      now left.
    + eapply Forall_impl; [exact IHin|]. intros v Hv. now right.
Qed.

Lemma execute_join a c ln rn tl tr outs on_right on_left w order :
  working c !! ln = Some tl ->
  working c !! rn = Some tr ->
  cols_exist (t_cols tl) (side_cols FromLeft outs ++ on_left :: cond_cols w ++ [order])
  = true ->
  cols_exist (t_cols tr) (side_cols FromRight outs ++ [on_right]) = true ->
  execute_query (SelectJoin outs ln rn on_right on_left w order) a c
  = (c, inr (Cursor (map o_name outs)
               (map (fun p => map (read_out tl tr p) outs)
                  (join_pairs tl tr on_right on_left w order))
               0 (-1))).
Proof.
  intros Hl Hr Hcl Hcr. unfold execute_query, exec_query, lookup_table.
  rewrite Hl, Hr. cbn [mbind result_bind]. unfold sql_join. now rewrite Hcl, Hcr.
Qed.

Lemma zip_snoc {A B : Type} (l : list A) (m : list B) x y :
  length l = length m -> zip (l ++ [x]) (m ++ [y]) = (zip l m ++ [(x, y)])%list.
Proof.
  revert m. induction l as [|a l IH]; intros [|b m] E; try discriminate; [reflexivity|].
  cbn. f_equal. apply IH. now injection E.
Qed.

Lemma row_factory_joined tl tr names c k p :
  _row_factory
    (Cursor (map o_name (join_outs names c k))
       (map (fun q => map (read_out tl tr q) (join_outs names c k)) []) 0 (-1))
    (map (read_out tl tr p) (join_outs names c k))
  = joined tl tr names c k p.
Proof.
  unfold _row_factory, joined, as_dict, _row_factory, join_outs. cbn [description].
  rewrite !map_app, !map_map. cbn [map o_name o_side o_col read_out].
  rewrite map_id.
  replace (map (fun x => read_out tl tr p (OutCol FromLeft x x)) names)
    with (map (read_col (t_cols tl) p.1) names) by reflexivity.
  rewrite zip_snoc by now rewrite length_map.
  now rewrite fold_left_app.
Qed.

Lemma fetchall_join tl tr names c k pairs :
  fetchall (Cursor (map o_name (join_outs names c k))
              (map (fun p => map (read_out tl tr p) (join_outs names c k)) pairs) 0 (-1))
  = map (joined tl tr names c k) pairs.
Proof.
  unfold fetchall. cbn [fetched]. rewrite map_map. apply map_ext.
  intros p. apply (row_factory_joined tl tr names c k p).
Qed.

Lemma side_cols_left names c k : side_cols FromLeft (join_outs names c k) = names.
Proof.
  unfold side_cols, join_outs. rewrite List.filter_app. cbn. rewrite app_nil_r.
  induction names as [|n names IH]; [reflexivity|]. cbn. now rewrite IH.
Qed.

Lemma side_cols_right names c k : side_cols FromRight (join_outs names c k) = [c].
Proof.
  unfold side_cols, join_outs. rewrite List.filter_app. cbn.
  induction names as [|n names IH]; [reflexivity|]. cbn. exact IH.
Qed.

(** The shape of a joined listing. *)
Lemma join_run a d ln rn tl tr names c k on_right on_left w order :
  d !! ln = Some tl ->
  d !! rn = Some tr ->
  cols_exist (t_cols tl) (names ++ on_left :: cond_cols w ++ [order]) = true ->
  cols_exist (t_cols tr) [c; on_right] = true ->
  run (_ ← get_connection;
       cur ← execute_query (SelectJoin (join_outs names c k) ln rn on_right on_left w order);
       let rows := fetchall cur in
       _ ← close;
       mret rows) a d
  = (d, inr (map (joined tl tr names c k) (join_pairs tl tr on_right on_left w order))).
Proof.
  intros Hl Hr Hcl Hcr. apply (run_conn _ _ _ _ None).
  unfold mbind, M_bind, get_connection, close.
  rewrite (execute_join _ _ _ _ tl tr); try assumption.
  - now rewrite fetchall_join.
  - now rewrite side_cols_left.
  - now rewrite side_cols_right.
Qed.

Lemma in_join_pairs tl tr on_right on_left w order p :
  In p (join_pairs tl tr on_right on_left w order)
  <-> In p.1 (t_rows tl) /\ matches (t_cols tl) w p.1 = true
      /\ In p.2 (t_rows tr)
      /\ sql_eqb (read_col (t_cols tr) p.2 on_right) (read_col (t_cols tl) p.1 on_left)
         = true.
Proof.
  unfold join_pairs, partners. rewrite in_flat_map. split.
  - intros (l & Hl & Hp). apply in_map_iff in Hp as (u & <- & Hu). cbn [fst snd].
    eapply Permutation_in in Hl; [|apply sort_desc_perm].
    apply filter_In in Hl as [Hl Hm]. apply filter_In in Hu as [Hu He]. tauto.
  - intros (Hl & Hm & Hu & He). exists p.1. split.
    + eapply Permutation_in; [symmetry; apply sort_desc_perm|]. now apply filter_In.
    + apply in_map_iff. exists p.2. split; [now destruct p|]. now apply filter_In.
Qed.

Lemma join_descending tl tr names c k on_right on_left w order :
  order ∈ names -> order <> k ->
  descending (column_of order
    (map (joined tl tr names c k) (join_pairs tl tr on_right on_left w order))).
Proof.
  intros Hin Hne. unfold column_of. rewrite map_map.
  erewrite map_ext.
  - apply (descending_flat_map (fun r => read_col (t_cols tl) r order)).
    apply descending_sort.
  - intros p. cbn beta. unfold joined, dict_get.
    rewrite lookup_insert_ne by congruence.
    now rewrite as_dict_lookup, bool_decide_eq_true_2.
Qed.

(** [get_applications_by_job] returns, newest first, a row for every
    application for the job whose applicant is a stored user, with that
    user's email, and no other row: an application whose [user_id] is no
    user's id is left out. *)
Theorem get_applications_by_job_rows a d ta tu job_id :
  d !! "applications" = Some ta ->
  cols_exist (t_cols ta) application_fields = true ->
  d !! "users" = Some tu ->
  cols_exist (t_cols tu) ["id"; "email"] = true ->
  exists rows,
    run (get_applications_by_job job_id) a d = (d, inr rows)
    /\ (forall row,
          row ∈ rows
          <-> exists l u,
                l ∈ t_rows ta /\ u ∈ t_rows tu
                /\ col_is ta "job_id" (VInt job_id) l = true
                /\ sql_eqb (read_col (t_cols tu) u "id") (read_col (t_cols ta) l "user_id")
                   = true
                /\ row = <["applicant_email" := read_col (t_cols tu) u "email"]>
                         (as_dict (t_cols ta) application_fields l))
    /\ descending (column_of "created_at" rows).
Proof.
  intros Ha Hac Hu Huc. eexists. split; [|split].
  - apply (join_run a d "applications" "users" ta tu application_fields "email"
             "applicant_email" "id" "user_id" _ "created_at" Ha Hu).
    + apply (cols_exist_incl _ _ _ Hac). intros x Hx. cbn in *. tauto.
    + apply (cols_exist_incl _ _ _ Huc). intros x Hx. cbn in *. tauto.
  - intros row. rewrite list_elem_of_In, in_map_iff. split.
    + intros ([l u] & <- & Hp). apply in_join_pairs in Hp as (Hl & Hm & Hu' & He).
      exists l, u. rewrite !list_elem_of_In. cbn [fst snd] in *. auto.
    + intros (l & u & Hl & Hu' & Hm & He & ->). exists (l, u). split; [reflexivity|].
      apply in_join_pairs. rewrite !list_elem_of_In in *. cbn [fst snd]. auto.
  - apply join_descending; [listed|discriminate].
Qed.

End Joins.

(** ** Applications of users that do not exist *)

Section Orphans.
Context `{TimeCodec} `{Accumulator}.

Lemma filter_none {A : Type} (p : A -> bool) (l : list A) :
  Forall (fun x => p x = false) l -> List.filter p l = [].
Proof.
  intros Hall. induction Hall as [|x l Hx _ IH]; [reflexivity|]. cbn. now rewrite Hx.
Qed.

(** A row added to the left table that has no partner adds nothing to the
    join. *)
Lemma join_pairs_add_row tl tr on_right on_left w order s :
  partners tl tr on_right on_left s = [] ->
  Permutation (join_pairs (add_row tl s) tr on_right on_left w order)
              (join_pairs tl tr on_right on_left w order).
Proof.
  intros Hs. unfold join_pairs. cbn [t_rows t_cols add_row].
  change (partners (add_row tl s) tr on_right on_left)
    with (partners tl tr on_right on_left).
  set (g := fun l => map (pair l) (partners tl tr on_right on_left l)).
  set (m := matches (t_cols tl) w).
  set (key := fun r => read_col (t_cols tl) r order).
  rewrite (Permutation_flat_map g (sort_desc_perm key (List.filter m (t_rows tl ++ [s])))).
  rewrite (Permutation_flat_map g (sort_desc_perm key (List.filter m (t_rows tl)))).
  rewrite List.filter_app, flat_map_app.
  assert (flat_map g (List.filter m [s]) = []) as ->.
  { cbn. destruct (m s); [|reflexivity]. cbn. subst g. cbn. now rewrite Hs. }
  now rewrite app_nil_r.
Qed.

(** [create_application] for a user id that no user has stores the
    application all the same; the listing of the job's applications, which
    joins with users, is what it was, while the listing by user shows the
    new row. *)
Theorem application_of_unknown_user_is_hidden a a1 a2 d ta tu job_id user_id cover_letter
    resume_text cover_letter_path resume_path :
  d !! "applications" = Some ta ->
  t_cols ta = applications_cols_now ->
  t_checks ta = [] ->
  d !! "users" = Some tu ->
  cols_exist (t_cols tu) ["id"; "email"] = true ->
  Forall (fun u => sql_eqb (read_col (t_cols tu) u "id") (VInt user_id) = false)
    (t_rows tu) ->
  let d1 := (run (create_application job_id user_id cover_letter resume_text
                    cover_letter_path resume_path) a d).1 in
  exists before after mine,
    run (get_applications_by_job job_id) a1 d = (d, inr before)
    /\ run (get_applications_by_job job_id) a2 d1 = (d1, inr after)
    /\ Permutation after before
    /\ run (get_applications_by_user user_id) a2 d1 = (d1, inr mine)
    /\ Exists (fun row => row !! "id" = Some (VInt (next_rowid ta))
                          /\ row !! "job_id" = Some (VInt job_id)) mine.
Proof.
  intros Ha Hc Hk Hu Huc Hnone d1. subst d1.
  rewrite (create_application_run a d ta job_id user_id cover_letter resume_text
             cover_letter_path resume_path Ha Hc Hk). cbn [fst].
  set (stored := Row (next_rowid ta) _).
  set (d1 := <["applications" := add_row ta stored]> d).
  assert (Hac : cols_exist (t_cols ta)
                  (application_fields ++ "user_id" :: ["job_id"] ++ ["created_at"]) = true)
    by (rewrite Hc; reflexivity).
  assert (Huc' : cols_exist (t_cols tu) ["email"; "id"] = true)
    by (apply (cols_exist_incl _ _ _ Huc); intros x Hx; cbn in *; tauto).
  do 3 eexists. split; [|split; [|split; [|split]]].
  - exact (join_run a1 d "applications" "users" ta tu application_fields "email"
             "applicant_email" "id" "user_id" (CCmp "job_id" OpEq (VInt job_id)) "created_at"
             Ha Hu Hac Huc').
  - apply (join_run a2 d1 "applications" "users" (add_row ta stored) tu application_fields
             "email" "applicant_email" "id" "user_id" (CCmp "job_id" OpEq (VInt job_id))
             "created_at").
    + apply lookup_insert_eq.
    + unfold d1. rewrite lookup_insert_ne by done. exact Hu.
    + exact Hac.
    + exact Huc'.
  - change (joined (add_row ta stored) tu) with (joined ta tu).
    apply Permutation_map, join_pairs_add_row.
    unfold partners. apply filter_none.
    eapply Forall_impl; [exact Hnone|]. intros u Hu'. cbn beta in Hu'.
    rewrite Hc. exact Hu'.
  - apply (listing_run a2 d1 "applications" (add_row ta stored) application_fields _
             "created_at"); [apply lookup_insert_eq|].
    cbn [t_cols add_row]. rewrite Hc. reflexivity.
  - apply Exists_exists. exists (as_dict (t_cols ta) application_fields stored). split.
    + apply list_elem_of_In. cbn [t_cols add_row]. apply in_map.
      eapply Permutation_in; [symmetry; apply visited_perm|].
      apply filter_In. cbn [t_rows t_cols add_row]. split.
      * apply in_or_app. right. now left.
      * rewrite matches_eq, Hc. apply sql_eqb_int_refl.
    + rewrite !as_dict_lookup, !bool_decide_eq_true_2 by listed.
      rewrite Hc. split; reflexivity.
Qed.

End Orphans.

Section ApplicationsSample.
Import RefCodec RefArith.

(** On the sample, a fourth application gets id 4 and shows in the listing
    of user 2. *)
Lemma create_application_round_trip_sample :
  let d1 := (run (create_application 3 2 "Hello" "CV" (Some "u/cl.pdf") None)
               Sample.noon Sample.data).1 in
  (run (create_application 3 2 "Hello" "CV" (Some "u/cl.pdf") None)
     Sample.noon Sample.data).2
  = inr (<["resume_path" := VNull]> (<["cover_letter_path" := VText "u/cl.pdf"]>
        (<["user_id" := VInt 2]> (<["job_id" := VInt 3]> (<["id" := VInt 4]> ∅)))))
  /\ exists rows,
       run (get_applications_by_user 2) Sample.later d1 = (d1, inr rows)
       /\ <["created_at" := VText "2026-11-04T09:30:00"]>
          (<["resume_path" := VNull]>
          (<["cover_letter_path" := VText "u/cl.pdf"]>
          (<["resume_text" := VText "CV"]>
          (<["cover_letter" := VText "Hello"]>
          (<["user_id" := VInt 2]>
          (<["job_id" := VInt 3]>
          (<["id" := VInt 4]> ∅))))))) ∈ rows.
Proof.
  destruct (create_application_round_trip Sample.noon Sample.later Sample.data
              Sample.applications 3 2 "Hello" "CV" (Some "u/cl.pdf") None
              eq_refl eq_refl eq_refl) as (Hrun & _ & Hlist).
  rewrite Hrun. split; [reflexivity|exact Hlist].
Defined.

(** On a sample whose applications table is of the older shape, the listing
    raises before [init_db] and returns the user's application after it. *)
Lemma init_db_upgrades_applications_sample :
  let d1 := (run init_db Sample.noon Cases.legacy).1 in
  run (get_applications_by_user 2) Sample.noon Cases.legacy
  = (Cases.legacy, inl (OperationalError "no such column"))
  /\ exists rows,
       run (get_applications_by_user 2) Sample.later d1 = (d1, inr rows)
       /\ length rows = 1%nat
       /\ Forall (fun row => row !! "cover_letter_path" = Some VNull
                             /\ row !! "resume_path" = Some VNull) rows.
Proof.
  destruct (init_db_upgrades_applications Sample.noon Sample.later Cases.legacy
              Cases.legacy_applications 2 eq_refl eq_refl)
    as (Hbefore & _ & rows & Hrows & Hlen & Hnull).
  { repeat constructor. }
  split; [|exists rows; split; [exact Hrows|split; [exact Hlen|exact Hnull]]].
  revert Hbefore. apply eq_trans. reflexivity.
Defined.

(** On the sample: the applications for job 1 come with the applicant's
    email. *)
Lemma get_applications_by_job_rows_sample :
  exists rows,
    run (get_applications_by_job 1) Sample.noon Sample.data = (Sample.data, inr rows)
    /\ <["applicant_email" := VText "cand@example.com"]>
       (as_dict (t_cols Sample.applications) application_fields
          (Sample.application_row 1 1 2)) ∈ rows.
Proof.
  destruct (get_applications_by_job_rows Sample.noon Sample.data Sample.applications
              Sample.users 1 eq_refl eq_refl eq_refl eq_refl)
    as (rows & Hrows & Hiff & _).
  exists rows. split; [exact Hrows|]. apply Hiff.
  exists (Sample.application_row 1 1 2),
         (Sample.user_row 2 "cand@example.com" "candidate" "cand").
  split; [repeat constructor|]. split; [repeat constructor|].
  split; [reflexivity|]. split; reflexivity.
Defined.

(** On the sample: nobody has id 99, and an application by 99 for job 1
    does not show among the applications for job 1. *)
Lemma application_of_unknown_user_is_hidden_sample :
  let d1 := (run (create_application 1 99 "" "" None None) Sample.noon Sample.data).1 in
  exists before after mine,
    run (get_applications_by_job 1) Sample.noon Sample.data = (Sample.data, inr before)
    /\ run (get_applications_by_job 1) Sample.later d1 = (d1, inr after)
    /\ Permutation after before
    /\ run (get_applications_by_user 99) Sample.later d1 = (d1, inr mine)
    /\ Exists (fun row => row !! "id" = Some (VInt 4)
                          /\ row !! "job_id" = Some (VInt 1)) mine.
Proof.
  apply (application_of_unknown_user_is_hidden Sample.noon Sample.noon Sample.later
           Sample.data Sample.applications Sample.users 1 99 "" "" None None
           eq_refl eq_refl eq_refl eq_refl eq_refl).
  repeat constructor.
Defined.

End ApplicationsSample.

(** ** Ratings: the average and the count *)

Section Averages.
Context `{TimeCodec} `{Accumulator}.

Lemma execute_avg_count a c n t col avg_as count_as w :
  working c !! n = Some t ->
  cols_exist (t_cols t) (col :: cond_cols w) = true ->
  execute_query (SelectAvgCount col avg_as count_as n w) a c
  = (c, inr (Cursor [avg_as; count_as]
               [[sql_avg (map (fun r => read_col (t_cols t) r col)
                            (List.filter (matches (t_cols t) w) (t_rows t)));
                 VInt (Z.of_nat (length (List.filter (matches (t_cols t) w) (t_rows t))))]]
               0 (-1))).
Proof.
  intros Ht Hc. unfold execute_query, exec_query, lookup_table. rewrite Ht.
  cbn [mbind result_bind]. unfold sql_avg_count. now rewrite Hc.
Qed.

Lemma average_run a d t target_type target_id :
  d !! "ratings" = Some t ->
  cols_exist (t_cols t) ["rating"; "target_type"; "target_id"] = true ->
  let hits := List.filter (matches (t_cols t) (target_where target_type target_id))
                (t_rows t) in
  run (get_average_rating_for_target target_type target_id) a d
  = (d, inr (<["count" := VInt (Z.of_nat (length hits))]>
             (<["avg" := sql_avg (map (fun r => read_col (t_cols t) r "rating") hits)]> ∅))).
Proof.
  intros Ht Hc hits. apply (run_conn _ _ _ _ None).
  unfold get_average_rating_for_target, mbind, M_bind, get_connection, close.
  rewrite (execute_avg_count _ _ _ t); [|exact Ht|exact Hc].
  unfold fetchone, fetchall, _row_factory.
  cbn [fetched description map head zip zip_with fold_left fst snd].
  fold hits.
  rewrite bool_decide_eq_false_2 by apply insert_non_empty.
  unfold dict_get. rewrite lookup_insert_eq.
  rewrite (lookup_insert_ne _ "count" "avg_rating") by done.
  rewrite lookup_insert_eq. reflexivity.
Qed.

(** [get_average_rating_for_target] returns the number of ratings of the
    target as [count] and their mean as [avg]; with no rating of the target
    the count is 0 and the mean is [None].  The dictionary always comes from
    the row of the aggregate. *)
Theorem average_rating_of_target a d t target_type target_id :
  d !! "ratings" = Some t ->
  cols_exist (t_cols t) ["rating"; "target_type"; "target_id"] = true ->
  let hits := List.filter (fun r => col_is t "target_type" (VText target_type) r
                                    && col_is t "target_id" (VInt target_id) r)
                (t_rows t) in
  let ratings := map (fun r => read_col (t_cols t) r "rating") hits in
  run (get_average_rating_for_target target_type target_id) a d
  = (d, inr (<["count" := VInt (Z.of_nat (length hits))]>
             (<["avg" := sql_avg ratings]> ∅)))
  /\ (hits = [] -> sql_avg ratings = VNull)
  /\ (hits <> [] -> Forall (fun v => not_null v = true) ratings ->
      sql_avg ratings = VReal (mean ratings)).
Proof.
  intros Ht Hc hits ratings. split; [|split].
  - rewrite (average_run a d t target_type target_id Ht Hc).
    replace (List.filter (matches (t_cols t) (target_where target_type target_id))
               (t_rows t)) with hits; [reflexivity|].
    apply filter_ext. intros r. unfold target_where. now rewrite matches_and.
  - subst ratings. intros ->. reflexivity.
  - intros Hne Hnn. unfold sql_avg.
    replace (List.filter not_null ratings) with ratings.
    + subst ratings. destruct hits; [contradiction|reflexivity].
    + clear Hne. induction Hnn as [|v l Hv _ IH]; [reflexivity|].
      cbn. rewrite Hv. now f_equal.
Qed.

Lemma create_rating_run a d t target_type target_id rater_id rating comment :
  d !! "ratings" = Some t ->
  t_cols t = ratings_cols ->
  t_checks t = ratings_checks ->
  1 <= rating <= 5 ->
  run (create_rating target_type target_id rater_id rating comment) a d
  = (<["ratings" := add_row t (Row (next_rowid t)
         (rating_fields (clock a) target_type target_id rater_id rating comment))]> d,
     inr (<["rating" := VInt rating]>
          (<["rater_id" := VInt rater_id]>
          (<["target_id" := VInt target_id]>
          (<["target_type" := VText target_type]>
          (<["id" := VInt (next_rowid t)]> ∅)))))).
Proof.
  intros Ht Hc Hk Hin.
  pose proof (sql_insert_rating (clock a) t target_type target_id rater_id rating comment
                Hc Hk) as Hins.
  assert ((1 <=? rating) && (rating <=? 5) = true) as E.
  { destruct (Z.leb_spec 1 rating), (Z.leb_spec rating 5); simpl; auto; lia. }
  rewrite E in Hins. apply (run_conn _ _ _ _ None).
  cbv beta iota zeta delta [create_rating mbind M_bind get_connection utcnow disk].
  now rewrite (execute_insert a (Conn d None) "ratings" t _ _ _ _ Ht Hins).
Qed.

(** A rating [create_rating] stored counts for its target: the count of the
    target goes up by one and the mean is taken over the ratings there were
    and the new one; the count of any other target stays. *)
Theorem create_rating_is_counted a a' d t target_type target_id rater_id rating comment :
  d !! "ratings" = Some t ->
  t_cols t = ratings_cols ->
  t_checks t = ratings_checks ->
  1 <= rating <= 5 ->
  let d1 := (run (create_rating target_type target_id rater_id rating comment) a d).1 in
  let hits := List.filter (fun r => col_is t "target_type" (VText target_type) r
                                    && col_is t "target_id" (VInt target_id) r)
                (t_rows t) in
  let ratings := map (fun r => read_col (t_cols t) r "rating") hits in
  run (get_average_rating_for_target target_type target_id) a' d1
  = (d1, inr (<["count" := VInt (Z.of_nat (length hits) + 1)]>
              (<["avg" := sql_avg (ratings ++ [VInt rating])]> ∅)))
  /\ forall other_type other_id,
       (other_type, other_id) <> (target_type, target_id) ->
       (run (get_average_rating_for_target other_type other_id) a' d1).2
       = (run (get_average_rating_for_target other_type other_id) a' d).2.
Proof.
  intros Ht Hc Hk Hin d1 hits ratings. subst d1.
  rewrite (create_rating_run a d t target_type target_id rater_id rating comment
             Ht Hc Hk Hin). cbn [fst].
  set (stored := Row (next_rowid t) _).
  assert (Hcols : cols_exist ratings_cols ["rating"; "target_type"; "target_id"] = true)
    by reflexivity.
  assert (Hread : read_col ratings_cols stored "target_type" = VText target_type
                  /\ read_col ratings_cols stored "target_id" = VInt target_id
                  /\ read_col ratings_cols stored "rating" = VInt rating)
    by (repeat split).
  destruct Hread as (Rt & Ri & Rr).
  split.
  - rewrite (average_run a' _ (add_row t stored) target_type target_id);
      [|apply lookup_insert_eq|cbn [t_cols add_row]; now rewrite Hc].
    cbn [t_cols t_rows add_row]. rewrite List.filter_app. cbn [List.filter].
    rewrite Hc.
    assert (matches ratings_cols (target_where target_type target_id) stored = true) as ->.
    { unfold target_where. rewrite matches_and, !matches_eq, Rt, Ri.
      now rewrite sql_eqb_text_refl, sql_eqb_int_refl. }
    rewrite length_app, map_app. cbn [length map]. rewrite Rr.
    replace (List.filter (matches ratings_cols (target_where target_type target_id))
               (t_rows t)) with hits.
    + subst ratings. rewrite Hc. do 4 f_equal. lia.
    + subst hits. apply filter_ext. intros r. unfold target_where, col_is.
      now rewrite matches_and, Hc.
  - intros other_type other_id Hne.
    rewrite (average_run a' _ (add_row t stored) other_type other_id);
      [|apply lookup_insert_eq|cbn [t_cols add_row]; now rewrite Hc].
    rewrite (average_run a' d t other_type other_id Ht) by now rewrite Hc.
    cbn [snd t_cols t_rows add_row]. rewrite List.filter_app. cbn [List.filter].
    rewrite Hc.
    assert (matches ratings_cols (target_where other_type other_id) stored = false) as ->.
    { unfold target_where. rewrite matches_and, !matches_eq, Rt, Ri.
      rewrite sql_eqb_text, sql_eqb_int.
      destruct (String.eqb_spec target_type other_type) as [->|]; [|reflexivity].
      destruct (Z.eqb_spec target_id other_id) as [->|]; [|reflexivity].
      now contradiction Hne. }
    now rewrite app_nil_r.
Qed.

End Averages.

(** ** Ratings: the listing and the count *)

Section RatingsListing.
Context `{TimeCodec} `{Accumulator}.

Lemma sql_eqb_same_int x y v :
  sql_eqb (VInt x) v = true -> sql_eqb (VInt y) v = true -> x = y.
Proof.
  destruct v as [|z|q|s]; try discriminate.
  - rewrite !sql_eqb_int. intros Hx%Z.eqb_eq Hy%Z.eqb_eq. congruence.
  - unfold sql_eqb. cbn.
    destruct (inject_Z x ?= q)%Q eqn:Ex; try discriminate.
    destruct (inject_Z y ?= q)%Q eqn:Ey; try discriminate. intros _ _.
    apply Qeq_alt in Ex, Ey. rewrite <- Ey in Ex. unfold Qeq in Ex. cbn in Ex. lia.
Qed.

Lemma one_partner (us : list row) v :
  NoDup (map rowid us) ->
  (length (List.filter (fun u => sql_eqb (VInt (rowid u)) v) us) <= 1)%nat.
Proof.
  induction us as [|u us IH]; intros Hnd; [cbn; lia|].
  cbn [map] in Hnd. apply NoDup_cons in Hnd as [Hu Hnd]. cbn [List.filter].
  destruct (sql_eqb (VInt (rowid u)) v) eqn:E; [|now apply IH].
  replace (List.filter (fun u0 => sql_eqb (VInt (rowid u0)) v) us) with (@nil row);
    [cbn; lia|].
  symmetry. apply filter_none. apply Forall_forall. intros x Hx.
  destruct (sql_eqb (VInt (rowid x)) v) eqn:Ex; [|reflexivity].
  exfalso. apply Hu. rewrite (sql_eqb_same_int _ _ _ E Ex).
  apply list_elem_of_In, in_map, list_elem_of_In, Hx.
Qed.

Lemma length_flat_map_le {A B : Type} (g : A -> list B) (l : list A) :
  Forall (fun x => (length (g x) <= 1)%nat) l ->
  (length (flat_map g l) <= length l)%nat.
Proof.
  intros Hall. induction Hall as [|x l Hx _ IH]; [cbn; lia|].
  cbn [flat_map]. rewrite length_app. cbn [length]. lia.
Qed.

Lemma length_flat_map_eq {A B : Type} (g : A -> list B) (l : list A) :
  Forall (fun x => length (g x) = 1%nat) l ->
  length (flat_map g l) = length l.
Proof.
  intros Hall. induction Hall as [|x l Hx _ IH]; [reflexivity|].
  cbn [flat_map]. rewrite length_app. cbn [length]. lia.
Qed.

Lemma read_id cols extra r : cols = id_col :: extra -> read_col cols r "id" = VInt (rowid r).
Proof. intros ->. reflexivity. Qed.

(** [get_ratings_for_target] lists, newest first, the ratings of the target
    whose rater is a stored user; [get_average_rating_for_target] counts
    every rating of the target.  The listing is never longer than the
    count, and as long as it when every rater is a stored user. *)
Theorem ratings_listing_within_count a a' d tr tu extra target_type target_id :
  d !! "ratings" = Some tr ->
  cols_exist (t_cols tr) rating_columns = true ->
  d !! "users" = Some tu ->
  t_cols tu = id_col :: extra ->
  has_col extra "email" = true ->
  NoDup (map rowid (t_rows tu)) ->
  let hits := List.filter (fun r => col_is tr "target_type" (VText target_type) r
                                    && col_is tr "target_id" (VInt target_id) r)
                (t_rows tr) in
  exists rows avg,
    run (get_ratings_for_target target_type target_id) a d = (d, inr rows)
    /\ run (get_average_rating_for_target target_type target_id) a' d
       = (d, inr (<["count" := VInt (Z.of_nat (length hits))]> (<["avg" := avg]> ∅)))
    /\ (length rows <= length hits)%nat
    /\ (Forall (fun r => existsb (fun u => sql_eqb (VInt (rowid u))
                                             (read_col (t_cols tr) r "rater_id"))
                           (t_rows tu) = true) hits ->
        length rows = length hits)
    /\ descending (column_of "created_at" rows).
Proof.
  intros Hr Hrc Hu Huc Hemail Hnd hits.
  assert (Hhits : List.filter (matches (t_cols tr) (target_where target_type target_id))
                    (t_rows tr) = hits).
  { apply filter_ext. intros r. unfold target_where. now rewrite matches_and. }
  assert (Hpart : forall l, partners tr tu "id" "rater_id" l
                  = List.filter (fun u => sql_eqb (VInt (rowid u))
                                            (read_col (t_cols tr) l "rater_id"))
                      (t_rows tu)).
  { intros l. unfold partners. apply filter_ext. intros u.
    now rewrite (read_id _ extra u Huc). }
  do 2 eexists. split; [|split; [|split; [|split]]].
  - apply (join_run a d "ratings" "users" tr tu rating_columns "email"
             "rater_email" "id" "rater_id" (target_where target_type target_id)
             "created_at" Hr Hu).
    + apply (cols_exist_incl _ _ _ Hrc). intros x Hx. cbn in *. tauto.
    + rewrite Huc. unfold cols_exist. cbn [forallb]. unfold has_col at 1 2.
      cbn [find_col find c_name id_col String.eqb Ascii.eqb Bool.eqb].
      fold (find_col extra "email"). unfold has_col in Hemail.
      destruct (find_col extra "email"); [reflexivity|discriminate].
  - rewrite (average_run a' d tr target_type target_id Hr).
    + rewrite Hhits. reflexivity.
    + apply (cols_exist_incl _ _ _ Hrc). intros x Hx. cbn in *. tauto.
  - rewrite length_map. unfold join_pairs. rewrite Hhits.
    etransitivity.
    + apply length_flat_map_le. apply Forall_forall. intros l _.
      rewrite length_map, Hpart. now apply one_partner.
    + apply Nat.eq_le_incl, Permutation_length, sort_desc_perm.
  - intros Hall. rewrite length_map. unfold join_pairs. rewrite Hhits.
    rewrite length_flat_map_eq; [apply Permutation_length, sort_desc_perm|].
    apply Forall_forall. intros l Hl.
    apply list_elem_of_In in Hl. eapply Permutation_in in Hl; [|apply sort_desc_perm].
    rewrite Forall_forall in Hall. apply list_elem_of_In, Hall in Hl.
    rewrite length_map, Hpart.
    pose proof (one_partner (t_rows tu) (read_col (t_cols tr) l "rater_id") Hnd) as Hle.
    apply existsb_exists in Hl as (u & Hu' & Hm).
    assert (In u (List.filter (fun u => sql_eqb (VInt (rowid u))
                                          (read_col (t_cols tr) l "rater_id"))
                    (t_rows tu))) as Hin by now apply filter_In.
    destruct (List.filter _ (t_rows tu)) as [|x [|y rest]]; cbn in *; [contradiction|lia|lia].
  - apply join_descending; [listed|discriminate].
Qed.

End RatingsListing.

(** ** Ratings: the life of a rating *)

Section RatingLife.
Context `{TimeCodec} `{Accumulator}.

Lemma matches_id cols extra id r :
  cols = id_col :: extra ->
  matches cols (CCmp "id" OpEq (VInt id)) r = (rowid r =? id).
Proof. intros ->. apply sql_eqb_int. Qed.

Lemma delete_rating_run a d t extra rating_id :
  d !! "ratings" = Some t ->
  t_cols t = id_col :: extra ->
  run (delete_rating rating_id) a d
  = (<["ratings" := remove_rows t (fun r => rowid r =? rating_id)]> d, inr true).
Proof.
  intros Ht Hc. apply (run_conn _ _ _ _ None).
  unfold delete_rating, mbind, M_bind, get_connection, commit, close.
  rewrite (execute_delete _ _ _ t); [|find_table|rewrite Hc; reflexivity].
  cbn [working txn disk]. unfold mret, M_ret. rewrite delete_where_remove.
  do 3 f_equal. apply remove_rows_ext. intros r. now apply (matches_id _ extra).
Qed.

Lemma get_rating_by_id_run a d t extra rating_id :
  d !! "ratings" = Some t ->
  t_cols t = id_col :: extra ->
  cols_exist (t_cols t) rating_columns = true ->
  run (get_rating_by_id rating_id) a d
  = (d, inr (as_dict (t_cols t) rating_columns
               <$> find (fun r => rowid r =? rating_id) (t_rows t))).
Proof.
  intros Ht Hc Hcols. unfold get_rating_by_id.
  rewrite (lookup_run a d "ratings" t rating_columns _ Ht).
  - rewrite (find_ext _ (fun r => rowid r =? rating_id)); [reflexivity|].
    intros r. now apply (matches_id _ extra).
  - apply (cols_exist_incl _ _ _ Hcols). intros x Hx. cbn in *. tauto.
Qed.

Lemma find_removed {A : Type} (p : A -> bool) (l : list A) :
  find p (List.filter (fun x => negb (p x)) l) = None.
Proof.
  induction l as [|x l IH]; [reflexivity|]. cbn [List.filter].
  destruct (p x) eqn:E; cbn [negb]; [exact IH|]. cbn [find]. now rewrite E.
Qed.

Lemma filter_all {A : Type} (p : A -> bool) (l : list A) :
  Forall (fun x => p x = true) l -> List.filter p l = l.
Proof.
  intros Hall. induction Hall as [|x l Hx _ IH]; [reflexivity|]. cbn. now rewrite Hx, IH.
Qed.

(** [delete_rating] removes the rating with the id and no other row,
    returns [True] whether or not there was one, and leaves a database that
    has no rating with the id unchanged; [get_rating_by_id] then finds
    nothing. *)
Theorem delete_rating_removes_one a a' d t rating_id :
  d !! "ratings" = Some t ->
  t_cols t = ratings_cols ->
  let t' := remove_rows t (fun r => rowid r =? rating_id) in
  let d1 := <["ratings" := t']> d in
  run (delete_rating rating_id) a d = (d1, inr true)
  /\ run (get_rating_by_id rating_id) a' d1 = (d1, inr None)
  /\ (forall r, r ∈ t_rows t -> rowid r <> rating_id -> r ∈ t_rows t')
  /\ (Forall (fun r => rowid r <> rating_id) (t_rows t) -> d1 = d).
Proof.
  intros Ht Hc t' d1. split; [|split; [|split]].
  - now apply (delete_rating_run a d t (tl ratings_cols)).
  - rewrite (get_rating_by_id_run a' d1 t' (tl ratings_cols));
      [|apply lookup_insert_eq|exact Hc|cbn [t_cols t' remove_rows]; now rewrite Hc].
    cbn [t_rows t' remove_rows]. now rewrite find_removed.
  - intros r Hr Hne. apply kept_rows; [exact Hr|]. now apply Z.eqb_neq.
  - intros Hall. subst d1 t'. unfold remove_rows. rewrite filter_all.
    + destruct t. now apply insert_id.
    + eapply Forall_impl; [exact Hall|]. intros r Hr. cbn beta in Hr.
      apply negb_true_iff. now apply Z.eqb_neq.
Qed.

Lemma max_rowid_app rows r :
  max_rowid (rows ++ [r]) = Z.max (max_rowid rows) (Z.max (rowid r) 0).
Proof.
  induction rows as [|x rows IH]; cbn [max_rowid foldr app] in *; [lia|].
  unfold max_rowid in IH. rewrite IH. lia.
Qed.

Lemma max_rowid_nonneg rows : 0 <= max_rowid rows.
Proof. induction rows as [|x rows IH]; cbn [max_rowid foldr] in *; [lia|]. unfold max_rowid in IH. lia. Qed.

(** The id after the one just given out, whether or not the row is still
    there. *)
Lemma next_rowid_used t rows :
  (forall r, In r rows -> rowid r <= max_rowid (t_rows t)) ->
  next_rowid (Table (t_cols t) (t_checks t) (t_fks t) rows
                (Z.max (t_seq t) (next_rowid t)))
  = next_rowid t + 1.
Proof.
  intros Hle. unfold next_rowid at 1. cbn [t_rows t_seq].
  assert (max_rowid rows <= max_rowid (t_rows t)).
  { clear -Hle. induction rows as [|x rows IH]; cbn [max_rowid foldr].
    - apply max_rowid_nonneg.
    - assert (rowid x <= max_rowid (t_rows t)) by (apply Hle; now left).
      assert (max_rowid rows <= max_rowid (t_rows t)) by (apply IH; intros r Hr; apply Hle; now right).
      unfold max_rowid in *. lia. }
  unfold next_rowid. lia.
Qed.

Lemma in_max_rowid rows r : In r rows -> rowid r <= max_rowid rows.
Proof.
  intros Hr. pose proof (max_rowid_bound rows) as Hb. rewrite Forall_forall in Hb.
  now apply Hb, list_elem_of_In.
Qed.

Lemma filter_appended {A : Type} (p : A -> bool) (l : list A) (x : A) :
  Forall (fun y => p y = true) l -> p x = false -> List.filter p (l ++ [x]) = l.
Proof.
  intros Hall Hx. rewrite List.filter_app. cbn. rewrite Hx, app_nil_r.
  now apply filter_all.
Qed.

Lemma find_below rows id :
  Forall (fun r => rowid r < id) rows -> find (fun r => rowid r =? id) rows = None.
Proof.
  intros Hall. induction Hall as [|r rows Hr _ IH]; [reflexivity|]. cbn [find].
  destruct (Z.eqb_spec (rowid r) id); [lia|exact IH].
Qed.

(** The life of a rating: [create_rating] stores it under a fresh id,
    [get_rating_by_id] reads it back with its comment and instant,
    [delete_rating] removes it and leaves the rows there were, and the next
    rating created gets the next id: an id is not given out twice. *)
Theorem rating_lifecycle a a1 a2 a3 a4 d t target_type target_id rater_id rating comment
    target_type' target_id' rater_id' rating' comment' :
  d !! "ratings" = Some t ->
  t_cols t = ratings_cols ->
  t_checks t = ratings_checks ->
  1 <= rating <= 5 ->
  1 <= rating' <= 5 ->
  let id := next_rowid t in
  let d1 := (run (create_rating target_type target_id rater_id rating comment) a d).1 in
  let d2 := (run (delete_rating id) a2 d1).1 in
  run (get_rating_by_id id) a1 d1
  = (d1, inr (Some (<["created_at" := VText (isoformat (clock a))]>
                    (<["comment" := VText comment]>
                    (<["rating" := VInt rating]>
                    (<["rater_id" := VInt rater_id]>
                    (<["target_id" := VInt target_id]>
                    (<["target_type" := VText target_type]>
                    (<["id" := VInt id]> ∅)))))))))
  /\ run (get_rating_by_id id) a3 d2 = (d2, inr None)
  /\ (t_rows <$> d2 !! "ratings") = Some (t_rows t)
  /\ (run (create_rating target_type' target_id' rater_id' rating' comment') a4 d2).2
     = inr (<["rating" := VInt rating']>
            (<["rater_id" := VInt rater_id']>
            (<["target_id" := VInt target_id']>
            (<["target_type" := VText target_type']>
            (<["id" := VInt (id + 1)]> ∅))))).
Proof.
  intros Ht Hc Hk Hin Hin'. cbv zeta.
  rewrite (create_rating_run a d t target_type target_id rater_id rating comment
             Ht Hc Hk Hin). cbn [fst].
  set (id := next_rowid t).
  set (stored := Row id _).
  set (d1 := <["ratings" := add_row t stored]> d).
  assert (H1 : d1 !! "ratings" = Some (add_row t stored)) by apply lookup_insert_eq.
  rewrite (delete_rating_run a2 d1 (add_row t stored) (tl ratings_cols) id H1 Hc).
  cbn [fst].
  set (t2 := Table (t_cols t) (t_checks t) (t_fks t) (t_rows t) (Z.max (t_seq t) id)).
  assert (<["ratings" := remove_rows (add_row t stored) (fun r => rowid r =? id)]> d1
          = <["ratings" := t2]> d) as ->.
  { unfold d1. rewrite insert_insert_eq. f_equal.
    unfold remove_rows, t2. cbn [t_cols t_checks t_fks t_rows t_seq add_row rowid stored].
    f_equal. apply filter_appended.
    - eapply Forall_impl; [apply next_rowid_fresh|]. intros r Hr. cbn beta in Hr.
      apply negb_true_iff, Z.eqb_neq. fold id in Hr. lia.
    - cbn [rowid]. now rewrite Z.eqb_refl. }
  split; [|split; [|split]].
  - rewrite (get_rating_by_id_run a1 d1 (add_row t stored) (tl ratings_cols) id H1 Hc);
      [|cbn [t_cols add_row]; now rewrite Hc].
    cbn [t_rows add_row]. unfold id at 1. rewrite find_fresh by reflexivity.
    cbn [fmap option_fmap option_map t_cols add_row]. rewrite Hc. reflexivity.
  - rewrite (get_rating_by_id_run a3 _ t2 (tl ratings_cols) id);
      [|apply lookup_insert_eq|exact Hc|cbn [t_cols t2]; now rewrite Hc].
    cbn [t_rows t2]. rewrite find_below; [reflexivity|apply next_rowid_fresh].
  - rewrite lookup_insert_eq. reflexivity.
  - rewrite (create_rating_run a4 _ t2 target_type' target_id' rater_id' rating' comment');
      [|apply lookup_insert_eq|exact Hc|exact Hk|exact Hin'].
    cbn [snd]. unfold t2, id. rewrite next_rowid_used; [reflexivity|].
    intros r. apply in_max_rowid.
Qed.

End RatingLife.

Section RatingsSample2.
Import RefCodec RefArith.

(** Job 1 has the ratings 4, 5 and 5: three ratings, of mean
    4.666666666666667; job 9 has none. *)
Lemma average_rating_of_target_sample :
  run (get_average_rating_for_target "job" 1) Sample.noon Cases.rated
  = (Cases.rated, inr (<["count" := VInt 3]>
                       (<["avg" := VReal (5254199565265579 # 1125899906842624)]> ∅)))
  /\ run (get_average_rating_for_target "job" 9) Sample.noon Cases.rated
     = (Cases.rated, inr (<["count" := VInt 0]> (<["avg" := VNull]> ∅))).
Proof.
  destruct (average_rating_of_target Sample.noon Cases.rated Cases.rated_ratings "job" 1
              eq_refl eq_refl) as (Hrun & _ & _).
  destruct (average_rating_of_target Sample.noon Cases.rated Cases.rated_ratings "job" 9
              eq_refl eq_refl) as (Hrun9 & _ & _).
  rewrite Hrun, Hrun9. split; do 4 f_equal.
Defined.

(** On the sample, job 1 has one rating; a second makes the count 2. *)
Lemma create_rating_is_counted_sample :
  let d1 := (run (create_rating "job" 1 1 5 "Fine") Sample.noon Sample.data).1 in
  run (get_average_rating_for_target "job" 1) Sample.later d1
  = (d1, inr (<["count" := VInt 2]> (<["avg" := VReal (9 # 2)]> ∅))).
Proof.
  destruct (create_rating_is_counted Sample.noon Sample.later Sample.data Sample.ratings
              "job" 1 1 5 "Fine" eq_refl eq_refl eq_refl) as (Hrun & _).
  { split; discriminate. }
  cbv zeta. rewrite Hrun. f_equal.
Defined.

(** Of the three ratings of job 1 the listing shows the two whose rater is
    a user. *)
Lemma ratings_listing_within_count_sample :
  exists rows,
    run (get_ratings_for_target "job" 1) Sample.noon Cases.rated = (Cases.rated, inr rows)
    /\ (length rows <= 3)%nat
    /\ descending (column_of "created_at" rows).
Proof.
  destruct (ratings_listing_within_count Sample.noon Sample.noon Cases.rated
              Cases.rated_ratings Sample.users (tl (users_cols ++ profile_cols))
              "job" 1 eq_refl eq_refl eq_refl eq_refl eq_refl)
    as (rows & avg & Hrows & _ & Hle & _ & Hd).
  { apply (bool_decide_eq_true_1 _). reflexivity. }
  exists rows. split; [exact Hrows|]. split; [exact Hle|exact Hd].
Defined.

(** Deleting rating 4 of the sample leaves the three others; nothing has
    id 9, and deleting it changes nothing. *)
Lemma delete_rating_removes_one_sample :
  (t_rows <$> (run (delete_rating 4) Sample.noon Sample.data).1 !! "ratings")
  = Some [Sample.rating_row 1 "job" 1 2 4; Sample.rating_row 2 "job" 2 2 5;
          Sample.rating_row 3 "user" 1 2 3]
  /\ run (delete_rating 9) Sample.noon Sample.data = (Sample.data, inr true).
Proof.
  destruct (delete_rating_removes_one Sample.noon Sample.noon Sample.data Sample.ratings 4
              eq_refl eq_refl) as (Hrun & _).
  destruct (delete_rating_removes_one Sample.noon Sample.noon Sample.data Sample.ratings 9
              eq_refl eq_refl) as (Hrun9 & _ & _ & Hsame).
  rewrite Hrun, Hrun9. split; [reflexivity|].
  rewrite Hsame; [reflexivity|]. repeat constructor; discriminate.
Defined.

(** On the sample: the fifth rating is read back, deleted, and the next one
    gets id 6. *)
Lemma rating_lifecycle_sample :
  let d1 := (run (create_rating "user" 1 2 2 "Late") Sample.noon Sample.data).1 in
  let d2 := (run (delete_rating 5) Sample.later d1).1 in
  run (get_rating_by_id 5) Sample.later d1
  = (d1, inr (Some (<["created_at" := VText "2026-11-04T09:30:00"]>
                    (<["comment" := VText "Late"]>
                    (<["rating" := VInt 2]>
                    (<["rater_id" := VInt 2]>
                    (<["target_id" := VInt 1]>
                    (<["target_type" := VText "user"]>
                    (<["id" := VInt 5]> ∅)))))))))
  /\ run (get_rating_by_id 5) Sample.later d2 = (d2, inr None)
  /\ (run (create_rating "user" 1 2 3 "") Sample.later d2).2
     = inr (<["rating" := VInt 3]>
            (<["rater_id" := VInt 2]>
            (<["target_id" := VInt 1]>
            (<["target_type" := VText "user"]>
            (<["id" := VInt 6]> ∅))))).
Proof.
  destruct (rating_lifecycle Sample.noon Sample.later Sample.later Sample.later
              Sample.later Sample.data Sample.ratings "user" 1 2 2 "Late" "user" 1 2 3 ""
              eq_refl eq_refl eq_refl) as (Hget & Hgone & _ & Hnext).
  { split; discriminate. }
  { split; discriminate. }
  split; [exact Hget|]. split; [exact Hgone|exact Hnext].
Defined.

End RatingsSample2.

(** ** Tokens: expiry, purge and looks *)

Section MoreTokens.
Context `{TimeCodec}.

(** [create_token] with a life that takes the expiry out of the years 1 to
    9999 raises OverflowError before it touches the database: nothing is
    stored, and no table is created. *)
Theorem create_token_overflow a d email purpose expires_seconds :
  clock a + expires_seconds * 1000000 < 0 \/ dt_max < clock a + expires_seconds * 1000000 ->
  run (create_token email purpose expires_seconds) a d = (d, inl OverflowError).
Proof.
  intros Hout. apply (run_conn _ _ _ _ None).
  cbv beta iota zeta delta [create_token mbind M_bind get_connection token_hex utcnow
                            lift disk].
  unfold add_seconds.
  assert ((0 <=? clock a + expires_seconds * 1000000)
          && (clock a + expires_seconds * 1000000 <=? dt_max) = false) as ->.
  { destruct (Z.leb_spec 0 (clock a + expires_seconds * 1000000)),
             (Z.leb_spec (clock a + expires_seconds * 1000000) dt_max);
      cbn; try reflexivity; lia. }
  reflexivity.
Qed.

Lemma purge_run a d t :
  d !! "tokens" = Some t ->
  has_col (t_cols t) "expires_at" = true ->
  run purge_expired_tokens a d
  = (<["tokens" := remove_rows t
         (matches (t_cols t) (CCmp "expires_at" OpLe (VText (isoformat (clock a)))))]> d,
     inr tt).
Proof.
  intros Ht Hc. apply (run_conn _ _ _ _ None).
  cbv beta iota zeta delta [purge_expired_tokens mbind M_bind get_connection utcnow disk].
  rewrite (execute_delete _ _ _ t); [|exact Ht|cbn; now rewrite Hc].
  reflexivity.
Qed.

Lemma matches_le cols c v r :
  matches cols (CCmp c OpLe v) r
  = match sql_cmp OpLe (read_col cols r c) v with Some true => true | _ => false end.
Proof. reflexivity. Qed.

Lemma in_remove_rows t p r : r ∈ t_rows (remove_rows t p) <-> r ∈ t_rows t /\ p r = false.
Proof.
  rewrite !list_elem_of_In. cbn [t_rows remove_rows]. rewrite filter_In.
  now rewrite negb_true_iff.
Qed.

(** [purge_expired_tokens] deletes the tokens whose stored expiry is, as a
    string, not after the ISO text of the current instant, keeps those whose
    expiry is after it and those that have none, touches no other table, and
    run again at the same instant changes nothing more. *)
Theorem purge_expired_tokens_effect a d t :
  d !! "tokens" = Some t ->
  token_schema (t_cols t) ->
  let now := isoformat (clock a) in
  let d1 := (run purge_expired_tokens a d).1 in
  exists t',
    run purge_expired_tokens a d = (<["tokens" := t']> d, inr tt)
    /\ (forall r, r ∈ t_rows t -> read_col (t_cols t) r "expires_at" = VNull ->
                  r ∈ t_rows t')
    /\ (forall r s, r ∈ t_rows t -> read_col (t_cols t) r "expires_at" = VText s ->
                    (r ∈ t_rows t' <-> String.compare s now = Gt))
    /\ (forall r, r ∈ t_rows t' -> r ∈ t_rows t)
    /\ run purge_expired_tokens a d1 = (d1, inr tt).
Proof.
  intros Ht Hs now d1.
  assert (Hc : has_col (t_cols t) "expires_at" = true)
    by (destruct Hs as [-> | ->]; reflexivity).
  pose proof (purge_run a d t Ht Hc) as Hrun. fold now in Hrun.
  set (p := matches (t_cols t) (CCmp "expires_at" OpLe (VText now))) in Hrun.
  exists (remove_rows t p). split; [exact Hrun|]. split; [|split; [|split]].
  - intros r Hr Hnull. apply in_remove_rows. split; [exact Hr|].
    subst p. cbv beta. now rewrite matches_le, Hnull.
  - intros r s Hr Htext. rewrite in_remove_rows. subst p. cbv beta.
    rewrite matches_le, Htext. cbn.
    destruct (String.compare s now); cbn; split; try tauto; try discriminate.
    + intros [_ Hf]. discriminate Hf.
    + intros [_ Hf]. discriminate Hf.
  - intros r Hr. now apply in_remove_rows in Hr.
  - subst d1. rewrite Hrun. cbn [fst].
    rewrite (purge_run a _ (remove_rows t p)); [|apply lookup_insert_eq|exact Hc].
    cbn [t_cols remove_rows]. fold now. fold p. rewrite insert_insert_eq.
    do 2 f_equal. rewrite remove_rows_twice. apply remove_rows_ext.
    intros r. now destruct (p r).
Qed.

(** A token whose expiry is the current instant is still good for
    [consume_token] and [get_token_info], which ask whether the expiry is
    before now, and is deleted by [purge_expired_tokens], which asks
    whether it is not after now. *)
Theorem token_expiring_now a d t token purpose r :
  d !! "tokens" = Some t ->
  token_schema (t_cols t) ->
  find (matches (t_cols t) (token_where token purpose)) (t_rows t) = Some r ->
  read_col (t_cols t) r "expires_at" = VText (isoformat (clock a)) ->
  isoformat (clock a) <> "" ->
  fromisoformat (isoformat (clock a)) = Naive (clock a) ->
  (run (consume_token token purpose) a d).2 = inr (read_col (t_cols t) r "email")
  /\ run (get_token_info token purpose) a d
     = (d, inr (Some (as_dict (t_cols t)
                        ["token"; "email"; "purpose"; "expires_at"; "created_at"] r)))
  /\ exists t', (run purge_expired_tokens a d).1 !! "tokens" = Some t'
                /\ (r ∉ t_rows t').
Proof.
  intros Ht Hs Hfind Hx Hne Hparse.
  assert (Hvalid : still_valid (clock a) (read_col (t_cols t) r "expires_at") = true).
  { rewrite Hx, (still_valid_text _ _ (clock a) Hne Hparse). now rewrite Z.ltb_irrefl. }
  split; [|split].
  - rewrite (consume_token_found a d t token purpose r Ht Hs Hfind). cbn [snd].
    now rewrite Hvalid.
  - rewrite (get_token_info_run a d t token purpose Ht Hs), Hfind. now rewrite Hvalid.
  - rewrite (purge_run a d t Ht) by (destruct Hs as [-> | ->]; reflexivity).
    cbn [fst]. rewrite lookup_insert_eq. eexists. split; [reflexivity|].
    rewrite in_remove_rows. intros [_ Hkeep].
    rewrite matches_le, Hx in Hkeep. cbn in Hkeep.
    now rewrite string_compare_refl in Hkeep.
Qed.

Lemma token_where_other cols id now token email purpose expires other :
  token_schema cols ->
  other <> purpose ->
  matches cols (token_where token other)
    (Row id (token_fields now token email purpose expires)) = false.
Proof.
  intros Hs Hne.
  destruct (token_row_read cols id now token email purpose expires Hs) as (Rt & Rp & _).
  unfold token_where. rewrite matches_and, !matches_eq, Rt, Rp, !sql_eqb_text.
  destruct (String.eqb_spec purpose other) as [->|_]; [congruence|].
  apply andb_false_r.
Qed.

Lemma find_not_appended {A : Type} (p : A -> bool) (l : list A) (x : A) :
  find p l = None -> p x = false -> find p (l ++ [x]) = None.
Proof.
  intros Hl Hx. induction l as [|y l IH]; cbn [app find] in *; [now rewrite Hx|].
  destruct (p y); [discriminate|now apply IH].
Qed.

(** Looking at a token consumes nothing.  [get_token_info] on a token that
    has not expired returns its row, the token, the email, the purpose, the
    expiry and the instant SQLite stamped it with; asked under another
    purpose than the token was made for, it and [consume_token] find
    nothing.  After all of these the database is what [create_token] left,
    and [consume_token] with the right purpose returns the email. *)
Theorem token_survives_a_look d now token email purpose ttl expires other a1 a2 :
  let t := tokens_of d in
  token_schema (t_cols t) ->
  t_checks t = [] ->
  unused_token t token ->
  add_seconds now ttl = inr expires ->
  fromisoformat (isoformat expires) = Naive expires ->
  isoformat expires <> "" ->
  other <> purpose ->
  clock a1 <= expires ->
  clock a2 <= expires ->
  let d1 := (run (create_token email purpose ttl) (Ambient now token) d).1 in
  run (get_token_info token purpose) a1 d1
  = (d1, inr (Some (<["created_at" := VText (current_timestamp now)]>
                    (<["expires_at" := VText (isoformat expires)]>
                    (<["purpose" := VText purpose]>
                    (<["email" := VText email]>
                    (<["token" := VText token]> ∅)))))))
  /\ run (get_token_info token other) a1 d1 = (d1, inr None)
  /\ run (consume_token token other) a1 d1 = (d1, inr VNull)
  /\ (run (consume_token token purpose) a2 d1).2 = inr (VText email).
Proof.
  intros t Hs Hk Hfree Hadd Hparse Hne Hother Hle1 Hle2 d1.
  assert (Hlast : (run (consume_token token purpose) a2 d1).2 = inr (VText email)).
  { subst d1.
    rewrite (create_then_consume d now token email purpose ttl expires a2
               Hs Hk Hfree Hadd Hparse Hne).
    cbn [snd]. destruct (Z.ltb_spec expires (clock a2)); [lia|reflexivity]. }
  subst d1.
  rewrite (create_token_run d now token email purpose ttl expires Hs Hk Hfree Hadd) in *.
  cbn [fst] in *. fold t in Hlast |- *.
  set (r := Row (next_rowid t) (token_fields now token email purpose expires)) in *.
  destruct (token_row_read (t_cols t) (next_rowid t) now token email purpose expires Hs)
    as (Rt & Rp & Re & Rx). fold r in Rt, Rp, Re, Rx.
  assert (H1 : <["tokens" := add_row t r]> d !! "tokens" = Some (add_row t r))
    by apply lookup_insert_eq.
  assert (Hnone : find (matches (t_cols (add_row t r)) (token_where token other))
                    (t_rows (add_row t r)) = None).
  { cbn [t_cols t_rows add_row]. apply find_not_appended.
    - now apply find_unused.
    - now apply token_where_other. }
  split; [|split; [|split; [|exact Hlast]]].
  - rewrite (get_token_info_run a1 _ (add_row t r) token purpose H1 Hs).
    cbn [t_cols t_rows add_row]. rewrite find_created; [|exact Hfree|].
    + rewrite Rx, (still_valid_text _ _ expires Hne Hparse).
      destruct (Z.ltb_spec expires (clock a1)); [lia|]. cbn [negb].
      do 3 f_equal. destruct Hs as [-> | ->]; reflexivity.
    + unfold token_where. rewrite matches_and, !matches_eq, Rt, Rp.
      now rewrite !sql_eqb_text_refl.
  - rewrite (get_token_info_run a1 _ (add_row t r) token other H1 Hs).
    now rewrite Hnone.
  - exact (consume_token_missing a1 _ (add_row t r) token other H1 Hs Hnone).
Qed.

Lemma execute_select_no_table a c names n w order limit :
  working c !! n = None ->
  execute (SelectFrom names n w order limit) a c
  = (c, inl (OperationalError ("no such table: " ++ n))).
Proof. intros Hn. unfold execute, exec_stmt, lookup_table. now rewrite Hn. Qed.

Lemma execute_delete_no_table a c n w :
  working c !! n = None ->
  execute (DeleteFrom n w) a c = (c, inl (OperationalError ("no such table: " ++ n))).
Proof. intros Hn. unfold execute, exec_stmt, lookup_table. now rewrite Hn. Qed.

(** On a database that has no tokens table, [consume_token],
    [get_token_info] and [purge_expired_tokens] raise and change nothing,
    while [create_token] makes the table itself, with an expiry that is NOT
    NULL, and stores the token. *)
Theorem token_accessors_without_table a d token email purpose ttl expires :
  d !! "tokens" = None ->
  add_seconds (clock a) ttl = inr expires ->
  let missing := OperationalError "no such table: tokens" in
  run (consume_token token purpose) a d = (d, inl missing)
  /\ run (get_token_info token purpose) a d = (d, inl missing)
  /\ run purge_expired_tokens a d = (d, inl missing)
  /\ run (create_token email purpose ttl) a d
     = (<["tokens" := Table tokens_cols_inline [] []
            [Row 1 (token_fields (clock a) (urandom a) email purpose expires)] 1]> d,
        inr (urandom a)).
Proof.
  intros Hn Hadd missing. split; [|split; [|split]].
  - apply (run_conn _ _ _ _ None).
    cbv beta iota zeta delta [consume_token mbind M_bind get_connection disk].
    rewrite execute_select_no_table by exact Hn. reflexivity.
  - apply (run_conn _ _ _ _ None).
    cbv beta iota zeta delta [get_token_info mbind M_bind get_connection disk].
    rewrite execute_select_no_table by exact Hn. reflexivity.
  - apply (run_conn _ _ _ _ None).
    cbv beta iota zeta delta [purge_expired_tokens mbind M_bind get_connection utcnow disk].
    rewrite execute_delete_no_table by exact Hn. reflexivity.
  - destruct a as [now token']. cbn [clock urandom] in *.
    assert (Et : tokens_of d = new_table tokens_cols_inline [] [])
      by (unfold tokens_of; now rewrite Hn).
    pose proof (create_token_run d now token' email purpose ttl expires) as Hrun.
    cbv zeta in Hrun. rewrite Et in Hrun.
    rewrite Hrun; [reflexivity|now right|reflexivity|constructor|exact Hadd].
Qed.

End MoreTokens.

(** ** Schema helpers *)

Section SchemaHelpers.
Context `{TimeCodec} `{Accumulator}.

Lemma table_exists_run a d n : run (_table_exists n) a d = (d, inr (master_has d n)).
Proof.
  unfold run, _table_exists, mbind, M_bind, execute_query, exec_query. cbn [working txn disk].
  destruct (master_has d n); reflexivity.
Qed.

Lemma init_db_has a d n :
  n ∈ ["users"; "jobs"; "applications"; "ratings"; "tokens"] ->
  is_Some ((run init_db a d).1 !! n).
Proof.
  intros Hn. rewrite init_db_run. cbn [fst]. unfold init_db_result.
  do 2 apply with_column_keeps.
  repeat (apply elem_of_cons in Hn as [->|Hn]);
    [..|now apply elem_of_nil in Hn];
    repeat first [apply ensure_some | apply ensure_keeps].
Qed.

(** [_table_exists] answers whether the schema lists a table of the name
    and changes nothing: it is false for every name on an empty file and
    true for each of the five tables once [init_db] ran, on any database;
    on the database [init_db] made from nothing it is true of
    [sqlite_sequence] as well, which SQLite keeps for the AUTOINCREMENT
    keys. *)
Theorem table_exists_after_init_db a a' d n :
  run (_table_exists n) a ∅ = (∅, inr false)
  /\ (is_Some (d !! n) -> run (_table_exists n) a d = (d, inr true))
  /\ (n ∈ ["users"; "jobs"; "applications"; "ratings"; "tokens"] ->
      run (_table_exists n) a' (run init_db a d).1 = ((run init_db a d).1, inr true))
  /\ run (_table_exists "sqlite_sequence") a' (run init_db a ∅).1
     = ((run init_db a ∅).1, inr true).
Proof.
  split; [|split; [|split]].
  - rewrite table_exists_run. unfold master_has. rewrite lookup_empty.
    rewrite map_to_list_empty. cbn [existsb]. now rewrite andb_false_r.
  - intros [t Ht]. rewrite table_exists_run. unfold master_has. now rewrite Ht.
  - intros Hn. destruct (init_db_has a d n Hn) as [t Ht].
    rewrite table_exists_run. unfold master_has. now rewrite Ht.
  - rewrite table_exists_run. rewrite init_db_run. cbn [fst].
    reflexivity.
Qed.






End SchemaHelpers.

(** ** Further samples *)

Section MoreSamples.
Import RefCodec RefArith.

(** On the sample, both users are listed. *)
Lemma get_all_users_lists_everyone_sample :
  exists rows,
    run get_all_users Sample.noon Sample.data = (Sample.data, inr rows)
    /\ length rows = 2%nat
    /\ descending (column_of "created_at" rows).
Proof.
  destruct (get_all_users_lists_everyone Sample.noon Sample.data Sample.users
              eq_refl eq_refl) as (rows & Hrows & Hlen & _ & Hd).
  exists rows. split; [exact Hrows|]. split; [exact Hlen|exact Hd].
Defined.

(** User 3 has no username, and the username [None] does not find them. *)
Lemma get_user_by_username_none_sample :
  read_col (t_cols Cases.unnamed_users) Cases.unnamed_user "username" = VNull
  /\ run (get_user_by_username None) Sample.noon Cases.unnamed
     = (Cases.unnamed, inr None).
Proof.
  split; [reflexivity|].
  exact (get_user_by_username_none Sample.noon Cases.unnamed Cases.unnamed_users
           eq_refl eq_refl).
Defined.

(** A life of three hundred thousand million seconds ends after the year
    9999. *)
Lemma create_token_overflow_sample :
  run (create_token "cand@example.com" "reset" 300000000000) Sample.noon Sample.data
  = (Sample.data, inl OverflowError).
Proof.
  apply create_token_overflow. right. reflexivity.
Defined.

(** At 09:30 the purge removes the token that expired at 09:00 and the one
    that expires at 09:30, and keeps the one that expires at 10:30. *)
Lemma purge_expired_tokens_effect_sample :
  exists t',
    run purge_expired_tokens Sample.noon Cases.due
    = (<["tokens" := t']> Cases.due, inr tt)
    /\ (Sample.token_row 3 "cc33" "reset" "2026-11-04T10:30:00" ∈ t_rows t')
    /\ (Sample.token_row 1 "aa11" "reset" "2026-11-04T09:00:00" ∉ t_rows t')
    /\ (Sample.token_row 2 "bb22" "verify" "2026-11-04T09:30:00" ∉ t_rows t').
Proof.
  destruct (purge_expired_tokens_effect Sample.noon Cases.due Cases.due_tokens
              eq_refl (or_introl eq_refl)) as (t' & Hrun & _ & Htext & _).
  exists t'. split; [exact Hrun|]. split; [|split].
  - apply (Htext _ "2026-11-04T10:30:00");
      [repeat constructor|reflexivity|vm_compute; reflexivity].
  - intros Hin.
    apply (Htext _ "2026-11-04T09:00:00") in Hin;
      [vm_compute in Hin; discriminate|repeat constructor|reflexivity].
  - intros Hin.
    apply (Htext _ "2026-11-04T09:30:00") in Hin;
      [vm_compute in Hin; discriminate|repeat constructor|reflexivity].
Defined.

(** At 09:30 the token that expires at 09:30 is consumed and returns the
    email, and the purge at that instant would have deleted it. *)
Lemma token_expiring_now_sample :
  (run (consume_token "bb22" "verify") Sample.noon Cases.due).2
  = inr (VText "cand@example.com")
  /\ exists t', (run purge_expired_tokens Sample.noon Cases.due).1 !! "tokens" = Some t'
                /\ (Sample.token_row 2 "bb22" "verify" "2026-11-04T09:30:00" ∉ t_rows t').
Proof.
  destruct (token_expiring_now Sample.noon Cases.due Cases.due_tokens "bb22" "verify"
              (Sample.token_row 2 "bb22" "verify" "2026-11-04T09:30:00")
              eq_refl (or_introl eq_refl) eq_refl)
    as (Hc & _ & Hp).
  { vm_compute. reflexivity. }
  { vm_compute. discriminate. }
  { vm_compute. reflexivity. }
  split; [exact Hc|exact Hp].
Defined.

(** On the sample: a reset token is not found under the purpose verify, is
    shown by a look under reset, and is then consumed under reset. *)
Lemma token_survives_a_look_sample :
  let d1 := (run (create_token "cand@example.com" "reset" 3600)
               Sample.noon Sample.data).1 in
  run (get_token_info Sample.draw "verify") Sample.later d1 = (d1, inr None)
  /\ run (consume_token Sample.draw "verify") Sample.later d1 = (d1, inr VNull)
  /\ (run (consume_token Sample.draw "reset") Sample.later d1).2
     = inr (VText "cand@example.com").
Proof.
  destruct (token_survives_a_look Sample.data (clock Sample.noon) Sample.draw
              "cand@example.com" "reset" 3600 (clock Sample.noon + 3600 * 1000000)
              "verify" Sample.later Sample.later)
    as (_ & Hpeek & Hwrong & Hright).
  - left. reflexivity.
  - reflexivity.
  - constructor.
  - reflexivity.
  - vm_compute. reflexivity.
  - vm_compute. discriminate.
  - discriminate.
  - vm_compute. discriminate.
  - vm_compute. discriminate.
  - split; [exact Hpeek|]. split; [exact Hwrong|exact Hright].
Defined.

(** On an empty file the three readers of tokens raise and [create_token]
    stores the first token in a table of its own making. *)
Lemma token_accessors_without_table_sample :
  run (consume_token "aa11" "reset") Sample.noon ∅
  = (∅, inl (OperationalError "no such table: tokens"))
  /\ run purge_expired_tokens Sample.noon ∅
     = (∅, inl (OperationalError "no such table: tokens"))
  /\ (run (create_token "cand@example.com" "reset" 3600) Sample.noon ∅).2
     = inr Sample.draw.
Proof.
  destruct (token_accessors_without_table Sample.noon ∅ "aa11" "cand@example.com" "reset"
              3600 (clock Sample.noon + 3600 * 1000000) (lookup_empty _) eq_refl)
    as (Hc & _ & Hp & Hnew).
  split; [exact Hc|]. split; [exact Hp|]. now rewrite Hnew.
Defined.


End MoreSamples.
